(** * Circuit breaker for SQS event source Lambdas: the Step Functions workflow

    A shallow embedding of [cdk/lib/circuit-breaker/circuit-breaker.ts] (the
    construct that builds the state machine) and of the rejitter Lambda
    handler, with the theorems that settle the specification's claims.

    The construct is a program that builds a state-machine definition; it is
    embedded as a function from the construct's props to a table of states.
    The workflow's behaviour is the meaning of that table under the Amazon
    States Language, given here as a small-step interpreter that is
    parametric in the outcomes of the external calls. *)

From Stdlib Require Import ZArith List String Bool Lia Arith.
From Stdlib Require Import QArith Qround Qabs Lqa.
From Stdlib Require Import DecimalString DecimalZ.
Import ListNotations.
Local Open Scope Z_scope.

(* ================================================================== *)
(** ** Data carried by the workflow *)

(** One SQS message as returned by [receiveMessage]. *)
Record Message := { Body : string; ReceiptHandle : string }.

(** The object built by the [resultSelector] of [performSqsActionTask] and
    rebuilt by the [Pass] state [incrementFailureAndTime]. *)
Record Incident := {
  Messages : list Message;
  Attempt : Z;
  RetryTime : Z
}.

(** The JSON document flowing between the states: the raw response of
    [receiveMessage], the incident object, or any other document (the
    trigger event, the response of [updateEventSourceMapping] or of
    [deleteMessage]). *)
Inductive Json :=
| JOther
| JReceived (msgs : list Message)
| JIncident (i : Incident).

(* ================================================================== *)
(** ** The state-machine definition language (the part the construct uses) *)

(** The two event source mappings of the queue: the one of the protected
    consumer ([props.sqsEventSource]) and the one created for the rejitter
    Lambda ([rejitterSqsEventSource]). *)
Inductive EventSourceMapping := sqsEventSource | rejitterSqsEventSource.

Inductive StateId :=
| disableMapping           (* "Disable SQS Event Source Mapping (Break Circuit)" *)
| waitState                (* "Wait N Seconds" *)
| getTesterMessage         (* "Get SQS Message to Test Circuit" *)
| triggerLambda            (* "Test Whether service is fixed" *)
| incrementFailureAndTime  (* "On example Fail, Increment Attempt Counter" *)
| exceededRetryChoice      (* "Has Exceeded Retry Attempts?" *)
| waitAndRetry             (* "Exponential Backoff" *)
| exceededRetryAttempts    (* "Exceeded Retry Attempts" *)
| deleteMessageSqs         (* "Delete Successfully Processed SQS Message" *)
| enableRejitter           (* "Rejitter Messages from SQS and ReQueue" *)
| waitAndDisableJitter     (* "Wait 60 Seconds" *)
| disableRejitter          (* "Stop Rejitter Messages from SQS and ReQueue" *)
| enabledMapping.          (* "Enable SQS Event Source Mapping (Fix Circuit)" *)

(** The service calls made by the task states, with their static parameters.
    [deleteMessage] takes [ReceiptHandle] from [$.Messages[0].ReceiptHandle]
    and [lambdaInvoke] builds [Records[0].body] from [$.Messages[0].Body].
    [retryOnServiceExceptions] is the prop of [LambdaInvoke] of that name:
    when it is on, the state retries the exceptions of the Lambda service
    by itself (see [lambdaServiceRetry]). *)
Inductive Action :=
| updateEventSourceMapping (Uuid : EventSourceMapping) (Enabled : bool)
| receiveMessage (MaxNumberOfMessages : Z)
| deleteMessage
| lambdaInvoke (retryOnServiceExceptions : bool).

(** [resultSelector: { "Messages.$": "$.Messages", Attempt: a, RetryTime: r }] *)
Record ResultSelector := { selAttempt : Z; selRetryTime : Z }.

(** [resultPath]: the default ([$], the result replaces the input) or
    [JsonPath.DISCARD] (the input is passed on unchanged). *)
Inductive ResultPath := RootPath | DISCARD.

(** The argument of [addRetry]. *)
Record RetryProps := { interval : Z; maxAttempts : Z; backoffRate : Z }.

Inductive WaitTime :=
| duration (seconds : Z)      (* WaitTime.duration(Duration.seconds(n)) *)
| secondsPathRetryTime.       (* WaitTime.secondsPath("$.RetryTime") *)

(** The retrier that [LambdaInvoke] adds in its own constructor unless
    [retryOnServiceExceptions] is [false]: it matches the exceptions of the
    Lambda service only ([Lambda.ServiceException],
    [Lambda.AWSLambdaException], [Lambda.SdkClientException],
    [Lambda.ClientExecutionTimeoutException]), not the errors thrown by the
    function. *)
Definition lambdaServiceRetry : RetryProps :=
  {| interval := 2; maxAttempts := 6; backoffRate := 2 |}.

(** The retrier a task has before any [addRetry]. *)
Definition builtinRetry (a : Action) : option RetryProps :=
  match a with
  | lambdaInvoke true => Some lambdaServiceRetry
  | _ => None
  end.

Inductive StateDef :=
| Task (action : Action) (resultSelector : option ResultSelector)
       (resultPath : ResultPath) (retry : option RetryProps)
       (catch : option StateId) (next : option StateId)
| Wait (time : WaitTime) (next : StateId)
| Pass (parameters : Incident -> Incident) (next : StateId)
| Choice (numberLessThanAttempt : Z) (whenTrue : StateId) (otherwise : StateId)
| Fail.

(** [new LambdaInvoke(..., { retryOnServiceExceptions })]: the prop
    defaults to [true]. *)
Definition LambdaInvoke (retryOnServiceExceptions : option bool)
    (resultPath : ResultPath) (catch next : option StateId) : StateDef :=
  Task (lambdaInvoke (match retryOnServiceExceptions with
                      | Some b => b
                      | None => true
                      end))
       None resultPath None catch next.

(* ================================================================== *)
(** ** The construct *)

Record CircuitBreakerLambdaProps := {
  rejitter : bool;
  rejitterInitialBackoffDelay : option Z;
  rejitterDelay : option Z;
  initialBackoffDelay : option Z
}.

(** TypeScript's [a ?? d]. *)
Definition nullish (a : option Z) (d : Z) : Z :=
  match a with Some v => v | None => d end.

Declare Scope cdk_scope.
Notation "a ?? d" := (nullish a d) (at level 40, no associativity) : cdk_scope.
Local Open Scope cdk_scope.

Module CircuitBreakerSQSLambda.

(** [toggleEventSourceMapping]: a [CallAwsService] with neither retry nor
    catch. *)
Definition toggleEventSourceMapping
    (eventSource : EventSourceMapping) (enabled : bool)
    (next : option StateId) : StateDef :=
  Task (updateEventSourceMapping eventSource enabled)
       None RootPath None None next.

(** [performSqsActionTask]. *)
Definition performSqsActionTask (next : option StateId) : StateDef :=
  Task (receiveMessage 1)
       (Some {| selAttempt := 1; selRetryTime := 10 |})
       RootPath
       (Some {| interval := 10; maxAttempts := 5; backoffRate := 2 |})
       None next.

(** [deleteSqsTaskAction]. *)
Definition deleteSqsTaskAction (next : option StateId) : StateDef :=
  Task deleteMessage None RootPath None None next.

(** The [parameters] of the [Pass] state [incrementFailureAndTime]. *)
Definition incrementParameters (i : Incident) : Incident :=
  {| Messages := Messages i;
     Attempt := Attempt i + 1;
     RetryTime := RetryTime i + RetryTime i |}.

Definition backoffDelay (props : CircuitBreakerLambdaProps) : Z :=
  rejitterInitialBackoffDelay props ?? 60.

Definition rejitterRange (props : CircuitBreakerLambdaProps) : Z :=
  rejitterDelay props ?? 120.

Definition defaultTimeout (props : CircuitBreakerLambdaProps) : Z :=
  initialBackoffDelay props ?? 10.

(** The states added by [createRejitterLogic], the last one continuing
    with [next]. *)
Definition createRejitterLogic
    (rejitterInitialBackoffDelay rejitterDelay : Z)
    (next : option StateId) (s : StateId) : option StateDef :=
  match s with
  | enableRejitter =>
      Some (toggleEventSourceMapping rejitterSqsEventSource true
              (Some waitAndDisableJitter))
  | waitAndDisableJitter =>
      Some (Wait (duration rejitterInitialBackoffDelay) disableRejitter)
  | disableRejitter =>
      Some (toggleEventSourceMapping rejitterSqsEventSource false next)
  | _ => None
  end.

(** [new SqsEventSource(sqs, { enabled: false })]: the state in which the
    rejitter mapping is created. *)
Definition rejitterSqsEventSourceCreatedEnabled : bool := false.

(** The constructor: the table of states of
    [DefinitionBody.fromChainable(chain)].  The [catch] of [triggerLambda]
    is the handler given to [addCatch]; the construct does not set
    [retryOnServiceExceptions], so the state keeps the retrier of
    [LambdaInvoke] for the exceptions of the Lambda service. *)
Definition constructor (props : CircuitBreakerLambdaProps)
    (s : StateId) : option StateDef :=
  match s with
  | disableMapping =>
      Some (toggleEventSourceMapping sqsEventSource false (Some waitState))
  | waitState =>
      Some (Wait (duration (defaultTimeout props)) getTesterMessage)
  | getTesterMessage =>
      Some (performSqsActionTask (Some triggerLambda))
  | triggerLambda =>
      Some (LambdaInvoke None DISCARD
              (Some incrementFailureAndTime) (Some deleteMessageSqs))
  | incrementFailureAndTime =>
      Some (Pass incrementParameters exceededRetryChoice)
  | exceededRetryChoice =>
      Some (Choice 10 waitAndRetry exceededRetryAttempts)
  | waitAndRetry =>
      Some (Wait secondsPathRetryTime triggerLambda)
  | exceededRetryAttempts => Some Fail
  | deleteMessageSqs =>
      Some (deleteSqsTaskAction
              (Some (if rejitter props then enableRejitter
                     else enabledMapping)))
  | enableRejitter | waitAndDisableJitter | disableRejitter =>
      if rejitter props
      then createRejitterLogic (backoffDelay props) (rejitterRange props)
             (Some enabledMapping) s
      else None
  | enabledMapping =>
      Some (toggleEventSourceMapping sqsEventSource true None)
  end.

(** [Chain.start(disableMapping)]. *)
Definition startState : StateId := disableMapping.

End CircuitBreakerSQSLambda.

(* ================================================================== *)
(** ** The outside world

    The services are seen through their answers only.  A call on a
    mapping changes the mapping's state when it succeeds and leaves it
    alone when it fails. *)

(** Outcomes of the external calls, indexed by how many calls of the same
    kind the execution has made before.  [queueAt k] is what the queue holds
    (visible messages, in delivery order) at the [k]-th [receiveMessage]
    call, or [None] when that call fails; [workerOk k body] tells whether
    the [k]-th invocation that reaches the protected function, on a record
    with that body, returns normally (it fails when the function throws,
    or with any other error that is no exception of the Lambda service;
    those exceptions are described apart, by [LambdaFaults]). *)
Record World := {
  mappingCallOk : nat -> bool;
  queueAt : nat -> option (list Message);
  workerOk : nat -> string -> bool;
  deleteOk : nat -> bool
}.

(** What an execution does, in the order it does it.  [EInvoke b ok] is
    an invocation that reached the function, which returned ([ok]) or
    threw; [EInvokeFault b] is an invocation that ended in an exception of
    the Lambda service. *)
Inductive Event :=
| EToggle (m : EventSourceMapping) (enabled : bool) (ok : bool)
| EReceive (result : option (list Message))
| EInvoke (body : string) (ok : bool)
| EInvokeFault (body : string)
| EDelete (handle : string) (ok : bool)
| EWait (seconds : Z)
| ERetryWait (seconds : Z).

Definition isToggle (e : Event) : bool :=
  match e with EToggle _ _ _ => true | _ => false end.
Definition isReceive (e : Event) : bool :=
  match e with EReceive _ => true | _ => false end.
Definition isInvoke (e : Event) : bool :=
  match e with EInvoke _ _ => true | _ => false end.
Definition isDelete (e : Event) : bool :=
  match e with EDelete _ _ => true | _ => false end.
Definition isInvokeFault (e : Event) : bool :=
  match e with EInvokeFault _ => true | _ => false end.
(** Every call of the Lambda [Invoke] API, whatever its outcome. *)
Definition isInvokeAttempt (e : Event) : bool :=
  match e with EInvoke _ _ | EInvokeFault _ => true | _ => false end.

Definition count (p : Event -> bool) (tr : list Event) : nat :=
  List.length (List.filter p tr).

(** SQS [receiveMessage]: at most [MaxNumberOfMessages] of the visible
    messages. *)
Definition sqsReceive (visible : list Message) (MaxNumberOfMessages : Z)
  : list Message :=
  firstn (Z.to_nat MaxNumberOfMessages) visible.

(* ================================================================== *)
(** ** Executions *)

Inductive Control := At (s : StateId) | Succeeded | Failed.

(** A checkpoint of an execution.  [trace] has the newest event first;
    [retried] counts the retries already made by the current task state. *)
Record Config := {
  control : Control;
  data : Json;
  retried : nat;
  trace : list Event;
  consumerEnabled : bool;
  rejitterEnabled : bool
}.

Definition history (c : Config) : list Event := rev (trace c).

Definition start (consumer rejit : bool) : Config :=
  {| control := At CircuitBreakerSQSLambda.startState;
     data := JOther; retried := 0; trace := [];
     consumerEnabled := consumer; rejitterEnabled := rejit |}.

Definition failWith (c : Config) : Config :=
  {| control := Failed; data := data c; retried := 0; trace := trace c;
     consumerEnabled := consumerEnabled c;
     rejitterEnabled := rejitterEnabled c |}.

Definition log (e : Event) (c : Config) : Config :=
  {| control := control c; data := data c; retried := retried c;
     trace := e :: trace c;
     consumerEnabled := consumerEnabled c;
     rejitterEnabled := rejitterEnabled c |}.

Definition setData (j : Json) (c : Config) : Config :=
  {| control := control c; data := j; retried := retried c;
     trace := trace c;
     consumerEnabled := consumerEnabled c;
     rejitterEnabled := rejitterEnabled c |}.

Definition setMapping (m : EventSourceMapping) (b : bool) (c : Config)
  : Config :=
  {| control := control c; data := data c; retried := retried c;
     trace := trace c;
     consumerEnabled :=
       match m with sqsEventSource => b | _ => consumerEnabled c end;
     rejitterEnabled :=
       match m with rejitterSqsEventSource => b | _ => rejitterEnabled c end |}.

(** Transition to the next state, or success when the state ends the
    workflow. *)
Definition goto (next : option StateId) (c : Config) : Config :=
  {| control := match next with Some s => At s | None => Succeeded end;
     data := data c; retried := 0; trace := trace c;
     consumerEnabled := consumerEnabled c;
     rejitterEnabled := rejitterEnabled c |}.

Definition retryAgain (c : Config) : Config :=
  {| control := control c; data := data c; retried := S (retried c);
     trace := trace c;
     consumerEnabled := consumerEnabled c;
     rejitterEnabled := rejitterEnabled c |}.

(** [$.Messages[0]]. *)
Definition firstMessage (j : Json) : option Message :=
  match j with
  | JIncident i => nth_error (Messages i) 0
  | _ => None
  end.

(** The answer of a call: a response, or an error, which is either an
    exception of the Lambda service or any other error. *)
Inductive Answer := Returned (response : Json) | Raised (lambdaService : bool).

(** [faults k] tells whether the [k]-th call of the Lambda [Invoke] API
    made by the execution ends in an exception of the Lambda service, the
    function's own outcome then being left aside. *)
Definition LambdaFaults := nat -> bool.

Definition noLambdaFault : LambdaFaults := fun _ => false.

(** The result of one call of a task's action: [None] when the task's
    parameters cannot be built from the input (a runtime error, which no
    retrier or catcher handles); otherwise the configuration after the call
    and the answer. *)
Definition perform (faults : LambdaFaults) (a : Action) (w : World)
    (c : Config) : option (Config * Answer) :=
  match a with
  | updateEventSourceMapping m enabled =>
      let ok := mappingCallOk w (count isToggle (trace c)) in
      let c' := log (EToggle m enabled ok) c in
      Some (if ok then (setMapping m enabled c', Returned JOther)
            else (c', Raised false))
  | receiveMessage n =>
      let r := option_map (fun q => sqsReceive q n)
                 (queueAt w (count isReceive (trace c))) in
      Some (log (EReceive r) c,
            match r with
            | Some msgs => Returned (JReceived msgs)
            | None => Raised false
            end)
  | deleteMessage =>
      match firstMessage (data c) with
      | None => None
      | Some m =>
          let ok := deleteOk w (count isDelete (trace c)) in
          Some (log (EDelete (ReceiptHandle m) ok) c,
                if ok then Returned JOther else Raised false)
      end
  | lambdaInvoke _ =>
      match firstMessage (data c) with
      | None => None
      | Some m =>
          if faults (count isInvokeAttempt (trace c))
          then Some (log (EInvokeFault (Body m)) c, Raised true)
          else
            let ok := workerOk w (count isInvoke (trace c)) (Body m) in
            Some (log (EInvoke (Body m) ok) c,
                  if ok then Returned JOther else Raised false)
      end
  end.

(** The retrier that handles an error of a task: the task's own retrier
    for the exceptions it matches, then the one given to [addRetry], which
    names no error and so matches them all.  (No state of the construct
    has both, so one counter of retries serves.) *)
Definition retrierFor (a : Action) (retry : option RetryProps)
    (lambdaService : bool) : option RetryProps :=
  match (if lambdaService then builtinRetry a else None) with
  | Some r => Some r
  | None => retry
  end.

(** The effective output of a successful task. *)
Definition taskOutput (sel : option ResultSelector) (p : ResultPath)
    (input result : Json) : option Json :=
  match p with
  | DISCARD => Some input
  | RootPath =>
      match sel with
      | None => Some result
      | Some r =>
          match result with
          | JReceived msgs =>
              Some (JIncident {| Messages := msgs;
                                 Attempt := selAttempt r;
                                 RetryTime := selRetryTime r |})
          | _ => None
          end
      end
  end.

(** The wait before the retry that follows [k] earlier retries. *)
Definition retryInterval (r : RetryProps) (k : nat) : Z :=
  interval r * backoffRate r ^ Z.of_nat k.

Definition waitSeconds (t : WaitTime) (j : Json) : option Z :=
  match t with
  | duration n => Some n
  | secondsPathRetryTime =>
      match j with JIncident i => Some (RetryTime i) | _ => None end
  end.

(** One step of the workflow: one state entered and left, or one retry of
    a task.  A task whose call fails is retried while the retrier matching
    the error allows ([maxAttempts] bounds the number of retries), then
    handed to its catcher (whose [resultPath] is [DISCARD]: the handler
    receives the task's input), and fails the execution when it has
    neither.  A state whose input lacks a path it reads fails the
    execution: no retrier and no catcher handles that error.
    [States.MathAdd] is addition on integers; the numbers of an execution
    stay far below its limits. *)
Definition stepWith (faults : LambdaFaults)
    (def : StateId -> option StateDef) (w : World) (c : Config) : Config :=
  match control c with
  | Succeeded | Failed => c
  | At s =>
      match def s with
      | None => failWith c
      | Some Fail => failWith c
      | Some (Wait t next) =>
          match waitSeconds t (data c) with
          | Some n => goto (Some next) (log (EWait n) c)
          | None => failWith c
          end
      | Some (Pass parameters next) =>
          match data c with
          | JIncident i => goto (Some next) (setData (JIncident (parameters i)) c)
          | _ => failWith c
          end
      | Some (Choice bound whenTrue otherwise) =>
          match data c with
          | JIncident i =>
              goto (Some (if Attempt i <? bound then whenTrue else otherwise)) c
          | _ => failWith c
          end
      | Some (Task a sel p retry catch next) =>
          match perform faults a w c with
          | None => failWith c
          | Some (c', Returned result) =>
              match taskOutput sel p (data c) result with
              | Some out => goto next (setData out c')
              | None => failWith c'
              end
          | Some (c', Raised lambdaService) =>
              let handle :=
                match catch with
                | Some h => goto (Some h) c'
                | None => failWith c'
                end in
              match retrierFor a retry lambdaService with
              | Some r =>
                  if (Z.of_nat (retried c) <? maxAttempts r)
                  then retryAgain (log (ERetryWait (retryInterval r (retried c))) c')
                  else handle
              | None => handle
              end
          end
      end
  end.

Fixpoint runWith (faults : LambdaFaults) (def : StateId -> option StateDef)
    (w : World) (fuel : nat) (c : Config) : Config :=
  match fuel with
  | O => c
  | S n => runWith faults def w n (stepWith faults def w c)
  end.

(** The steps of an execution in which the Lambda service raises no
    exception: the probe's failures are then those of the function. *)
Definition step (def : StateId -> option StateDef) (w : World) (c : Config)
  : Config :=
  stepWith noLambdaFault def w c.

Fixpoint run (def : StateId -> option StateDef) (w : World) (fuel : nat)
    (c : Config) : Config :=
  match fuel with
  | O => c
  | S n => run def w n (step def w c)
  end.

Definition terminal (c : Config) : bool :=
  match control c with At _ => false | _ => true end.

(** The execution of the workflow built from [props], observed after
    [n] steps, started with the two mappings in the given states. *)
Definition executionWith (faults : LambdaFaults)
    (props : CircuitBreakerLambdaProps) (w : World)
    (consumer rejit : bool) (n : nat) : Config :=
  runWith faults (CircuitBreakerSQSLambda.constructor props) w n
    (start consumer rejit).

(** The same, when the Lambda service raises no exception. *)
Definition execution (props : CircuitBreakerLambdaProps) (w : World)
    (consumer rejit : bool) (n : nat) : Config :=
  run (CircuitBreakerSQSLambda.constructor props) w n (start consumer rejit).

(* ================================================================== *)
(** ** The rejitter Lambda ([rejitter-sqs-lambda.ts]) *)

Module RejitterLambda.

(** [n.toString()] for an integer [n]. *)
Definition toString (n : Z) : string := NilZero.string_of_int (Z.to_int n).

(** [Number(x)] for [x] read from [process.env]: [undefined] and strings
    that are not decimal integers give [NaN], written [None].  (The
    strings the construct stores are produced by [toString].) *)
Definition Number (x : option string) : option Z :=
  match x with
  | None => None
  | Some s => option_map Z.of_int (NilZero.int_of_string s)
  end.

(** [process.env], as set by the [environment] of [createRejitterLogic]. *)
Definition environment (queueUrl : string)
    (rejitterInitialBackoffDelay rejitterDelay : Z)
    (name : string) : option string :=
  if String.eqb name "QUEUE_URL" then Some queueUrl
  else if String.eqb name "INITIAL_DELAY"
       then Some (toString rejitterInitialBackoffDelay)
  else if String.eqb name "JITTER_DELAY" then Some (toString rejitterDelay)
  else None.

Record SQSRecord := { body : string }.

Record SendMessageRequest := {
  QueueUrl : option string;
  MessageBody : string;
  DelaySeconds : option Z
}.

Section Handler.

(** Rounding of a product to a double.  [Math.random()] and the integer
    [JITTER_DELAY - 1] are doubles, and so rationals; their product is
    rounded.  Only two facts about rounding are used. *)
Variable fl : Q -> Q.

Variable env : string -> option string.

(** [Math.random()]: the value returned by the [k]-th call, a number
    in $[0,1)$. *)
Variable random : nat -> Q.

(** [Number(INITIAL_DELAY) + Math.floor(Math.random() * (Number(JITTER_DELAY) - 1))] *)
Definition delay (k : nat) : option Z :=
  match Number (env "INITIAL_DELAY"), Number (env "JITTER_DELAY") with
  | Some i, Some j => Some (i + Qfloor (fl (random k * inject_Z (j - 1))))
  | _, _ => None
  end.

(** [messages.map(...)], the callback drawing one random number per
    record, in order; [k] is the number of records already mapped. *)
Fixpoint sendAll (k : nat) (messages : list SQSRecord)
  : list SendMessageRequest :=
  match messages with
  | [] => []
  | sqsRecord :: rest =>
      {| QueueUrl := env "QUEUE_URL";
         MessageBody := body sqsRecord;
         DelaySeconds := delay k |} :: sendAll (S k) rest
  end.

(** The [sendMessage] calls made for one event. *)
Definition handler (event : list SQSRecord) : list SendMessageRequest :=
  sendAll 0 event.

End Handler.

End RejitterLambda.

(** The environment of the rejitter Lambda created by the construct. *)
Definition rejitterEnvironment (queueUrl : string)
    (props : CircuitBreakerLambdaProps) : string -> option string :=
  RejitterLambda.environment queueUrl
    (CircuitBreakerSQSLambda.backoffDelay props)
    (CircuitBreakerSQSLambda.rejitterRange props).

(* ================================================================== *)
(** ** Views of a history *)

(** The seconds of the [Wait] states, in order. *)
Fixpoint waits (h : list Event) : list Z :=
  match h with
  | [] => []
  | EWait n :: t => n :: waits t
  | _ :: t => waits t
  end.

(** The part of a history that follows the first invocation of the
    protected function: the retry loop. *)
Fixpoint afterFirstInvoke (h : list Event) : list Event :=
  match h with
  | [] => []
  | EInvoke _ _ :: t => t
  | _ :: t => afterFirstInvoke t
  end.

(** The bodies handed to the protected function, in order. *)
Fixpoint invokedBodies (h : list Event) : list string :=
  match h with
  | [] => []
  | EInvoke b _ :: t => b :: invokedBodies t
  | _ :: t => invokedBodies t
  end.

(** The waits made by the retrier of a task. *)
Fixpoint retryWaits (h : list Event) : list Z :=
  match h with
  | [] => []
  | ERetryWait n :: t => n :: retryWaits t
  | _ :: t => retryWaits t
  end.

Definition defaults (rejit : bool) : CircuitBreakerLambdaProps :=
  {| rejitter := rejit; rejitterInitialBackoffDelay := None;
     rejitterDelay := None; initialBackoffDelay := None |}.

(** A world in which every call succeeds except the protected function,
    which always fails; the queue holds [q]. *)
Definition workerAlwaysFails (q : list Message) : World :=
  {| mappingCallOk := fun _ => true;
     queueAt := fun _ => Some q;
     workerOk := fun _ _ => false;
     deleteOk := fun _ => true |}.

(* ================================================================== *)
(** ** Measures and invariants used in the proofs *)

(** Probes that a retry loop whose counter stands at [a] may still add. *)
Definition cyclesLeft (a : Z) : nat := Z.to_nat (10 - a).

Definition attemptOf (j : Json) : Z :=
  match j with JIncident i => Attempt i | _ => 0 end.

(** An upper bound on the number of steps an execution still takes. *)
Definition stepsLeft (c : Config) : nat :=
  match control c with
  | Succeeded | Failed => 0
  | At s =>
      let a := attemptOf (data c) in
      match s with
      | disableMapping => 78
      | waitState => 77
      | getTesterMessage => 71 + (5 - retried c)
      | triggerLambda => 8 * cyclesLeft (a + 1) + 6
      | incrementFailureAndTime => 8 * cyclesLeft (a + 1) + 5
      | exceededRetryChoice => 8 * cyclesLeft a + 4
      | waitAndRetry => 8 * cyclesLeft (a + 1) + 7
      | exceededRetryAttempts => 1
      | deleteMessageSqs => 5
      | enableRejitter => 4
      | waitAndDisableJitter => 3
      | disableRejitter => 2
      | enabledMapping => 1
      end
  end%nat.

(** The retry time after [k] failed probes, and what [k] failed probes on
    the body [b] leave in the trace (newest first). *)
Definition backoff (k : nat) : Z := 10 * 2 ^ Z.of_nat k.

Fixpoint failedProbes (b : string) (k : nat) : list Event :=
  match k with
  | O => []
  | S k' => EWait (backoff k) :: EInvoke b false :: failedProbes b k'
  end.

Definition retryTimeOf (j : Json) : Z :=
  match j with JIncident i => RetryTime i | _ => 0 end.

(** The most recent [Wait] of a trace. *)
Fixpoint lastWait (tr : list Event) : option Z :=
  match tr with
  | [] => None
  | EWait n :: _ => Some n
  | _ :: t => lastWait t
  end.

(** For each probe of a trace, the wait that preceded it (newest first). *)
Fixpoint probeWaits (tr : list Event) : list (option Z) :=
  match tr with
  | [] => []
  | EInvoke _ _ :: t => lastWait t :: probeWaits t
  | _ :: t => probeWaits t
  end.

(** The wait before the probe that follows [k] failed ones: the fixed
    wait of [waitState] for the first, the doubled retry time after. *)
Definition waitBefore (T : Z) (k : nat) : Z :=
  match k with O => T | S _ => backoff k end.

Fixpoint expectedWaits (T : Z) (n : nat) : list (option Z) :=
  match n with
  | O => []
  | S k => Some (waitBefore T k) :: expectedWaits T k
  end.

Definition loopInv (props : CircuitBreakerLambdaProps) (c : Config) : Prop :=
  let T := CircuitBreakerSQSLambda.defaultTimeout props in
  let n := count isInvoke (trace c) in
  probeWaits (trace c) = expectedWaits T n /\
  match control c with
  | At disableMapping | At waitState => n = 0%nat /\ lastWait (trace c) = None
  | At getTesterMessage => n = 0%nat /\ lastWait (trace c) = Some T
  | At triggerLambda =>
      attemptOf (data c) = Z.of_nat n + 1 /\ (n + 1 <= 9)%nat /\
      retryTimeOf (data c) = backoff n /\
      lastWait (trace c) = Some (waitBefore T n)
  | At incrementFailureAndTime =>
      attemptOf (data c) = Z.of_nat n /\ (1 <= n <= 9)%nat /\
      retryTimeOf (data c) = backoff (Nat.pred n)
  | At exceededRetryChoice =>
      attemptOf (data c) = Z.of_nat n + 1 /\ (1 <= n <= 9)%nat /\
      retryTimeOf (data c) = backoff n
  | At waitAndRetry =>
      attemptOf (data c) = Z.of_nat n + 1 /\ (1 <= n /\ n + 1 <= 9)%nat /\
      retryTimeOf (data c) = backoff n
  | _ => (n <= 9)%nat
  end.

(** A probe message and the worlds of the scenarios. *)
Definition probeMessage : Message :=
  {| Body := "order-1"; ReceiptHandle := "handle-1" |}.


(** Calls on the two mappings, by target, direction and outcome. *)
Definition isDisableCall (e : Event) : bool :=
  match e with EToggle sqsEventSource false _ => true | _ => false end.
Definition isDisableOk (e : Event) : bool :=
  match e with EToggle sqsEventSource false true => true | _ => false end.
Definition isEnableCall (e : Event) : bool :=
  match e with EToggle sqsEventSource true _ => true | _ => false end.
Definition isEnableOk (e : Event) : bool :=
  match e with EToggle sqsEventSource true true => true | _ => false end.
Definition isRejitterOn (e : Event) : bool :=
  match e with EToggle rejitterSqsEventSource true true => true | _ => false end.
Definition isRejitterOff (e : Event) : bool :=
  match e with EToggle rejitterSqsEventSource false true => true | _ => false end.

(** The states that follow the deletion of the probe message. *)
Definition afterDelete (s : StateId) : bool :=
  match s with
  | enableRejitter | waitAndDisableJitter | disableRejitter
  | enabledMapping => true
  | _ => false
  end.

Definition rejitterDone (props : CircuitBreakerLambdaProps) : nat :=
  if rejitter props then 1%nat else 0%nat.

(** The consumer's gate along an execution started with the gate in state
    [g0]. *)
Definition gateInv (props : CircuitBreakerLambdaProps) (g0 : bool)
    (c : Config) : Prop :=
  let tr := trace c in
  match control c with
  | At disableMapping => tr = [] /\ consumerEnabled c = g0
  | At s =>
      count isDisableCall tr = 1%nat /\ count isDisableOk tr = 1%nat /\
      count isEnableCall tr = 0%nat /\ count isEnableOk tr = 0%nat /\
      consumerEnabled c = false /\
      count isDelete tr = (if afterDelete s then 1 else 0)%nat /\
      count isRejitterOff tr =
        match s with enabledMapping => rejitterDone props | _ => 0%nat end
  | Succeeded =>
      count isDisableCall tr = 1%nat /\ count isDisableOk tr = 1%nat /\
      count isEnableCall tr = 1%nat /\ count isEnableOk tr = 1%nat /\
      consumerEnabled c = true /\
      count isDelete tr = 1%nat /\
      count isRejitterOff tr = rejitterDone props /\
      exists tr', tr = EToggle sqsEventSource true true :: tr'
  | Failed =>
      count isDisableCall tr = 1%nat /\ count isEnableOk tr = 0%nat /\
      (count isDelete tr <= 1)%nat /\
      (count isDisableOk tr = 0%nat ->
       tr = [EToggle sqsEventSource false false] /\ consumerEnabled c = g0) /\
      (count isDisableOk tr <> 0%nat -> consumerEnabled c = false) /\
      (count isEnableCall tr = 0%nat \/
       (count isEnableCall tr = 1%nat /\ count isDelete tr = 1%nat /\
        count isRejitterOff tr = rejitterDone props /\
        exists tr', tr = EToggle sqsEventSource true false :: tr'))
  end.

(** The rejitter mapping along an execution that finds it as it was
    created. *)
Definition rejitInv (c : Config) : Prop :=
  let tr := trace c in
  match control c with
  | At waitAndDisableJitter | At disableRejitter =>
      rejitterEnabled c = true /\
      count isRejitterOn tr = 1%nat /\ count isRejitterOff tr = 0%nat
  | At enabledMapping | Succeeded => rejitterEnabled c = false
  | Failed =>
      rejitterEnabled c = true ->
      count isRejitterOn tr = 1%nat /\ count isRejitterOff tr = 0%nat
  | At _ =>
      rejitterEnabled c = false /\
      count isRejitterOn tr = 0%nat /\ count isRejitterOff tr = 0%nat
  end.

(** The retrier attached by [performSqsActionTask]. *)
Definition fetchRetry : RetryProps :=
  {| interval := 10; maxAttempts := 5; backoffRate := 2 |}.

(** The retrier's waits after [k] retries (newest first). *)
Fixpoint expectedRetryWaits (k : nat) : list Z :=
  match k with
  | O => []
  | S j => retryInterval fetchRetry j :: expectedRetryWaits j
  end.

Definition receivedAtMostOne (e : Event) : bool :=
  match e with
  | EReceive (Some l) => (List.length l <=? 1)%nat
  | _ => true
  end.

(** The fetch and its retrier along an execution. *)
Definition transportInv (c : Config) : Prop :=
  let tr := trace c in
  forallb receivedAtMostOne tr = true /\
  match control c with
  | At disableMapping | At waitState =>
      count isReceive tr = 0%nat /\ retryWaits tr = []
  | At getTesterMessage =>
      (retried c <= 5)%nat /\
      retryWaits tr = expectedRetryWaits (retried c) /\
      count isReceive tr = retried c
  | _ =>
      exists k, (k <= 5)%nat /\ retryWaits tr = expectedRetryWaits k /\
                (count isReceive tr <= S k)%nat
  end.

(** The messages of the most recent successful fetch of a trace, and the
    unit it designates for the probe. *)
Fixpoint lastReceived (tr : list Event) : option (list Message) :=
  match tr with
  | [] => None
  | EReceive (Some l) :: _ => Some l
  | _ :: t => lastReceived t
  end.

Definition fetchedUnit (tr : list Event) : option Message :=
  match lastReceived tr with
  | Some l => nth_error l 0
  | None => None
  end.

(** Every invocation was made on the body of the fetched unit. *)
Definition sameUnit (tr : list Event) : Prop :=
  Forall (fun b => option_map Body (fetchedUnit tr) = Some b)
         (invokedBodies tr).

(** No fetch was made after an invocation (the trace is newest first). *)
Fixpoint fetchFirst (tr : list Event) : Prop :=
  match tr with
  | [] => True
  | EReceive _ :: t => invokedBodies t = [] /\ fetchFirst t
  | _ :: t => fetchFirst t
  end.

(** The probe unit along an execution. *)
Definition unitInv (c : Config) : Prop :=
  let tr := trace c in
  sameUnit tr /\ fetchFirst tr /\
  match control c with
  | At disableMapping | At waitState | At getTesterMessage =>
      invokedBodies tr = []
  | At triggerLambda | At incrementFailureAndTime | At exceededRetryChoice
  | At waitAndRetry =>
      firstMessage (data c) = fetchedUnit tr
  | _ => True
  end.

(** Inputs of the worked examples of the rejitter Lambda: exact products,
    every draw one half. *)
Definition exactProduct (x : Q) : Q := x.

Definition drawHalf (k : nat) : Q := 1 # 2.

(** Scenario A: default props, every call succeeds, the protected function
    never recovers, the queue holds one message. *)
Definition scenarioA : Config :=
  execution (defaults false) (workerAlwaysFails [probeMessage]) true false 78.

(** The trace (newest first) began with the call that disables the
    consumer's mapping. *)
Definition beginsWithDisable (tr : list Event) : Prop :=
  exists ok tr', tr = tr' ++ [EToggle sqsEventSource false ok].

Definition firstInv (c : Config) : Prop :=
  match control c with
  | At disableMapping => trace c = []
  | _ => beginsWithDisable (trace c)
  end.

(** Scenario D: the call that disables the consumer's mapping fails. *)
Definition disableFails : World :=
  {| mappingCallOk := fun _ => false;
     queueAt := fun _ => Some [probeMessage];
     workerOk := fun _ _ => true;
     deleteOk := fun _ => true |}.

(** A world in which everything succeeds at once. *)
Definition allGood : World :=
  {| mappingCallOk := fun _ => true;
     queueAt := fun _ => Some [probeMessage];
     workerOk := fun _ _ => true;
     deleteOk := fun _ => true |}.

(** Everything succeeds but the deletion of the probe message. *)
Definition deleteFails : World :=
  {| mappingCallOk := fun _ => true;
     queueAt := fun _ => Some [probeMessage];
     workerOk := fun _ _ => true;
     deleteOk := fun _ => false |}.

(** Everything succeeds but the last call on a mapping, the one that
    enables the consumer's mapping again (the second call when the
    rejitter stage is off). *)
Definition enableFails : World :=
  {| mappingCallOk := fun k => (k <? 1)%nat;
     queueAt := fun _ => Some [probeMessage];
     workerOk := fun _ _ => true;
     deleteOk := fun _ => true |}.

(** The fetch fails twice before it returns the message; the worker fails
    once. *)
Definition flakyFetch : World :=
  {| mappingCallOk := fun _ => true;
     queueAt := fun k => if (k <? 2)%nat then None
                         else Some [probeMessage; probeMessage];
     workerOk := fun k _ => (1 <=? k)%nat;
     deleteOk := fun _ => true |}.

(** The failed calls that no retrier and no catcher handles. *)
Definition isFatal (e : Event) : bool :=
  match e with
  | EToggle _ _ false | EDelete _ false => true
  | _ => false
  end.

Definition fatalInv (c : Config) : Prop :=
  control c = Failed \/ count isFatal (trace c) = 0%nat.

(** The worker fails three times and then recovers; the queue holds two
    messages. *)
Definition recoversAtFourth : World :=
  {| mappingCallOk := fun _ => true;
     queueAt := fun _ => Some [probeMessage;
                               {| Body := "order-2";
                                  ReceiptHandle := "handle-2" |}];
     workerOk := fun k _ => (3 <=? k)%nat;
     deleteOk := fun _ => true |}.

(** The configuration in which the probe is about to be made for the
    first time, in the execution of scenario A. *)
Definition firstProbe : Config :=
  execution (defaults false) (workerAlwaysFails [probeMessage]) true false 3.

(** Props with an initial backoff delay of 30 seconds. *)
Definition delay30 : CircuitBreakerLambdaProps :=
  {| rejitter := false; rejitterInitialBackoffDelay := None;
     rejitterDelay := None; initialBackoffDelay := Some 30 |}.

(** The configuration in which the rejitter stage is about to start, in
    the execution where everything succeeds at once. *)
Definition beforeRejitter : Config :=
  execution (defaults true) allGood true false 5.

(* ================================================================== *)
(** ** Further scenarios *)

(** The queue is empty when the probe message is fetched. *)
Definition emptyQueue : World :=
  {| mappingCallOk := fun _ => true;
     queueAt := fun _ => Some [];
     workerOk := fun _ _ => true;
     deleteOk := fun _ => true |}.

(** The queue cannot be reached at all. *)
Definition queueDown : World :=
  {| mappingCallOk := fun _ => true;
     queueAt := fun _ => None;
     workerOk := fun _ _ => true;
     deleteOk := fun _ => true |}.

(** What the rejitter stage leaves in the trace (newest first) when it
    runs to its end. *)
Definition rejitterPart (props : CircuitBreakerLambdaProps) : list Event :=
  if rejitter props
  then [EToggle rejitterSqsEventSource false true;
        EWait (CircuitBreakerSQSLambda.backoffDelay props);
        EToggle rejitterSqsEventSource true true]
  else [].

(** The trace (newest first) of an execution in which every call
    succeeds and the worker recovers after [k] failed probes on the
    message [m]. *)
Definition recoveredTrace (props : CircuitBreakerLambdaProps)
    (m : Message) (k : nat) : list Event :=
  EToggle sqsEventSource true true
  :: rejitterPart props
  ++ EDelete (ReceiptHandle m) true
  :: EInvoke (Body m) true
  :: failedProbes (Body m) k
  ++ [EReceive (Some [m]);
      EWait (CircuitBreakerSQSLambda.defaultTimeout props);
      EToggle sqsEventSource false true].

(* ================================================================== *)
(** ** The example function ([example/handler.ts]) *)

Module ExampleHandler.

(** [process.env["SHOULD_ERROR"] === "true"] *)
Definition shouldError (env : string -> option string) : bool :=
  match env "SHOULD_ERROR"%string with
  | Some v => String.eqb v "true"
  | None => false
  end.

(** The promise returned by the handler: resolved, or rejected with the
    message of the error thrown. *)
Inductive Settled := resolved | rejected (message : string).

(** The handler; [event] is the list of the bodies of [event.Records]. *)
Definition handler (env : string -> option string) (event : list string)
  : Settled :=
  if shouldError env then rejected "Purposely Error" else resolved.

End ExampleHandler.

(** The world in which the protected function is the example handler,
    its environment at the [k]-th invocation being [envAt k]; the probe
    hands it one record, with the body of the probe message. *)
Definition protectingExample (envAt : nat -> string -> option string)
    (services : World) : World :=
  {| mappingCallOk := mappingCallOk services;
     queueAt := queueAt services;
     workerOk := fun k body =>
       match ExampleHandler.handler (envAt k) [body] with
       | ExampleHandler.resolved => true
       | ExampleHandler.rejected _ => false
       end;
     deleteOk := deleteOk services |}.


Definition switchedOffAfter (k : nat) (j : nat) (name : string)
  : option string :=
  if String.eqb name "SHOULD_ERROR"
  then Some (if (j <? k)%nat then "true" else "false")%string
  else None.

(* ================================================================== *)
(** ** Further invariants *)









Definition totalSeconds (l : list Z) : Z := fold_right Z.add 0 l.

(** The incident object, wherever the state data is one. *)
Definition dataInv (c : Config) : Prop :=
  match data c with
  | JIncident i =>
      exists k, (k <= 9)%nat /\ Attempt i = Z.of_nat k + 1 /\
                RetryTime i = backoff k
  | _ => True
  end.

(** The seconds of the rejitter stage's wait, when there is one. *)
Definition rejitterSeconds (props : CircuitBreakerLambdaProps) : Z :=
  if rejitter props then CircuitBreakerSQSLambda.backoffDelay props else 0.

(** The seconds spent in [Wait] states so far, by control point. *)
Definition timeInv (props : CircuitBreakerLambdaProps) (c : Config) : Prop :=
  let T := CircuitBreakerSQSLambda.defaultTimeout props in
  let n := count isInvoke (trace c) in
  let W := totalSeconds (waits (trace c)) in
  match control c with
  | At disableMapping | At waitState => W = 0
  | At getTesterMessage => W = T
  | At triggerLambda => W = T + 2 * backoff n - 20
  | At disableRejitter =>
      (1 <= n)%nat /\ rejitter props = true /\
      W = T + backoff n - 20 + rejitterSeconds props
  | At enabledMapping | Succeeded =>
      (1 <= n)%nat /\ W = T + backoff n - 20 + rejitterSeconds props
  | At _ => (1 <= n)%nat /\ W = T + backoff n - 20
  | Failed =>
      W = 0 \/ W = T \/
      ((n <= 8)%nat /\ W = T + 2 * backoff n - 20) \/
      ((1 <= n)%nat /\ W = T + backoff n - 20) \/
      ((1 <= n)%nat /\ W = T + backoff n - 20 + rejitterSeconds props)
  end.

(** Inputs of further worked examples of the rejitter Lambda: an
    environment without [INITIAL_DELAY], props with a window of one
    second, and draws close to one. *)
Definition withoutInitialDelay (name : string) : option string :=
  if String.eqb name "QUEUE_URL" then Some "https://sqs/queue"%string
  else if String.eqb name "JITTER_DELAY" then Some "120"%string
  else None.

Definition windowOfOne : CircuitBreakerLambdaProps :=
  {| rejitter := true; rejitterInitialBackoffDelay := Some 45;
     rejitterDelay := Some 1; initialBackoffDelay := None |}.

Definition drawHigh (k : nat) : Q := 999 # 1000.

Definition isRejitterOffFailed (e : Event) : bool :=
  match e with
  | EToggle rejitterSqsEventSource false false => true
  | _ => false
  end.

(** What a failed call to switch the rejitter stage off leaves behind. *)
Definition stuckInv (c : Config) : Prop :=
  let k := count isRejitterOffFailed (trace c) in
  match control c with
  | At disableMapping | At enabledMapping | Succeeded => k = 0%nat
  | At waitAndDisableJitter | At disableRejitter =>
      k = 0%nat /\ consumerEnabled c = false /\ rejitterEnabled c = true
  | At _ => k = 0%nat /\ consumerEnabled c = false
  | Failed =>
      k = 0%nat \/ (consumerEnabled c = false /\ rejitterEnabled c = true)
  end.

(** Everything succeeds but the call that switches the rejitter stage
    off (the third call on a mapping). *)
Definition rejitterOffFails : World :=
  {| mappingCallOk := fun k => (k <? 2)%nat;
     queueAt := fun _ => Some [probeMessage];
     workerOk := fun _ _ => true;
     deleteOk := fun _ => true |}.

(* ================================================================== *)
(** ** Executions in which the Lambda service raises exceptions *)

(** An upper bound on the number of steps an execution still takes, the
    retries made by the probe's own retrier included. *)
Definition stepsLeftWith (c : Config) : nat :=
  match control c with
  | Succeeded | Failed => 0
  | At s =>
      let a := attemptOf (data c) in
      match s with
      | disableMapping => 100
      | waitState => 99
      | getTesterMessage => 93 + (5 - retried c)
      | triggerLambda => 10 * cyclesLeft (a + 1) + 6 + (6 - retried c)
      | incrementFailureAndTime => 10 * cyclesLeft (a + 1) + 5
      | exceededRetryChoice => 10 * cyclesLeft a + 4
      | waitAndRetry => 10 * cyclesLeft (a + 1) + 13
      | exceededRetryAttempts => 1
      | deleteMessageSqs => 5
      | enableRejitter => 4
      | waitAndDisableJitter => 3
      | disableRejitter => 2
      | enabledMapping => 1
      end
  end%nat.

(** The seconds of the first [n] waits made in [Wait] states before the
    probe message is deleted (newest first). *)
Fixpoint expectedLoopWaits (T : Z) (n : nat) : list Z :=
  match n with
  | O => []
  | S k => waitBefore T k :: expectedLoopWaits T k
  end.

(** The retry loop along an execution, whatever the Lambda service does.
    [k] is the number of probes that have failed so far; a probe is one
    visit of [triggerLambda], which calls the function once and again
    after each exception of the Lambda service that its retrier takes. *)
Definition probeInv (props : CircuitBreakerLambdaProps) (c : Config) : Prop :=
  let T := CircuitBreakerSQSLambda.defaultTimeout props in
  let D := CircuitBreakerSQSLambda.backoffDelay props in
  let tr := trace c in
  let called := count isInvokeAttempt tr in
  let reached := count isInvoke tr in
  exists k : nat,
    match control c with
    | At disableMapping | At waitState =>
        k = 0%nat /\ waits tr = [] /\ called = 0%nat /\ reached = 0%nat
    | At getTesterMessage =>
        k = 0%nat /\ waits tr = [T] /\ called = 0%nat /\ reached = 0%nat
    | At triggerLambda =>
        (k <= 8)%nat /\ attemptOf (data c) = Z.of_nat k + 1 /\
        retryTimeOf (data c) = backoff k /\
        waits tr = expectedLoopWaits T (S k) /\
        (retried c <= 6)%nat /\
        (k + retried c <= called)%nat /\
        (called <= 7 * k + retried c)%nat /\
        (reached <= k)%nat
    | At incrementFailureAndTime =>
        (1 <= k <= 9)%nat /\ attemptOf (data c) = Z.of_nat k /\
        2 * retryTimeOf (data c) = backoff k /\
        waits tr = expectedLoopWaits T k /\
        (k <= called)%nat /\ (called <= 7 * k)%nat /\ (reached <= k)%nat
    | At exceededRetryChoice =>
        (1 <= k <= 9)%nat /\ attemptOf (data c) = Z.of_nat k + 1 /\
        retryTimeOf (data c) = backoff k /\
        waits tr = expectedLoopWaits T k /\
        (k <= called)%nat /\ (called <= 7 * k)%nat /\ (reached <= k)%nat
    | At waitAndRetry =>
        (1 <= k <= 8)%nat /\ attemptOf (data c) = Z.of_nat k + 1 /\
        retryTimeOf (data c) = backoff k /\
        waits tr = expectedLoopWaits T k /\
        (k <= called)%nat /\ (called <= 7 * k)%nat /\ (reached <= k)%nat
    | At exceededRetryAttempts =>
        k = 9%nat /\ attemptOf (data c) = 10 /\
        waits tr = expectedLoopWaits T 9 /\
        (9 <= called)%nat /\ (called <= 63)%nat /\ (reached <= 9)%nat
    | At deleteMessageSqs | At enableRejitter | At waitAndDisableJitter =>
        (k <= 8)%nat /\ waits tr = expectedLoopWaits T (S k) /\
        (called <= 7 * S k)%nat /\ (reached <= S k)%nat
    | At disableRejitter =>
        (k <= 8)%nat /\ rejitter props = true /\
        waits tr = D :: expectedLoopWaits T (S k) /\
        (called <= 7 * S k)%nat /\ (reached <= S k)%nat
    | At enabledMapping | Succeeded =>
        (k <= 8)%nat /\
        waits tr = (if rejitter props then [D] else [])
                   ++ expectedLoopWaits T (S k) /\
        (called <= 7 * S k)%nat /\ (reached <= S k)%nat
    | Failed =>
        (k <= 9)%nat /\
        (waits tr = expectedLoopWaits T k \/
         (rejitter props = true /\ waits tr = D :: expectedLoopWaits T k)) /\
        (called <= 7 * k)%nat /\ (reached <= k)%nat
    end.

(** The fetch returns a message, at once or after some of the retries
    that its retrier allows. *)
Definition fetchReturnsMessage (w : World) : Prop :=
  exists j m ms,
    (j <= 5)%nat /\
    (forall i, (i < j)%nat -> queueAt w i = None) /\
    queueAt w j = Some (m :: ms).

(** The retry loop when the fetch returns a message at its [j]-th retry
    and the function never returns normally, whatever the Lambda service
    does: nothing but the [Fail] state ends the execution. *)
Definition neverRecoversInv (T : Z) (j : nat) (c : Config) : Prop :=
  match control c with
  | At disableMapping => trace c = []
  | At waitState => count isReceive (trace c) = 0%nat
  | At getTesterMessage =>
      count isReceive (trace c) = retried c /\ (retried c <= j)%nat
  | At triggerLambda | At incrementFailureAndTime
  | At exceededRetryChoice | At waitAndRetry =>
      firstMessage (data c) <> None
  | At exceededRetryAttempts => True
  | Failed =>
      attemptOf (data c) = 10 /\
      waits (trace c) = expectedLoopWaits T 9 /\
      (9 <= count isInvokeAttempt (trace c))%nat
  | _ => False
  end.

(** The rejitter mapping along an execution that finds it in state
    [r0]. *)
Definition drainInv (r0 : bool) (c : Config) : Prop :=
  let tr := trace c in
  let untouched :=
    rejitterEnabled c = r0 /\
    count isRejitterOn tr = 0%nat /\ count isRejitterOff tr = 0%nat in
  let on :=
    rejitterEnabled c = true /\
    count isRejitterOn tr = 1%nat /\ count isRejitterOff tr = 0%nat in
  let off :=
    rejitterEnabled c = false /\
    count isRejitterOn tr = 1%nat /\ count isRejitterOff tr = 1%nat in
  match control c with
  | At waitAndDisableJitter | At disableRejitter => on
  | At enabledMapping | Succeeded => off \/ untouched
  | Failed => on \/ off \/ untouched
  | At _ => untouched
  end.

Definition isDisableFailed (e : Event) : bool :=
  match e with EToggle sqsEventSource false false => true | _ => false end.

(** The Lambda service raises an exception at each of the first two calls
    of an execution, or at every call. *)
Definition lambdaFaultyTwice : LambdaFaults := fun k => (k <? 2)%nat.

Definition lambdaDown : LambdaFaults := fun _ => true.

(** The seconds spent in the waits of the two retriers so far, by control
    point: at most 310 for the fetch, and at most 126 for each probe. *)
Definition retryTimeInv (c : Config) : Prop :=
  let R := totalSeconds (retryWaits (trace c)) in
  let a := attemptOf (data c) in
  match control c with
  | At disableMapping | At waitState => R = 0
  | At getTesterMessage =>
      (retried c <= 5)%nat /\ R = 10 * 2 ^ Z.of_nat (retried c) - 10
  | At triggerLambda =>
      (retried c <= 6)%nat /\
      R <= 310 + 126 * (a - 1) + 2 * 2 ^ Z.of_nat (retried c) - 2
  | At incrementFailureAndTime => R <= 310 + 126 * a
  | At exceededRetryChoice | At waitAndRetry => R <= 310 + 126 * (a - 1)
  | _ => R <= 310 + 126 * 9
  end.

(** The fetch fails twice before it returns the message, and the function
    never returns normally. *)
Definition lateFetchWorkerDown : World :=
  {| mappingCallOk := fun _ => true;
     queueAt := fun k => if (k <? 2)%nat then None else Some [probeMessage];
     workerOk := fun _ _ => false;
     deleteOk := fun _ => true |}.

(** Whether the newest event of a trace is a wait of a retrier. *)
Definition afterRetryWait (tr : list Event) : bool :=
  match tr with ERetryWait _ :: _ => true | _ => false end.

(** The probes of a trace (newest event first): the calls of the function
    that do not follow a wait of the probe's retrier.  Each one opens a
    visit of [triggerLambda]; the calls that follow a wait of the retrier
    belong to the visit already open. *)
Fixpoint probes (tr : list Event) : nat :=
  match tr with
  | [] => 0
  | e :: t =>
      (if isInvokeAttempt e && negb (afterRetryWait t) then 1 else 0)
      + probes t
  end%nat.

(** The number of probes along an execution, against the counter, and
    the calls of the function against the probes: 7 calls at most for
    each probe, one of which at most reaches the function. *)
Definition roundInv (c : Config) : Prop :=
  let tr := trace c in
  let a := attemptOf (data c) in
  let p := probes tr in
  let called := count isInvokeAttempt tr in
  let reached := count isInvoke tr in
  let settled := (called <= 7 * p)%nat /\ (reached <= p)%nat in
  match control c with
  | At disableMapping | At waitState | At getTesterMessage =>
      p = 0%nat /\ a <= 9 /\ settled
  | At triggerLambda =>
      afterRetryWait tr = negb (retried c =? 0)%nat /\
      Z.of_nat p = a - 1 + (if afterRetryWait tr then 1 else 0) /\
      (if afterRetryWait tr
       then (called + 7 <= 7 * p + retried c)%nat /\ (reached + 1 <= p)%nat
       else settled)
  | At incrementFailureAndTime => Z.of_nat p = a /\ settled
  | At exceededRetryChoice | At waitAndRetry => Z.of_nat p = a - 1 /\ settled
  | At exceededRetryAttempts => p = 9%nat /\ settled
  | At deleteMessageSqs => Z.of_nat p = a /\ a <= 9 /\ settled
  | At _ | Succeeded => (p <= 9)%nat /\ a <= 9 /\ settled
  | Failed => (p <= 9)%nat /\ (a = 10 -> p = 9%nat) /\ settled
  end.

(** For each probe of a trace, the wait made in a [Wait] state that
    preceded it (newest first). *)
Fixpoint waitsBeforeProbes (tr : list Event) : list (option Z) :=
  match tr with
  | [] => []
  | e :: t =>
      if isInvokeAttempt e && negb (afterRetryWait t)
      then lastWait t :: waitsBeforeProbes t
      else waitsBeforeProbes t
  end.

Definition waitsInv (props : CircuitBreakerLambdaProps) (c : Config) : Prop :=
  waitsBeforeProbes (trace c)
  = expectedWaits (CircuitBreakerSQSLambda.defaultTimeout props)
      (probes (trace c)).

(** The seconds spent in [Wait] states once the probe has succeeded,
    against the number of probes made. *)
Definition loopTimeInv (props : CircuitBreakerLambdaProps) (c : Config)
  : Prop :=
  let T := CircuitBreakerSQSLambda.defaultTimeout props in
  let p := probes (trace c) in
  let W := totalSeconds (waits (trace c)) in
  match control c with
  | At deleteMessageSqs | At enableRejitter | At waitAndDisableJitter =>
      W = T + backoff p - 20
  | At disableRejitter =>
      rejitter props = true /\
      W = T + backoff p - 20 + CircuitBreakerSQSLambda.backoffDelay props
  | At enabledMapping | Succeeded =>
      W = T + backoff p - 20 + rejitterSeconds props
  | _ => True
  end.
(* ================================================================== *)
(** * Properties *)

(** The theorems about [step], [run] and [execution] are about the
    executions in which the Lambda service raises no exception: the probe
    then fails only when the function does.  The theorems about
    [stepWith], [runWith] and [executionWith] hold whenever the Lambda
    service raises exceptions, the retrier of [LambdaInvoke] making the
    probe call the function again. *)

(** ** Running *)

Lemma run_S def w n c : run def w (S n) c = run def w n (step def w c).
Proof. reflexivity. Qed.

Lemma run_add def w n m c :
  run def w (n + m) c = run def w m (run def w n c).
Proof.
  revert c; induction n as [|n IH]; intro c; simpl; [reflexivity|].
  apply IH.
Qed.

Lemma step_terminal def w c : terminal c = true -> step def w c = c.
Proof.
  unfold terminal, step, stepWith;
    destruct (control c); [discriminate| |]; reflexivity.
Qed.

Lemma run_terminal def w n c : terminal c = true -> run def w n c = c.
Proof.
  intro H; induction n as [|n IH]; simpl; [reflexivity|].
  rewrite step_terminal by exact H. exact IH.
Qed.

Lemma run_step_comm def w n c :
  run def w n (step def w c) = step def w (run def w n c).
Proof.
  revert c; induction n as [|n IH]; intro c; simpl; [reflexivity|].
  apply IH.
Qed.

(** An invariant of [step] holds all along every run. *)
Lemma run_invariant def w (P : Config -> Prop) :
  (forall c, P c -> P (step def w c)) ->
  forall n c, P c -> P (run def w n c).
Proof.
  intros Hstep n; induction n as [|n IH]; intros c Hc; simpl; auto.
Qed.

(** The same for executions in which the Lambda service may raise
    exceptions. *)
Lemma runWith_S faults def w n c :
  runWith faults def w (S n) c
  = runWith faults def w n (stepWith faults def w c).
Proof. reflexivity. Qed.

Lemma runWith_add faults def w n m c :
  runWith faults def w (n + m) c
  = runWith faults def w m (runWith faults def w n c).
Proof.
  revert c; induction n as [|n IH]; intro c; simpl; [reflexivity|].
  apply IH.
Qed.

Lemma stepWith_terminal faults def w c :
  terminal c = true -> stepWith faults def w c = c.
Proof.
  unfold terminal, stepWith;
    destruct (control c); [discriminate| |]; reflexivity.
Qed.

Lemma runWith_terminal faults def w n c :
  terminal c = true -> runWith faults def w n c = c.
Proof.
  intro H; induction n as [|n IH]; simpl; [reflexivity|].
  rewrite stepWith_terminal by exact H. exact IH.
Qed.

Lemma runWith_invariant faults def w (P : Config -> Prop) :
  (forall c, P c -> P (stepWith faults def w c)) ->
  forall n c, P c -> P (runWith faults def w n c).
Proof.
  intros Hstep n; induction n as [|n IH]; intros c Hc; simpl; auto.
Qed.

Lemma runWith_stable faults def w n m c :
  terminal (runWith faults def w n c) = true -> (n <= m)%nat ->
  runWith faults def w m c = runWith faults def w n c.
Proof.
  intros Ht Hle.
  assert (E : m = (n + (m - n))%nat) by lia.
  rewrite E, runWith_add. apply runWith_terminal. exact Ht.
Qed.

(** Without exceptions of the Lambda service, [runWith] is [run]. *)
Lemma stepWith_ext f g def w c :
  (forall k, f k = g k) -> stepWith f def w c = stepWith g def w c.
Proof.
  intro H. unfold stepWith, perform.
  destruct (control c) as [s| |]; [|reflexivity..].
  destruct (def s) as [[a sel p retry catch next| | | |]|]; try reflexivity.
  destruct a; try reflexivity.
  destruct (firstMessage (data c)); [|reflexivity].
  rewrite H. reflexivity.
Qed.

Lemma runWith_ext f g def w n c :
  (forall k, f k = g k) -> runWith f def w n c = runWith g def w n c.
Proof.
  intro H. revert c; induction n as [|n IH]; intro c; [reflexivity|].
  simpl. rewrite (stepWith_ext f g def w c H). apply IH.
Qed.

Lemma run_runWith def w n c :
  run def w n c = runWith noLambdaFault def w n c.
Proof.
  revert c; induction n as [|n IH]; intro c; [reflexivity|].
  simpl. apply IH.
Qed.

Lemma executionWith_no_fault faults props w consumer rejit n :
  (forall k, faults k = false) ->
  executionWith faults props w consumer rejit n
  = execution props w consumer rejit n.
Proof.
  intro H. unfold executionWith, execution.
  rewrite run_runWith. apply runWith_ext. exact H.
Qed.

(** ** Every execution ends *)

(** Unfolding one step of the workflow, without touching arithmetic. *)
Ltac unfold_step :=
  cbv [step stepWith noLambdaFault retrierFor builtinRetry
       lambdaServiceRetry LambdaInvoke
       CircuitBreakerSQSLambda.constructor
       CircuitBreakerSQSLambda.createRejitterLogic
       CircuitBreakerSQSLambda.toggleEventSourceMapping
       CircuitBreakerSQSLambda.performSqsActionTask
       CircuitBreakerSQSLambda.deleteSqsTaskAction
       CircuitBreakerSQSLambda.incrementParameters
       perform taskOutput waitSeconds firstMessage option_map
       goto log setData setMapping failWith retryAgain];
  cbn [control data retried trace consumerEnabled rejitterEnabled
       interval maxAttempts backoffRate selAttempt selRetryTime
       Messages Attempt RetryTime].

Ltac simpl_config :=
  cbn [control data retried trace consumerEnabled rejitterEnabled
       interval maxAttempts backoffRate selAttempt selRetryTime
       Messages Attempt RetryTime fst snd] in *.

(** Case analysis on whatever the step is waiting for. *)
Ltac break_step :=
  repeat (simpl_config;
    match goal with
    | |- context [if ?a <? ?b then _ else _] => destruct (Z.ltb_spec a b)
    | |- context [match ?x with _ => _ end] =>
        lazymatch x with
        | context [match _ with _ => _ end] => fail
        | _ => (is_var x; destruct x) || destruct x eqn:?
        end
    end).

Lemma stepsLeft_decreases props w c :
  terminal c = false ->
  (stepsLeft (step (CircuitBreakerSQSLambda.constructor props) w c)
   < stepsLeft c)%nat.
Proof.
  destruct c as [ctl d r tr ce re]; destruct ctl as [s| |];
    try discriminate; intros _.
  destruct s; unfold_step; break_step;
    cbv [stepsLeft attemptOf cyclesLeft]; simpl_config; lia.
Qed.

Lemma run_reaches_terminal props w n c :
  (stepsLeft c <= n)%nat ->
  terminal (run (CircuitBreakerSQSLambda.constructor props) w n c) = true.
Proof.
  revert c; induction n as [|n IH]; intros c Hc.
  - simpl. destruct c as [ctl d r tr ce re]; destruct ctl as [s| |];
      try reflexivity.
    destruct s; cbv [stepsLeft] in Hc; simpl_config; lia.
  - simpl. destruct (terminal c) eqn:Ht.
    + rewrite step_terminal by exact Ht.
      rewrite run_terminal by exact Ht. exact Ht.
    + apply IH. pose proof (stepsLeft_decreases props w c Ht). lia.
Qed.

(** Every execution has reached [Succeeded] or [Failed] after 78 steps,
    whatever the outside world answers. *)
Lemma execution_ends props w consumer rejit n :
  (78 <= n)%nat -> terminal (execution props w consumer rejit n) = true.
Proof.
  intro Hn. apply run_reaches_terminal. exact Hn.
Qed.

Lemma run_stable def w n m c :
  terminal (run def w n c) = true -> (n <= m)%nat ->
  run def w m c = run def w n c.
Proof.
  intros Ht Hle.
  assert (E : m = (n + (m - n))%nat) by lia.
  rewrite E, run_add. apply run_terminal. exact Ht.
Qed.

(** From then on the observation no longer changes. *)
Lemma execution_stable props w consumer rejit n :
  (78 <= n)%nat ->
  execution props w consumer rejit n = execution props w consumer rejit 78.
Proof.
  intro Hn. unfold execution.
  apply (run_stable _ w 78 n); [|exact Hn].
  apply run_reaches_terminal. apply le_n.
Qed.

(** ** The retry loop, one turn at a time *)

Ltac tick := rewrite run_S; unfold_step; simpl_config.

(** A probe that fails while the counter is below 9 leads, through the
    increment, the choice and the wait, back to the probe: same messages,
    counter plus one, retry time doubled, and nothing but the failed
    invocation and the wait in between. *)
Lemma retry_cycle props w c i m :
  control c = At triggerLambda ->
  data c = JIncident i ->
  nth_error (Messages i) 0 = Some m ->
  workerOk w (count isInvoke (trace c)) (Body m) = false ->
  Attempt i + 1 < 10 ->
  run (CircuitBreakerSQSLambda.constructor props) w 4 c =
  {| control := At triggerLambda;
     data := JIncident (CircuitBreakerSQSLambda.incrementParameters i);
     retried := 0;
     trace := EWait (RetryTime i + RetryTime i)
              :: EInvoke (Body m) false :: trace c;
     consumerEnabled := consumerEnabled c;
     rejitterEnabled := rejitterEnabled c |}.
Proof.
  destruct c as [ctl d r tr ce re]; simpl_config.
  intros -> -> Hm Hw Ha.
  tick. rewrite Hm, Hw.
  tick. tick.
  destruct (Z.ltb_spec (Attempt i + 1) 10) as [_|Hge]; [|lia].
  tick. reflexivity.
Qed.


(** The way to the first probe: the gate is closed, the fixed wait is
    made, one message is fetched. *)
Lemma first_probe_reached props w consumer rejit q :
  mappingCallOk w 0 = true ->
  queueAt w 0 = Some q ->
  execution props w consumer rejit 3 =
  {| control := At triggerLambda;
     data := JIncident {| Messages := sqsReceive q 1;
                          Attempt := 1; RetryTime := 10 |};
     retried := 0;
     trace := [EReceive (Some (sqsReceive q 1));
               EWait (CircuitBreakerSQSLambda.defaultTimeout props);
               EToggle sqsEventSource false true];
     consumerEnabled := false;
     rejitterEnabled := rejit |}.
Proof.
  intros Hd Hq. unfold execution, start, CircuitBreakerSQSLambda.startState.
  tick. cbn [count filter isToggle List.length]. rewrite Hd.
  tick. tick. cbn [count filter isReceive List.length]. rewrite Hq.
  reflexivity.
Qed.

Lemma backoff_S k : backoff (S k) = backoff k + backoff k.
Proof.
  unfold backoff. rewrite Nat2Z.inj_succ, Z.pow_succ_r by lia. lia.
Qed.



(** ** What holds at every point of every execution: the retry loop *)

Lemma backoff_pred n :
  (1 <= n)%nat -> backoff (Nat.pred n) + backoff (Nat.pred n) = backoff n.
Proof.
  intro H. destruct n as [|k]; [lia|]. simpl Nat.pred. symmetry.
  apply backoff_S.
Qed.

Lemma waitBefore_backoff T n : (1 <= n)%nat -> waitBefore T n = backoff n.
Proof. intro H. destruct n; [lia|reflexivity]. Qed.

Lemma count_cons p e tr :
  count p (e :: tr) = if p e then S (count p tr) else count p tr.
Proof. unfold count; simpl; destruct (p e); reflexivity. Qed.

Ltac simpl_trace :=
  rewrite ?count_cons in *;
  cbn [isInvoke isToggle isReceive isDelete
       probeWaits lastWait expectedWaits attemptOf retryTimeOf
       Attempt RetryTime Messages Nat.pred] in *.

Ltac split_hyps :=
  repeat match goal with
         | H : _ /\ _ |- _ => destruct H
         | H : exists _, _ |- _ => destruct H
         end.

Lemma loopInv_step props w c :
  loopInv props c ->
  loopInv props (step (CircuitBreakerSQSLambda.constructor props) w c).
Proof.
  destruct c as [ctl d r tr ce re]; destruct ctl as [s| |];
    [|intro H; exact H|intro H; exact H].
  unfold loopInv; simpl_config; intros [Hp H].
  destruct s; unfold_step; break_step; simpl_config; simpl_trace;
    split_hyps;
    try match goal with
        | H : count _ _ = 0%nat |- _ => rewrite H in *
        end;
    simpl_trace;
    repeat split; try assumption; try lia; try congruence;
    try (rewrite waitBefore_backoff by lia; congruence);
    try (rewrite <- backoff_pred by lia; congruence).
Qed.

Lemma loopInv_start props consumer rejit :
  loopInv props (start consumer rejit).
Proof. unfold loopInv, start; cbn. auto. Qed.

Lemma loopInv_execution props w consumer rejit n :
  loopInv props (execution props w consumer rejit n).
Proof.
  unfold execution. apply run_invariant.
  - intros c; apply loopInv_step.
  - apply loopInv_start.
Qed.

Lemma loopInv_bound props c :
  loopInv props c -> (count isInvoke (trace c) <= 9)%nat.
Proof.
  unfold loopInv. intros [_ H].
  destruct (control c) as [s| |]; [destruct s|..]; lia.
Qed.

(** The expected waits in the order of time. *)
Lemma expectedWaits_rev T n :
  rev (expectedWaits T n) =
  map (fun k => Some (waitBefore T k)) (seq 0 n).
Proof.
  induction n as [|n IH]; [reflexivity|].
  rewrite seq_S, map_app. cbn [expectedWaits rev]. rewrite IH. reflexivity.
Qed.

Lemma waitBefore_default k : waitBefore 10 k = 10 * 2 ^ Z.of_nat k.
Proof. destruct k; reflexivity. Qed.


(** ** What holds at every point of every execution: the two mappings *)

Ltac simpl_events :=
  rewrite ?count_cons in *;
  cbn [isInvoke isToggle isReceive isDelete isDisableCall isDisableOk
       isEnableCall isEnableOk isRejitterOn isRejitterOff afterDelete] in *.

Lemma gateInv_stepWith faults props g0 w c :
  gateInv props g0 c ->
  gateInv props g0 (stepWith faults (CircuitBreakerSQSLambda.constructor props) w c).
Proof.
  destruct c as [ctl d r tr ce re]; destruct ctl as [s| |];
    [|intro H; exact H|intro H; exact H].
  unfold gateInv; simpl_config; intros H.
  destruct s; unfold_step; break_step; simpl_config; split_hyps; subst;
    simpl_events; unfold rejitterDone in *;
    repeat match goal with
           | H : rejitter props = _ |- _ => rewrite H in *
           end;
    repeat split; try assumption; try lia; try congruence; eauto;
    try (cbn; intros; congruence);
    try (right; repeat split; try lia; try assumption; eauto).
Qed.

Lemma gateInv_step props g0 w c :
  gateInv props g0 c ->
  gateInv props g0 (step (CircuitBreakerSQSLambda.constructor props) w c).
Proof. apply gateInv_stepWith. Qed.

Lemma rejitInv_stepWith faults props w c :
  rejitInv c ->
  rejitInv (stepWith faults (CircuitBreakerSQSLambda.constructor props) w c).
Proof.
  destruct c as [ctl d r tr ce re]; destruct ctl as [s| |];
    [|intro H; exact H|intro H; exact H].
  unfold rejitInv; simpl_config; intros H.
  destruct s; unfold_step; break_step; simpl_config; split_hyps; subst;
    simpl_events;
    repeat split; try assumption; try lia; try congruence.
Qed.

Lemma rejitInv_step props w c :
  rejitInv c ->
  rejitInv (step (CircuitBreakerSQSLambda.constructor props) w c).
Proof. apply rejitInv_stepWith. Qed.

Lemma gateInv_execution props w consumer rejit n :
  gateInv props consumer (execution props w consumer rejit n).
Proof.
  unfold execution. apply run_invariant.
  - intros c; apply gateInv_step.
  - unfold gateInv, start; cbn. auto.
Qed.

Lemma rejitInv_execution props w consumer n :
  rejitInv (execution props w consumer
              CircuitBreakerSQSLambda.rejitterSqsEventSourceCreatedEnabled n).
Proof.
  unfold execution. apply run_invariant.
  - intros c; apply rejitInv_step.
  - unfold rejitInv, start; cbn. auto.
Qed.

(** ** What holds at every point of every execution: the fetch *)

Lemma sqsReceive_at_most q n :
  (List.length (sqsReceive q n) <= Z.to_nat n)%nat.
Proof. unfold sqsReceive. apply firstn_le_length. Qed.

Lemma sqsReceive_one q :
  (List.length (sqsReceive q 1) <=? 1)%nat = true.
Proof. apply Nat.leb_le. exact (sqsReceive_at_most q 1). Qed.

Lemma transportInv_step props w c :
  transportInv c ->
  transportInv (step (CircuitBreakerSQSLambda.constructor props) w c).
Proof.
  destruct c as [ctl d r tr ce re]; destruct ctl as [s| |];
    [|intro H; exact H|intro H; exact H].
  unfold transportInv; simpl_config; intros [Hf H].
  destruct s; unfold_step; break_step; simpl_config; split_hyps; subst;
    simpl_events;
    cbn [retryWaits forallb receivedAtMostOne andb expectedRetryWaits];
    rewrite ?sqsReceive_one, ?Hf; cbn [andb];
    (split; [reflexivity|]);
    try (repeat split; try assumption; try lia; congruence);
    try (eexists; split; [|split; [eassumption|]]; lia);
    try (exists 0%nat; repeat split; try assumption; lia);
    try (unfold fetchRetry; repeat split; try lia; congruence).
Qed.

Lemma transportInv_execution props w consumer rejit n :
  transportInv (execution props w consumer rejit n).
Proof.
  unfold execution. apply run_invariant.
  - intros c; apply transportInv_step.
  - unfold transportInv, start; cbn. auto.
Qed.

(** ** What holds at every point of every execution: the probe unit *)

Lemma fetchedUnit_skip e tr :
  (forall l, e <> EReceive (Some l)) -> fetchedUnit (e :: tr) = fetchedUnit tr.
Proof.
  intro H. unfold fetchedUnit. destruct e as [| [l|] | | | | |]; try reflexivity.
  destruct (H l eq_refl).
Qed.

Lemma fetchedUnit_receive l tr :
  fetchedUnit (EReceive (Some l) :: tr) = nth_error l 0.
Proof. reflexivity. Qed.

Lemma sameUnit_skip e tr :
  isInvoke e = false -> (forall l, e <> EReceive (Some l)) ->
  sameUnit tr -> sameUnit (e :: tr).
Proof.
  intros Hi Hr H. unfold sameUnit. rewrite (fetchedUnit_skip e tr Hr).
  destruct e; try discriminate; exact H.
Qed.

Lemma sameUnit_receive l tr :
  invokedBodies tr = [] -> sameUnit (EReceive (Some l) :: tr).
Proof.
  intro H. unfold sameUnit. cbn [invokedBodies]. rewrite H. constructor.
Qed.

Lemma sameUnit_invoke m ok tr :
  fetchedUnit tr = Some m -> sameUnit tr ->
  sameUnit (EInvoke (Body m) ok :: tr).
Proof.
  intros Hm H. unfold sameUnit in *.
  rewrite fetchedUnit_skip by (intro; discriminate).
  cbn [invokedBodies]. constructor; [rewrite Hm; reflexivity | exact H].
Qed.

Ltac unit_solver :=
  repeat split; cbn [fetchFirst invokedBodies]; try assumption;
  try congruence;
  try (repeat (apply sameUnit_skip;
               [reflexivity | intro; discriminate | ]); assumption);
  try (apply sameUnit_receive; assumption);
  try (apply sameUnit_invoke; [congruence | assumption]);
  try (rewrite ?fetchedUnit_receive;
       rewrite ?fetchedUnit_skip by (intro; discriminate);
       congruence).

Lemma unitInv_step props w c :
  unitInv c ->
  unitInv (step (CircuitBreakerSQSLambda.constructor props) w c).
Proof.
  destruct c as [ctl d r tr ce re]; destruct ctl as [s| |];
    [|intro H; exact H|intro H; exact H].
  unfold unitInv; simpl_config; intros (Hs & Hf & H).
  destruct s; unfold_step; break_step; simpl_config;
    cbn [firstMessage Messages] in *; unit_solver.
Qed.

Lemma unitInv_execution props w consumer rejit n :
  unitInv (execution props w consumer rejit n).
Proof.
  unfold execution. apply run_invariant.
  - intros c; apply unitInv_step.
  - unfold unitInv, sameUnit, start; cbn. auto.
Qed.

(* ================================================================== *)
(** * The rejitter Lambda *)

Lemma Number_toString z :
  RejitterLambda.Number (Some (RejitterLambda.toString z)) = Some z.
Proof.
  unfold RejitterLambda.Number, RejitterLambda.toString.
  rewrite NilZero.isi.
  - cbn [option_map]. rewrite DecimalZ.of_to. reflexivity.
  - destruct z; cbn; try discriminate.
    intros [= H]. exact (DecimalPos.Unsigned.to_uint_nonnil _ H).
  - destruct z; cbn; try discriminate.
    intros [= H]. exact (DecimalPos.Unsigned.to_uint_nonnil _ H).
Qed.

Lemma sendAll_length fl env random k event :
  List.length (RejitterLambda.sendAll fl env random k event)
  = List.length event.
Proof.
  revert k; induction event as [|r rest IH]; intro k; cbn; [reflexivity|].
  rewrite IH. reflexivity.
Qed.

Lemma sendAll_nth fl env random k0 event k r :
  nth_error event k = Some r ->
  nth_error (RejitterLambda.sendAll fl env random k0 event) k =
  Some {| RejitterLambda.QueueUrl := env "QUEUE_URL"%string;
          RejitterLambda.MessageBody := RejitterLambda.body r;
          RejitterLambda.DelaySeconds :=
            RejitterLambda.delay fl env random (k0 + k) |}.
Proof.
  revert k0 k; induction event as [|x rest IH]; intros k0 k H.
  - destruct k; discriminate.
  - destruct k as [|k]; cbn in *.
    + injection H as ->. rewrite Nat.add_0_r. reflexivity.
    + rewrite (IH (S k0) k H). rewrite Nat.add_succ_r. reflexivity.
Qed.

(** The floor of the rounded product lies between 0 and [j - 1]. *)
Lemma jitter_floor_range (fl : Q -> Q) (x : Q) (j : Z) :
  (forall a b, a <= b -> fl a <= fl b)%Q ->
  (forall z : Z, Z.abs z <= 2 ^ 53 -> (fl (inject_Z z) == inject_Z z)%Q) ->
  (0 <= x)%Q -> (x < 1)%Q ->
  1 <= j <= 2 ^ 53 ->
  0 <= Qfloor (fl (x * inject_Z (j - 1))%Q) <= j - 1.
Proof.
  intros Hmono Hint Hx0 Hx1 Hj.
  assert (Hm : (inject_Z 0 <= inject_Z (j - 1))%Q)
    by (rewrite <- Zle_Qle; lia).
  assert (Hlo : (inject_Z 0 <= x * inject_Z (j - 1))%Q)
    by (apply Qmult_le_0_compat; assumption).
  assert (Hhi : (x * inject_Z (j - 1) <= inject_Z (j - 1))%Q).
  { apply Qle_trans with (1 * inject_Z (j - 1))%Q.
    - apply Qmult_le_compat_r; [apply Qlt_le_weak; exact Hx1 | exact Hm].
    - apply Qle_lteq; right. apply Qmult_1_l. }
  assert (F0 : (inject_Z 0 <= fl (x * inject_Z (j - 1)))%Q).
  { apply Qle_trans with (fl (inject_Z 0)).
    - apply Qle_lteq; right. symmetry. apply Hint. cbn; lia.
    - apply Hmono. exact Hlo. }
  assert (F1 : (fl (x * inject_Z (j - 1)) <= inject_Z (j - 1))%Q).
  { apply Qle_trans with (fl (inject_Z (j - 1))).
    - apply Hmono. exact Hhi.
    - apply Qle_lteq; right. apply Hint. lia. }
  apply Qfloor_resp_le in F0, F1. rewrite Qfloor_Z in F0, F1.
  split; assumption.
Qed.

(** With the product computed exactly, the last second of the window is
    never drawn. *)
Lemma jitter_floor_exact (x : Q) (j : Z) :
  (0 <= x)%Q -> (x < 1)%Q -> 2 <= j ->
  0 <= Qfloor (x * inject_Z (j - 1))%Q <= j - 2.
Proof.
  intros Hx0 Hx1 Hj.
  assert (Hm : (inject_Z 0 < inject_Z (j - 1))%Q)
    by (rewrite <- Zlt_Qlt; lia).
  assert (Hlo : (inject_Z 0 <= x * inject_Z (j - 1))%Q)
    by (apply Qmult_le_0_compat; [exact Hx0 | apply Qlt_le_weak; exact Hm]).
  assert (Hhi : (x * inject_Z (j - 1) < inject_Z (j - 1))%Q).
  { apply Qlt_le_trans with (1 * inject_Z (j - 1))%Q.
    - apply Qmult_lt_compat_r; assumption.
    - apply Qle_lteq; right. apply Qmult_1_l. }
  apply Qfloor_resp_le in Hlo. rewrite Qfloor_Z in Hlo.
  pose proof (Qfloor_le (x * inject_Z (j - 1))%Q) as Hf.
  assert (Hlt : (inject_Z (Qfloor (x * inject_Z (j - 1))%Q)
                 < inject_Z (j - 1))%Q)
    by (eapply Qle_lt_trans; eassumption).
  rewrite <- Zlt_Qlt in Hlt. lia.
Qed.

Lemma environment_QUEUE_URL u i j :
  RejitterLambda.environment u i j "QUEUE_URL" = Some u.
Proof. reflexivity. Qed.

Lemma environment_INITIAL_DELAY u i j :
  RejitterLambda.environment u i j "INITIAL_DELAY"
  = Some (RejitterLambda.toString i).
Proof. reflexivity. Qed.

Lemma environment_JITTER_DELAY u i j :
  RejitterLambda.environment u i j "JITTER_DELAY"
  = Some (RejitterLambda.toString j).
Proof. reflexivity. Qed.

Lemma delay_environment fl u i j random k :
  RejitterLambda.delay fl (RejitterLambda.environment u i j) random k
  = Some (i + Qfloor (fl (random k * inject_Z (j - 1))%Q)).
Proof.
  unfold RejitterLambda.delay.
  rewrite environment_INITIAL_DELAY, environment_JITTER_DELAY.
  rewrite !Number_toString. reflexivity.
Qed.

(** C3. For every record drained by the rejitter Lambda, one [sendMessage]
    is made; its [MessageBody] is the record's body and its [DelaySeconds]
    is an integer [d] with
    [initialSettleDelay <= d <= initialSettleDelay + jitterWindow - 1]
    (60 and 120 by default: [60 <= d <= 179]).  The draw of [Math.random]
    is any number in $[0,1)$; the rounding of the product is any monotone
    function that is exact on the integers up to $2^{53}$. *)
Theorem rejitter_delay_within_window
    (fl : Q -> Q) (random : nat -> Q) (queueUrl : string)
    (props : CircuitBreakerLambdaProps)
    (event : list RejitterLambda.SQSRecord) :
  (forall a b, a <= b -> fl a <= fl b)%Q ->
  (forall z : Z, Z.abs z <= 2 ^ 53 -> (fl (inject_Z z) == inject_Z z)%Q) ->
  (forall k, 0 <= random k /\ random k < 1)%Q ->
  1 <= CircuitBreakerSQSLambda.rejitterRange props <= 2 ^ 53 ->
  let initialSettleDelay := CircuitBreakerSQSLambda.backoffDelay props in
  let jitterWindow := CircuitBreakerSQSLambda.rejitterRange props in
  let sent := RejitterLambda.handler fl (rejitterEnvironment queueUrl props)
                random event in
  List.length sent = List.length event /\
  forall k r, nth_error event k = Some r ->
    exists d,
      nth_error sent k =
        Some {| RejitterLambda.QueueUrl := Some queueUrl;
                RejitterLambda.MessageBody := RejitterLambda.body r;
                RejitterLambda.DelaySeconds := Some d |} /\
      initialSettleDelay <= d <= initialSettleDelay + jitterWindow - 1.
Proof.
  intros Hmono Hint Hrand Hj I J sent. split.
  - apply sendAll_length.
  - intros k r Hk. unfold sent, RejitterLambda.handler, rejitterEnvironment.
    rewrite (sendAll_nth _ _ _ 0 event k r Hk).
    rewrite delay_environment, environment_QUEUE_URL.
    eexists; split; [reflexivity|].
    destruct (Hrand (0 + k)%nat) as [H0 H1].
    pose proof (jitter_floor_range fl (random (0 + k)%nat) J
                  Hmono Hint H0 H1 Hj).
    fold I J. lia.
Qed.

Lemma rejitter_delay_within_window_witness :
  1 <= CircuitBreakerSQSLambda.rejitterRange (defaults true) <= 2 ^ 53 /\
  exists d,
    nth_error
      (RejitterLambda.handler exactProduct
         (rejitterEnvironment "https://sqs/queue" (defaults true))
         drawHalf [ {| RejitterLambda.body := "order-7" |} ]) 0 =
      Some {| RejitterLambda.QueueUrl := Some "https://sqs/queue"%string;
              RejitterLambda.MessageBody := "order-7"%string;
              RejitterLambda.DelaySeconds := Some d |} /\
    60 <= d <= 60 + 120 - 1.
Proof.
  assert (Hmono : (forall a b, a <= b -> exactProduct a <= exactProduct b)%Q)
    by (intros a b H; exact H).
  assert (Hint : forall z : Z, Z.abs z <= 2 ^ 53 ->
                   (exactProduct (inject_Z z) == inject_Z z)%Q)
    by (intros z _; reflexivity).
  assert (Hrand : (forall k, 0 <= drawHalf k /\ drawHalf k < 1)%Q)
    by (intro k; split; [discriminate | reflexivity]).
  assert (Hj : 1 <= CircuitBreakerSQSLambda.rejitterRange (defaults true)
               <= 2 ^ 53)
    by (cbn; lia).
  split; [exact Hj|].
  exact (proj2 (rejitter_delay_within_window exactProduct drawHalf
                  "https://sqs/queue" (defaults true)
                  [ {| RejitterLambda.body := "order-7" |} ]
                  Hmono Hint Hrand Hj) 0%nat
               {| RejitterLambda.body := "order-7" |} eq_refl).
Defined.

(** The delay drawn in that example. *)
Example rejitter_delay_example :
  map RejitterLambda.DelaySeconds
    (RejitterLambda.handler exactProduct
       (rejitterEnvironment "https://sqs/queue" (defaults true))
       drawHalf [ {| RejitterLambda.body := "order-7" |} ])
  = [Some 119].
Proof. vm_compute. reflexivity. Qed.

(* ================================================================== *)
(** * The claims *)

Lemma waits_app h1 h2 : waits (h1 ++ h2) = waits h1 ++ waits h2.
Proof.
  induction h1 as [|e h1 IH]; [reflexivity|].
  destruct e; cbn; rewrite IH; reflexivity.
Qed.

Lemma retryWaits_app h1 h2 :
  retryWaits (h1 ++ h2) = retryWaits h1 ++ retryWaits h2.
Proof.
  induction h1 as [|e h1 IH]; [reflexivity|].
  destruct e; cbn; rewrite IH; reflexivity.
Qed.

Lemma retryWaits_rev h : retryWaits (rev h) = rev (retryWaits h).
Proof.
  induction h as [|e h IH]; [reflexivity|].
  cbn [rev]. rewrite retryWaits_app, IH.
  destruct e; cbn; rewrite ?app_nil_r; reflexivity.
Qed.

(** ** C1: what scenario A shows *)

(** C1, as stated, fails.  In scenario A (default props, worker always
    failing) the waits made are 10, 20, ..., 2560: neither the waits of the
    whole execution nor those of the retry loop are 10, 20, ..., 5120, no
    wait of 5120 seconds is ever made, and the wait before the first
    re-invocation is 20, not [10 * 2^0]. *)
Lemma scenarioA_waits_are_not_10_to_5120 :
  waits (history scenarioA)
    <> [10; 20; 40; 80; 160; 320; 640; 1280; 2560; 5120] /\
  waits (afterFirstInvoke (history scenarioA))
    <> [10; 20; 40; 80; 160; 320; 640; 1280; 2560; 5120] /\
  ~ In 5120 (waits (history scenarioA)) /\
  nth 0 (waits (afterFirstInvoke (history scenarioA))) 0 <> 10 * 2 ^ (1 - 1) /\
  waits (history scenarioA) = [10; 20; 40; 80; 160; 320; 640; 1280; 2560] /\
  waits (afterFirstInvoke (history scenarioA))
    = [20; 40; 80; 160; 320; 640; 1280; 2560].
Proof.
  vm_compute. repeat split; try discriminate.
  intros H. repeat (destruct H as [H|H]; [discriminate H|]). exact H.
Qed.

(** ** C2: what scenario A shows *)

(** C2, as stated, fails.  In scenario A the execution is failed after
    9 probes, not 10, and at that point the counter stands at 10, which
    does not exceed 10. *)
Lemma scenarioA_fails_after_9_probes :
  control scenarioA = Failed /\
  count isInvoke (trace scenarioA) = 9%nat /\
  count isInvoke (trace scenarioA) <> 10%nat /\
  attemptOf (data scenarioA) = 10 /\
  ~ (attemptOf (data scenarioA) > 10).
Proof.
  vm_compute. repeat split; try discriminate.
Qed.

Lemma step_choice props w c i :
  control c = At exceededRetryChoice ->
  data c = JIncident i ->
  control (step (CircuitBreakerSQSLambda.constructor props) w c) =
  At (if Attempt i <? 10 then waitAndRetry else exceededRetryAttempts).
Proof.
  destruct c as [ctl d r tr ce re]; simpl_config. intros -> ->.
  unfold_step. reflexivity.
Qed.

(** ** C5: the calls on the consumer's mapping *)

Lemma beginsWithDisable_cons e tr :
  beginsWithDisable tr -> beginsWithDisable (e :: tr).
Proof.
  intros (ok & tr' & ->). exists ok, (e :: tr'). reflexivity.
Qed.

Lemma firstInv_stepWith faults props w c :
  firstInv c ->
  firstInv (stepWith faults (CircuitBreakerSQSLambda.constructor props) w c).
Proof.
  destruct c as [ctl d r tr ce re]; destruct ctl as [s| |];
    [|intro H; exact H|intro H; exact H].
  unfold firstInv; simpl_config; intros H.
  destruct s; unfold_step; break_step; simpl_config; subst;
    try (repeat apply beginsWithDisable_cons; assumption);
    try (eexists; exists []; reflexivity).
Qed.

Lemma firstInv_step props w c :
  firstInv c ->
  firstInv (step (CircuitBreakerSQSLambda.constructor props) w c).
Proof. apply firstInv_stepWith. Qed.

Lemma firstInv_execution props w consumer rejit n :
  firstInv (execution props w consumer rejit n).
Proof.
  unfold execution. apply run_invariant.
  - intros c; apply firstInv_step.
  - reflexivity.
Qed.

Lemma count_In p e tr : In e tr -> p e = true -> (1 <= count p tr)%nat.
Proof.
  induction tr as [|x tr IH]; intros Hin Hp; [destruct Hin|].
  rewrite count_cons. destruct Hin as [->|Hin].
  - rewrite Hp. lia.
  - specialize (IH Hin Hp). destruct (p x); lia.
Qed.

Lemma count_pos p tr :
  (1 <= count p tr)%nat -> exists e, In e tr /\ p e = true.
Proof.
  induction tr as [|x tr IH]; [cbn; lia|].
  rewrite count_cons. destruct (p x) eqn:Hx.
  - intros _. exists x. split; [left; reflexivity | exact Hx].
  - intros H. destruct (IH H) as (e & Hin & He).
    exists e. split; [right; exact Hin | exact He].
Qed.

Lemma In_history e c : In e (history c) <-> In e (trace c).
Proof. unfold history. symmetry. apply in_rev. Qed.

Lemma isEnableOk_iff tr :
  In (EToggle sqsEventSource true true) tr <-> (1 <= count isEnableOk tr)%nat.
Proof.
  split.
  - intro H. apply (count_In _ _ _ H). reflexivity.
  - intro H. destruct (count_pos _ _ H) as (e & Hin & He).
    destruct e as [[|] [|] [|]| | | | | |]; try discriminate. exact Hin.
Qed.

Lemma isDisableOk_iff tr :
  In (EToggle sqsEventSource false true) tr
  <-> (1 <= count isDisableOk tr)%nat.
Proof.
  split.
  - intro H. apply (count_In _ _ _ H). reflexivity.
  - intro H. destruct (count_pos _ _ H) as (e & Hin & He).
    destruct e as [[|] [|] [|]| | | | | |]; try discriminate. exact Hin.
Qed.

Lemma isRejitterOff_iff tr :
  In (EToggle rejitterSqsEventSource false true) tr
  <-> (1 <= count isRejitterOff tr)%nat.
Proof.
  split.
  - intro H. apply (count_In _ _ _ H). reflexivity.
  - intro H. destruct (count_pos _ _ H) as (e & Hin & He).
    destruct e as [[|] [|] [|]| | | | | |]; try discriminate. exact Hin.
Qed.

Lemma isEnableCall_In ok tr :
  In (EToggle sqsEventSource true ok) tr -> (1 <= count isEnableCall tr)%nat.
Proof. intro H. apply (count_In _ _ _ H). reflexivity. Qed.

Lemma history_first c e h :
  firstInv c -> history c = e :: h ->
  exists ok, e = EToggle sqsEventSource false ok.
Proof.
  unfold firstInv, history. intros Hf Hh.
  assert (Hb : trace c = [] \/ beginsWithDisable (trace c)).
  { destruct (control c) as [s| |]; [destruct s|..]; auto. }
  destruct Hb as [E|(ok & tr' & E)]; rewrite E in Hh.
  - discriminate.
  - rewrite rev_app_distr in Hh. cbn in Hh. injection Hh as <- _.
    exists ok. reflexivity.
Qed.

(** The only call that enables the consumer's mapping is the newest event
    of the trace, when the trace holds exactly one such call and begins
    with one. *)
Lemma enable_call_is_newest ok ok' tr' :
  count isEnableCall (EToggle sqsEventSource true ok' :: tr') = 1%nat ->
  In (EToggle sqsEventSource true ok) (EToggle sqsEventSource true ok' :: tr') ->
  ok = ok'.
Proof.
  rewrite count_cons. cbn [isEnableCall]. intros Hc [H|H].
  - congruence.
  - apply isEnableCall_In in H. lia.
Qed.

(** ** C6 and C7 *)

Lemma fatalInv_step props w c :
  fatalInv c ->
  fatalInv (step (CircuitBreakerSQSLambda.constructor props) w c).
Proof.
  destruct c as [ctl d r tr ce re]; destruct ctl as [s| |];
    [|intro H; exact H|intro H; exact H].
  unfold fatalInv; simpl_config; intros [H|H]; [discriminate|].
  destruct s; unfold_step; break_step; simpl_config;
    rewrite ?count_cons; cbn [isFatal]; auto.
Qed.

Lemma fatalInv_execution props w consumer rejit n :
  fatalInv (execution props w consumer rejit n).
Proof.
  unfold execution. apply run_invariant.
  - intros c; apply fatalInv_step.
  - right. reflexivity.
Qed.

Lemma fatal_event_fails c e :
  fatalInv c -> In e (history c) -> isFatal e = true -> control c = Failed.
Proof.
  intros [H|H] Hin He; [exact H|].
  apply In_history in Hin. pose proof (count_In _ _ _ Hin He). lia.
Qed.

Lemma run_from_failed def w k c c' :
  step def w c = c' -> terminal c' = true -> (1 <= k)%nat ->
  run def w k c = c'.
Proof.
  intros Hs Ht Hk. destruct k as [|k]; [lia|].
  rewrite run_S, Hs. apply run_terminal. exact Ht.
Qed.

Lemma step_toggle_fails props w c s :
  (s = disableMapping \/ s = enabledMapping) ->
  control c = At s ->
  mappingCallOk w (count isToggle (trace c)) = false ->
  step (CircuitBreakerSQSLambda.constructor props) w c =
  failWith (log (EToggle sqsEventSource
                   (match s with enabledMapping => true | _ => false end)
                   false) c).
Proof.
  destruct c as [ctl d r tr ce re]; simpl_config.
  intros [->| ->] -> Hw; unfold_step; rewrite Hw; reflexivity.
Qed.

Lemma step_delete_fails props w c i m :
  control c = At deleteMessageSqs ->
  data c = JIncident i ->
  nth_error (Messages i) 0 = Some m ->
  deleteOk w (count isDelete (trace c)) = false ->
  step (CircuitBreakerSQSLambda.constructor props) w c =
  failWith (log (EDelete (ReceiptHandle m) false) c).
Proof.
  destruct c as [ctl d r tr ce re]; simpl_config.
  intros -> -> Hm Hw; unfold_step; rewrite Hm, Hw; reflexivity.
Qed.

(** C6. The two calls on the consumer's mapping have neither a retrier
    nor a catcher: no execution makes either call twice, and an execution
    in which one of them fails is failed.  When the disabling call fails,
    the execution is failed at once: that call is all it has done, and no
    probe was made.  When the enabling call fails, the execution is failed
    at once as well. *)
Theorem gate_call_failure_is_fatal props w consumer rejit n :
  let def := CircuitBreakerSQSLambda.constructor props in
  let c := execution props w consumer rejit n in
  (def disableMapping =
     Some (Task (updateEventSourceMapping sqsEventSource false)
             None RootPath None None (Some waitState)) /\
   def enabledMapping =
     Some (Task (updateEventSourceMapping sqsEventSource true)
             None RootPath None None None)) /\
  ((count isDisableCall (trace c) <= 1)%nat /\
   (count isEnableCall (trace c) <= 1)%nat) /\
  (forall m enabled, In (EToggle m enabled false) (history c) ->
                     control c = Failed) /\
  (mappingCallOk w 0 = false -> (1 <= n)%nat ->
   control c = Failed /\
   history c = [EToggle sqsEventSource false false] /\
   count isInvoke (trace c) = 0%nat /\
   consumerEnabled c = consumer) /\
  (forall c0 k,
     control c0 = At enabledMapping ->
     mappingCallOk w (count isToggle (trace c0)) = false ->
     (1 <= k)%nat ->
     run def w k c0 = failWith (log (EToggle sqsEventSource true false) c0)).
Proof.
  intros def c. split; [|split; [|split; [|split]]].
  - split; reflexivity.
  - pose proof (gateInv_execution props w consumer rejit n) as G.
    fold c in G. unfold gateInv in G.
    destruct (control c) as [s| |]; [destruct s|..]; split_hyps;
      try (rewrite H; cbn); lia.
  - intros m enabled Hin.
    apply (fatal_event_fails c _ (fatalInv_execution _ _ _ _ _) Hin).
    reflexivity.
  - intros Hw Hn. unfold c, execution.
    rewrite (run_from_failed _ w n _
               (failWith (log (EToggle sqsEventSource false false)
                            (start consumer rejit)))); try assumption.
    + repeat split.
    + apply (step_toggle_fails props w _ disableMapping); auto.
    + reflexivity.
  - intros c0 k Hc Hw Hk. apply run_from_failed; try assumption.
    + apply (step_toggle_fails props w _ enabledMapping); auto.
    + reflexivity.
Qed.

Lemma gate_call_failure_is_fatal_witness :
  mappingCallOk disableFails 0 = false /\
  control (execution (defaults false) disableFails true false 78) = Failed /\
  history (execution (defaults false) disableFails true false 78)
    = [EToggle sqsEventSource false false] /\
  count isInvoke
    (trace (execution (defaults false) disableFails true false 78)) = 0%nat /\
  consumerEnabled (execution (defaults false) disableFails true false 78)
    = true.
Proof.
  split; [reflexivity|].
  apply (gate_call_failure_is_fatal (defaults false) disableFails
           true false 78).
  - reflexivity.
  - lia.
Defined.

(** The other half of C6 on an example: the enabling call fails. *)
Example enable_failure_example :
  let c := execution (defaults false) enableFails true false 78 in
  control c = Failed /\
  history c = [EToggle sqsEventSource false true; EWait 10;
               EReceive (Some [probeMessage]);
               EInvoke "order-1" true; EDelete "handle-1" true;
               EToggle sqsEventSource true false] /\
  consumerEnabled c = false.
Proof. vm_compute. repeat split. Qed.

(** C7. The task that deletes the probe message has neither a retrier
    nor a catcher: no execution makes the call twice, an execution in
    which it fails is failed, and it is failed at once, the failed call
    being the last thing done. *)
Theorem delete_failure_is_fatal props w consumer rejit n :
  let def := CircuitBreakerSQSLambda.constructor props in
  let c := execution props w consumer rejit n in
  def deleteMessageSqs =
    Some (Task deleteMessage None RootPath None None
            (Some (if rejitter props then enableRejitter
                   else enabledMapping))) /\
  (count isDelete (trace c) <= 1)%nat /\
  (forall handle, In (EDelete handle false) (history c) ->
                  control c = Failed) /\
  (forall c0 i m k,
     control c0 = At deleteMessageSqs ->
     data c0 = JIncident i ->
     nth_error (Messages i) 0 = Some m ->
     deleteOk w (count isDelete (trace c0)) = false ->
     (1 <= k)%nat ->
     run def w k c0 = failWith (log (EDelete (ReceiptHandle m) false) c0)).
Proof.
  intros def c. split; [|split; [|split]].
  - reflexivity.
  - pose proof (gateInv_execution props w consumer rejit n) as G.
    fold c in G. unfold gateInv in G.
    destruct (control c) as [s| |]; [destruct s|..]; split_hyps;
      try (rewrite H; cbn); cbn [afterDelete] in *; lia.
  - intros handle Hin.
    apply (fatal_event_fails c _ (fatalInv_execution _ _ _ _ _) Hin).
    reflexivity.
  - intros c0 i m k Hc Hd Hm Hw Hk. apply run_from_failed; try assumption.
    + apply (step_delete_fails props w c0 i m); assumption.
    + reflexivity.
Qed.

Lemma delete_failure_is_fatal_witness :
  control (execution (defaults true) deleteFails true false 78) = Failed /\
  history (execution (defaults true) deleteFails true false 78)
    = [EToggle sqsEventSource false true; EWait 10;
       EReceive (Some [probeMessage]);
       EInvoke "order-1" true; EDelete "handle-1" false].
Proof.
  split.
  - apply (delete_failure_is_fatal (defaults true) deleteFails true false 78)
      with (handle := "handle-1"%string).
    vm_compute. auto 10.
  - vm_compute. reflexivity.
Defined.

(** ** C8 *)

Lemma expectedRetryWaits_rev k :
  rev (expectedRetryWaits k)
  = map (fun j => 10 * 2 ^ Z.of_nat j) (seq 0 k).
Proof.
  induction k as [|k IH]; [reflexivity|].
  rewrite seq_S, map_app. cbn [expectedRetryWaits rev]. rewrite IH.
  reflexivity.
Qed.

Lemma transportInv_retries c :
  transportInv c ->
  exists k, (k <= 5)%nat /\
            retryWaits (trace c) = expectedRetryWaits k /\
            (count isReceive (trace c) <= S k)%nat.
Proof.
  unfold transportInv. intros [_ H].
  destruct (control c) as [s| |]; [destruct s|..]; split_hyps;
    try (eexists; repeat split; eassumption);
    try (exists 0%nat; repeat split; [lia | assumption | lia]).
  exists (retried c). repeat split; [assumption | assumption | lia].
Qed.

Lemma step_fetch props w c :
  control c = At getTesterMessage ->
  let c1 := step (CircuitBreakerSQSLambda.constructor props) w c in
  (control c1 = At getTesterMessage -> data c1 = data c) /\
  (control c1 = At triggerLambda -> attemptOf (data c1) = 1).
Proof.
  destruct c as [ctl d r tr ce re]; simpl_config. intros ->.
  unfold_step. break_step; simpl_config; split; intro Hc;
    try discriminate Hc; reflexivity.
Qed.

(** C8. The fetch asks for at most one message and every fetch returns
    at most one; the task carries its own retrier (interval 10 seconds,
    5 attempts, backoff rate 2), so that in every execution the retrier's
    waits are the first [k] of 10, 20, 40, 80, 160 seconds for some
    [k <= 5]; and those retries leave the attempt counter of the retry
    loop alone: a retry of the fetch does not change the state data, the
    successful fetch sets the counter to 1 however many retries preceded
    it, and whenever a probe is about to be made the counter is the number
    of probes made so far plus one. *)
Theorem fetch_retry_is_separate props w consumer rejit n :
  let def := CircuitBreakerSQSLambda.constructor props in
  let c := execution props w consumer rejit n in
  def getTesterMessage =
    Some (Task (receiveMessage 1)
            (Some {| selAttempt := 1; selRetryTime := 10 |}) RootPath
            (Some {| interval := 10; maxAttempts := 5; backoffRate := 2 |})
            None (Some triggerLambda)) /\
  (forall l, In (EReceive (Some l)) (history c) ->
             (List.length l <= 1)%nat) /\
  (exists k, (k <= 5)%nat /\
             retryWaits (history c)
               = map (fun j => 10 * 2 ^ Z.of_nat j) (seq 0 k) /\
             (count isReceive (trace c) <= S k)%nat) /\
  (control c = At triggerLambda ->
   attemptOf (data c) = Z.of_nat (count isInvoke (trace c)) + 1) /\
  (forall c0, control c0 = At getTesterMessage ->
     (control (step def w c0) = At getTesterMessage ->
      data (step def w c0) = data c0) /\
     (control (step def w c0) = At triggerLambda ->
      attemptOf (data (step def w c0)) = 1)).
Proof.
  intros def c.
  pose proof (transportInv_execution props w consumer rejit n) as T.
  fold c in T. split; [|split; [|split; [|split]]].
  - reflexivity.
  - intros l Hin. apply In_history in Hin. destruct T as [Hf _].
    rewrite forallb_forall in Hf. specialize (Hf _ Hin).
    cbn in Hf. apply Nat.leb_le. exact Hf.
  - destruct (transportInv_retries c T) as (k & Hk & Hw & Hr).
    exists k. repeat split; try assumption.
    unfold history. rewrite retryWaits_rev, Hw.
    apply expectedRetryWaits_rev.
  - intro Hc. pose proof (loopInv_execution props w consumer rejit n) as L.
    fold c in L. unfold loopInv in L. rewrite Hc in L.
    destruct L as (_ & L & _). exact L.
  - intros c0 Hc0. exact (step_fetch props w c0 Hc0).
Qed.

Lemma fetch_retry_is_separate_witness :
  retryWaits (history (execution (defaults false) flakyFetch true false 78))
    = [10; 20] /\
  history (execution (defaults false) flakyFetch true false 78)
    = [EToggle sqsEventSource false true; EWait 10;
       EReceive None; ERetryWait 10; EReceive None; ERetryWait 20;
       EReceive (Some [probeMessage]);
       EInvoke "order-1" false; EWait 20; EInvoke "order-1" true;
       EDelete "handle-1" true; EToggle sqsEventSource true true] /\
  (List.length [probeMessage] <= 1)%nat.
Proof.
  split; [vm_compute; reflexivity|].
  split; [vm_compute; reflexivity|].
  apply (fetch_retry_is_separate (defaults false) flakyFetch true false 78).
  vm_compute. auto 10.
Defined.

(** ** C9 *)

Lemma invokedBodies_app h1 h2 :
  invokedBodies (h1 ++ h2) = invokedBodies h1 ++ invokedBodies h2.
Proof.
  induction h1 as [|e h1 IH]; [reflexivity|].
  destruct e; cbn; rewrite IH; reflexivity.
Qed.

Lemma invokedBodies_In b h :
  In b (invokedBodies h) <-> exists ok, In (EInvoke b ok) h.
Proof.
  induction h as [|e h IH]; cbn [invokedBodies In].
  - split; [intros [] | intros (ok & [])].
  - destruct e; cbn [invokedBodies In];
      try (rewrite IH; split; intros (o & H); exists o;
           [right; exact H | destruct H as [H|H]; [discriminate H|exact H]]).
    split.
    + intros [<-|H]; [eexists; left; reflexivity|].
      apply IH in H. destruct H as (o & H). exists o. right. exact H.
    + intros (o & [H|H]); [left; congruence|].
      right. apply IH. exists o. exact H.
Qed.

Lemma invokedBodies_rev h : invokedBodies (rev h) = rev (invokedBodies h).
Proof.
  induction h as [|e h IH]; [reflexivity|].
  cbn [rev]. rewrite invokedBodies_app, IH.
  destruct e; cbn; rewrite ?app_nil_r; reflexivity.
Qed.

(** In a trace (newest first) where no fetch follows an invocation,
    nothing that is newer than an invocation is a fetch. *)
Lemma fetchFirst_split newer b ok older :
  fetchFirst (newer ++ EInvoke b ok :: older) ->
  forall r, ~ In (EReceive r) newer.
Proof.
  induction newer as [|e newer IH]; intros H r Hin; [destruct Hin|].
  destruct Hin as [->|Hin].
  - cbn in H. destruct H as [H _].
    rewrite invokedBodies_app in H. cbn in H.
    destruct (invokedBodies newer); discriminate H.
  - apply (IH (ltac:(destruct e; cbn in H; tauto)) r Hin).
Qed.

Lemma lastReceived_In tr l :
  lastReceived tr = Some l -> In (EReceive (Some l)) tr.
Proof.
  induction tr as [|e tr IH]; [discriminate|].
  destruct e as [| [l'|] | | | | |]; cbn; intro H; auto.
  injection H as ->. left. reflexivity.
Qed.

(** C9. The backoff step keeps the messages and changes only the counter
    (plus one) and the retry time (doubled).  After a probe that fails
    with the counter below 9, the workflow comes back to the probe with
    that state, having done nothing but the wait, and invokes the worker
    on the body of the same message.  In every execution all invocations
    carry the body of the first message of the one fetch that succeeded,
    and no fetch is made after an invocation. *)
Theorem backoff_keeps_probe_unit props w consumer rejit n :
  let def := CircuitBreakerSQSLambda.constructor props in
  let c := execution props w consumer rejit n in
  (forall i,
     Messages (CircuitBreakerSQSLambda.incrementParameters i) = Messages i /\
     Attempt (CircuitBreakerSQSLambda.incrementParameters i) = Attempt i + 1 /\
     RetryTime (CircuitBreakerSQSLambda.incrementParameters i)
       = 2 * RetryTime i) /\
  (forall c0 i m,
     control c0 = At triggerLambda ->
     data c0 = JIncident i ->
     nth_error (Messages i) 0 = Some m ->
     workerOk w (count isInvoke (trace c0)) (Body m) = false ->
     Attempt i + 1 < 10 ->
     control (run def w 4 c0) = At triggerLambda /\
     data (run def w 4 c0)
       = JIncident {| Messages := Messages i; Attempt := Attempt i + 1;
                      RetryTime := 2 * RetryTime i |} /\
     trace (run def w 4 c0)
       = EWait (2 * RetryTime i) :: EInvoke (Body m) false :: trace c0 /\
     exists ok,
       trace (run def w 5 c0)
         = EInvoke (Body m) ok :: trace (run def w 4 c0)) /\
  (forall b, In b (invokedBodies (history c)) ->
     exists l m, In (EReceive (Some l)) (history c) /\
                 nth_error l 0 = Some m /\ Body m = b) /\
  (forall b b', In b (invokedBodies (history c)) ->
                In b' (invokedBodies (history c)) -> b = b') /\
  (forall before b ok after r,
     history c = before ++ EInvoke b ok :: after ->
     ~ In (EReceive r) after).
Proof.
  intros def c.
  pose proof (unitInv_execution props w consumer rejit n) as U.
  fold c in U. destruct U as (Hs & Hf & _).
  assert (Hsame : forall b, In b (invokedBodies (history c)) ->
                    option_map Body (fetchedUnit (trace c)) = Some b).
  { intros b Hb. unfold history in Hb. rewrite invokedBodies_rev in Hb.
    apply in_rev in Hb. unfold sameUnit in Hs.
    rewrite Forall_forall in Hs. apply Hs. exact Hb. }
  split; [|split; [|split; [|split]]].
  - intro i. unfold CircuitBreakerSQSLambda.incrementParameters.
    simpl_config. repeat split. lia.
  - intros c0 i m Hc Hd Hm Hw Ha.
    pose proof (retry_cycle props w c0 i m Hc Hd Hm Hw Ha) as E.
    fold def in E.
    assert (E5 : run def w 5 c0 = step def w (run def w 4 c0))
      by (rewrite run_S; apply run_step_comm).
    rewrite E5, E; simpl_config.
    unfold CircuitBreakerSQSLambda.incrementParameters.
    replace (RetryTime i + RetryTime i) with (2 * RetryTime i) by lia.
    repeat split.
    exists (workerOk w (S (count isInvoke (trace c0))) (Body m)).
    unfold def. unfold_step. rewrite Hm. rewrite !count_cons. cbn [isInvoke].
    destruct (workerOk w (S (count isInvoke (trace c0))) (Body m));
      reflexivity.
  - intros b Hb. specialize (Hsame b Hb). unfold fetchedUnit in Hsame.
    destruct (lastReceived (trace c)) as [l|] eqn:Hl; [|discriminate].
    destruct (nth_error l 0) as [m|] eqn:Hm; [|discriminate].
    exists l, m. split; [|split].
    + apply In_history. apply lastReceived_In. exact Hl.
    + exact Hm.
    + cbn in Hsame. congruence.
  - intros b b' Hb Hb'. pose proof (Hsame b Hb). pose proof (Hsame b' Hb').
    congruence.
  - intros before b ok after r Hh Hin.
    assert (Ht : trace c = rev after ++ EInvoke b ok :: rev before).
    { unfold history in Hh. rewrite <- (rev_involutive (trace c)), Hh.
      rewrite rev_app_distr. cbn [rev]. rewrite <- app_assoc. reflexivity. }
    rewrite Ht in Hf.
    apply (fetchFirst_split _ _ _ _ Hf r). apply in_rev in Hin. exact Hin.
Qed.

Lemma backoff_keeps_probe_unit_witness :
  control (run (CircuitBreakerSQSLambda.constructor (defaults false))
             (workerAlwaysFails [probeMessage]) 4 firstProbe)
    = At triggerLambda /\
  data (run (CircuitBreakerSQSLambda.constructor (defaults false))
          (workerAlwaysFails [probeMessage]) 4 firstProbe)
    = JIncident {| Messages := [probeMessage]; Attempt := 1 + 1;
                   RetryTime := 2 * 10 |} /\
  trace (run (CircuitBreakerSQSLambda.constructor (defaults false))
           (workerAlwaysFails [probeMessage]) 4 firstProbe)
    = EWait (2 * 10) :: EInvoke "order-1" false :: trace firstProbe /\
  exists ok,
    trace (run (CircuitBreakerSQSLambda.constructor (defaults false))
             (workerAlwaysFails [probeMessage]) 5 firstProbe)
    = EInvoke "order-1" ok
        :: trace (run (CircuitBreakerSQSLambda.constructor (defaults false))
                    (workerAlwaysFails [probeMessage]) 4 firstProbe).
Proof.
  apply (backoff_keeps_probe_unit (defaults false)
           (workerAlwaysFails [probeMessage]) true false 0)
    with (c0 := firstProbe)
         (i := {| Messages := [probeMessage]; Attempt := 1;
                  RetryTime := 10 |})
         (m := probeMessage).
  - reflexivity.
  - reflexivity.
  - reflexivity.
  - reflexivity.
  - simpl. lia.
Defined.

(** Scenario B, as an example: the worker fails three probes and
    recovers at the fourth; the four probes are made on the same body and
    only one fetch is made. *)
Example scenarioB_history :
  let c := execution (defaults false) recoversAtFourth true false 78 in
  control c = Succeeded /\
  history c = [EToggle sqsEventSource false true; EWait 10;
               EReceive (Some [probeMessage]);
               EInvoke "order-1" false; EWait 20;
               EInvoke "order-1" false; EWait 40;
               EInvoke "order-1" false; EWait 80;
               EInvoke "order-1" true; EDelete "handle-1" true;
               EToggle sqsEventSource true true] /\
  consumerEnabled c = true.
Proof. vm_compute. repeat split. Qed.

(** ** C10: the rejitter stage *)

Lemma isRejitterOn_iff tr :
  In (EToggle rejitterSqsEventSource true true) tr
  <-> (1 <= count isRejitterOn tr)%nat.
Proof.
  split.
  - intro H. apply (count_In _ _ _ H). reflexivity.
  - intro H. destruct (count_pos _ _ H) as (e & Hin & He).
    destruct e as [[|] [|] [|]| | | | | |]; try discriminate. exact Hin.
Qed.

Lemma rejitInv_open c :
  rejitInv c -> rejitterEnabled c = true ->
  count isRejitterOn (trace c) = 1%nat /\
  count isRejitterOff (trace c) = 0%nat.
Proof.
  unfold rejitInv. intros H He.
  destruct (control c) as [s| |]; [destruct s|..]; split_hyps;
    try congruence; auto.
Qed.

(** The rejitter stage: once the call that enables the rejitter mapping
    has succeeded, the wait and the call that disables the mapping follow,
    whatever the state data. *)
Lemma rejitter_stage props w c :
  rejitter props = true ->
  control c = At enableRejitter ->
  mappingCallOk w (count isToggle (trace c)) = true ->
  let ok := mappingCallOk w (S (count isToggle (trace c))) in
  run (CircuitBreakerSQSLambda.constructor props) w 3 c =
  {| control := if ok then At enabledMapping else Failed;
     data := JOther; retried := 0;
     trace := EToggle rejitterSqsEventSource false ok
              :: EWait (CircuitBreakerSQSLambda.backoffDelay props)
              :: EToggle rejitterSqsEventSource true true :: trace c;
     consumerEnabled := consumerEnabled c;
     rejitterEnabled := negb ok |}.
Proof.
  destruct c as [ctl d r tr ce re]. intros Hp Hc Hw ok.
  simpl_config. subst ctl. subst ok. simpl_config.
  tick. rewrite Hp. simpl_config. rewrite Hw.
  tick. tick.
  rewrite !count_cons. cbn [isToggle].
  destruct (mappingCallOk w (S (count isToggle tr))); reflexivity.
Qed.

(** Scenario C, as an example: the worker succeeds at the first probe and
    the rejitter stage is on. *)
Example scenarioC_history :
  let c := execution (defaults true) allGood true false 78 in
  control c = Succeeded /\
  history c = [EToggle sqsEventSource false true; EWait 10;
               EReceive (Some [probeMessage]);
               EInvoke "order-1" true; EDelete "handle-1" true;
               EToggle rejitterSqsEventSource true true; EWait 60;
               EToggle rejitterSqsEventSource false true;
               EToggle sqsEventSource true true] /\
  consumerEnabled c = true /\ rejitterEnabled c = false.
Proof. vm_compute. repeat split. Qed.

(** ** C4 *)

(** C4 at a configured delay of 30 seconds.  The fetch initialises the
    counter to 1 and the retry time to 10, whatever the props: the
    [resultSelector] holds the literal 10.  With
    [initialBackoffDelay = 30] only the wait before the fetch is 30
    seconds; the retry time is 10, not 30, and the waits of a worker that
    never recovers are 30, 20, 40, ..., 2560. *)
Theorem retry_time_ignores_initialBackoffDelay :
  (forall props,
     CircuitBreakerSQSLambda.constructor props getTesterMessage =
     Some (Task (receiveMessage 1)
             (Some {| selAttempt := 1; selRetryTime := 10 |}) RootPath
             (Some {| interval := 10; maxAttempts := 5; backoffRate := 2 |})
             None (Some triggerLambda))) /\
  CircuitBreakerSQSLambda.defaultTimeout delay30 = 30 /\
  control (execution delay30 allGood true false 3) = At triggerLambda /\
  data (execution delay30 allGood true false 3)
    = JIncident {| Messages := [probeMessage]; Attempt := 1;
                   RetryTime := 10 |} /\
  retryTimeOf (data (execution delay30 allGood true false 3)) <> 30 /\
  waits (history (execution delay30 (workerAlwaysFails [probeMessage])
                    true false 78))
    = [30; 20; 40; 80; 160; 320; 640; 1280; 2560].
Proof.
  split; [intro props; reflexivity|].
  vm_compute. repeat split; discriminate.
Qed.

(* ================================================================== *)
(** * Further properties of the workflow *)

(** ** The fetch returns nothing, or fails for good *)

Lemma execution_from_run props w consumer rejit k n final :
  run (CircuitBreakerSQSLambda.constructor props) w k (start consumer rejit)
    = final ->
  terminal final = true -> (k <= n)%nat ->
  execution props w consumer rejit n = final.
Proof.
  intros E Ht Hk. unfold execution.
  rewrite (run_stable _ w k n); [exact E | rewrite E; exact Ht | exact Hk].
Qed.

Ltac tock :=
  tick; rewrite ?count_cons;
  cbn [count filter List.length isToggle isReceive isInvoke isDelete].

(** Deciding whether the retrier allows one more retry. *)
Ltac retry_test :=
  match goal with
  | |- context [Z.of_nat ?k <? ?m] =>
      let b := eval vm_compute in (Z.of_nat k <? m) in
      let E := fresh "E" in
      assert (E : (Z.of_nat k <? m) = b) by (vm_compute; reflexivity);
      rewrite E; clear E
  end.

(** X2. When the queue is empty at the fetch, the execution is failed
    without the worker being invoked: the fetch returns no message and
    the probe cannot be built.  The consumer's mapping stays disabled. *)
Theorem empty_queue_fails_closed props w consumer rejit n :
  mappingCallOk w 0 = true ->
  queueAt w 0 = Some [] ->
  (4 <= n)%nat ->
  let c := execution props w consumer rejit n in
  control c = Failed /\
  history c = [EToggle sqsEventSource false true;
               EWait (CircuitBreakerSQSLambda.defaultTimeout props);
               EReceive (Some [])] /\
  consumerEnabled c = false /\ rejitterEnabled c = rejit.
Proof.
  intros Hd Hq Hn.
  rewrite (execution_from_run props w consumer rejit 4 n
             {| control := Failed;
                data := JIncident {| Messages := []; Attempt := 1;
                                     RetryTime := 10 |};
                retried := 0;
                trace := [EReceive (Some []);
                          EWait (CircuitBreakerSQSLambda.defaultTimeout props);
                          EToggle sqsEventSource false true];
                consumerEnabled := false; rejitterEnabled := rejit |});
    [ cbv zeta; unfold history; simpl_config; repeat split
    | | reflexivity | exact Hn ].
  unfold start, CircuitBreakerSQSLambda.startState.
  tock. rewrite Hd. tock. tock. rewrite Hq. simpl_config.
  tock. reflexivity.
Qed.

Lemma empty_queue_fails_closed_witness :
  control (execution (defaults true) emptyQueue true false 78) = Failed /\
  history (execution (defaults true) emptyQueue true false 78)
    = [EToggle sqsEventSource false true; EWait 10; EReceive (Some [])] /\
  consumerEnabled (execution (defaults true) emptyQueue true false 78)
    = false /\
  rejitterEnabled (execution (defaults true) emptyQueue true false 78)
    = false.
Proof.
  apply (empty_queue_fails_closed (defaults true) emptyQueue true false 78).
  - reflexivity.
  - reflexivity.
  - lia.
Defined.

Lemma fetch_exhausted_run props w consumer rejit :
  mappingCallOk w 0 = true ->
  (forall k, (k <= 5)%nat -> queueAt w k = None) ->
  run (CircuitBreakerSQSLambda.constructor props) w 8 (start consumer rejit) =
  {| control := Failed; data := JOther; retried := 0;
     trace := [EReceive None; ERetryWait 160;
               EReceive None; ERetryWait 80;
               EReceive None; ERetryWait 40;
               EReceive None; ERetryWait 20;
               EReceive None; ERetryWait 10;
               EReceive None;
               EWait (CircuitBreakerSQSLambda.defaultTimeout props);
               EToggle sqsEventSource false true];
     consumerEnabled := false; rejitterEnabled := rejit |}.
Proof.
  intros Hd Hq.
  unfold start, CircuitBreakerSQSLambda.startState.
  tock. rewrite Hd. tock.
  tock. rewrite (Hq 0%nat) by lia. retry_test. simpl_config.
  tock. rewrite (Hq 1%nat) by lia. retry_test. simpl_config.
  tock. rewrite (Hq 2%nat) by lia. retry_test. simpl_config.
  tock. rewrite (Hq 3%nat) by lia. retry_test. simpl_config.
  tock. rewrite (Hq 4%nat) by lia. retry_test. simpl_config.
  tock. rewrite (Hq 5%nat) by lia. retry_test. simpl_config.
  reflexivity.
Qed.

(** X3. When the fetch fails at each of its six calls (the first and the
    five retries), the execution is failed after the retrier's waits of
    10, 20, 40, 80 and 160 seconds, without the worker being invoked, and
    the consumer's mapping stays disabled. *)
Theorem fetch_exhausted_fails_closed props w consumer rejit n :
  mappingCallOk w 0 = true ->
  (forall k, (k <= 5)%nat -> queueAt w k = None) ->
  (8 <= n)%nat ->
  let c := execution props w consumer rejit n in
  control c = Failed /\
  history c = [EToggle sqsEventSource false true;
               EWait (CircuitBreakerSQSLambda.defaultTimeout props);
               EReceive None; ERetryWait 10;
               EReceive None; ERetryWait 20;
               EReceive None; ERetryWait 40;
               EReceive None; ERetryWait 80;
               EReceive None; ERetryWait 160;
               EReceive None] /\
  count isInvoke (trace c) = 0%nat /\
  consumerEnabled c = false.
Proof.
  intros Hd Hq Hn.
  rewrite (execution_from_run props w consumer rejit 8 n _
             (fetch_exhausted_run props w consumer rejit Hd Hq)
             eq_refl Hn).
  cbv zeta. unfold history. simpl_config. repeat split.
Qed.

Lemma fetch_exhausted_fails_closed_witness :
  control (execution (defaults false) queueDown true false 78) = Failed /\
  history (execution (defaults false) queueDown true false 78)
    = [EToggle sqsEventSource false true; EWait 10;
       EReceive None; ERetryWait 10;
       EReceive None; ERetryWait 20;
       EReceive None; ERetryWait 40;
       EReceive None; ERetryWait 80;
       EReceive None; ERetryWait 160;
       EReceive None] /\
  count isInvoke
    (trace (execution (defaults false) queueDown true false 78)) = 0%nat /\
  consumerEnabled (execution (defaults false) queueDown true false 78)
    = false.
Proof.
  apply (fetch_exhausted_fails_closed (defaults false) queueDown
           true false 78).
  - reflexivity.
  - intros k _. reflexivity.
  - lia.
Defined.

(** ** Recovery *)

Lemma count_app p tr1 tr2 :
  count p (tr1 ++ tr2) = (count p tr1 + count p tr2)%nat.
Proof.
  unfold count. rewrite filter_app, length_app. reflexivity.
Qed.

Lemma count_failedProbes b k :
  count isInvoke (failedProbes b k) = k.
Proof.
  induction k as [|k IH]; [reflexivity|].
  cbn [failedProbes]. rewrite !count_cons. cbn [isInvoke]. rewrite IH.
  reflexivity.
Qed.

(** [k] failed probes in a row, when the worker fails at the invocations
    that the execution is about to make. *)
Lemma retry_loop_upto props w c m ms k :
  (k <= 8)%nat ->
  control c = At triggerLambda ->
  data c = JIncident {| Messages := m :: ms; Attempt := 1; RetryTime := 10 |} ->
  retried c = 0%nat ->
  (forall j b, (count isInvoke (trace c) <= j < count isInvoke (trace c) + k)%nat ->
               workerOk w j b = false) ->
  run (CircuitBreakerSQSLambda.constructor props) w (4 * k) c =
  {| control := At triggerLambda;
     data := JIncident {| Messages := m :: ms;
                          Attempt := 1 + Z.of_nat k;
                          RetryTime := backoff k |};
     retried := 0;
     trace := failedProbes (Body m) k ++ trace c;
     consumerEnabled := consumerEnabled c;
     rejitterEnabled := rejitterEnabled c |}.
Proof.
  intros Hk Hc Hd Hr Hw. induction k as [|k IH].
  - destruct c as [ctl d r tr ce re]; simpl_config. subst. reflexivity.
  - replace (4 * S k)%nat with (4 * k + 4)%nat by lia.
    rewrite run_add, IH; [|lia|intros j b Hj; apply Hw; lia].
    erewrite retry_cycle;
      [ | reflexivity | reflexivity | reflexivity
        | simpl_config; apply Hw; rewrite count_app, count_failedProbes; lia
        | simpl_config; lia ].
    simpl_config. cbn [failedProbes app].
    unfold CircuitBreakerSQSLambda.incrementParameters; simpl_config.
    rewrite <- backoff_S.
    replace (1 + Z.of_nat k + 1) with (1 + Z.of_nat (S k)) by lia.
    reflexivity.
Qed.

(** From a probe that succeeds to the end, when every later call
    succeeds. *)
Lemma recovery_tail props w c i m :
  control c = At triggerLambda ->
  data c = JIncident i ->
  nth_error (Messages i) 0 = Some m ->
  workerOk w (count isInvoke (trace c)) (Body m) = true ->
  (forall j, deleteOk w j = true) ->
  (forall j, mappingCallOk w j = true) ->
  run (CircuitBreakerSQSLambda.constructor props) w 6 c =
  {| control := Succeeded; data := JOther; retried := 0;
     trace := EToggle sqsEventSource true true
              :: rejitterPart props
              ++ EDelete (ReceiptHandle m) true
              :: EInvoke (Body m) true :: trace c;
     consumerEnabled := true;
     rejitterEnabled := if rejitter props then false
                        else rejitterEnabled c |}.
Proof.
  destruct c as [ctl d r tr ce re]; simpl_config.
  intros -> -> Hm Hw Hdel Hmap. unfold rejitterPart.
  destruct (rejitter props) eqn:Hp.
  - tick. rewrite Hm, Hw. tick. rewrite Hm. simpl_config.
    rewrite Hdel, Hp. simpl_config.
    tick. rewrite Hmap. tick. tick. rewrite Hmap.
    tick. rewrite Hmap. reflexivity.
  - tick. rewrite Hm, Hw. tick. rewrite Hm. simpl_config.
    rewrite Hdel, Hp. simpl_config.
    tick. rewrite Hmap. simpl_config.
    rewrite run_terminal by reflexivity. reflexivity.
Qed.

(** The whole execution when the worker recovers after [k] failed
    probes and every other call succeeds. *)
Lemma recovering_execution props w consumer rejit m ms k n :
  (k <= 8)%nat ->
  (forall j, mappingCallOk w j = true) ->
  queueAt w 0 = Some (m :: ms) ->
  (forall j b, (j < k)%nat -> workerOk w j b = false) ->
  workerOk w k (Body m) = true ->
  (forall j, deleteOk w j = true) ->
  (3 + (4 * k + 6) <= n)%nat ->
  execution props w consumer rejit n =
  {| control := Succeeded; data := JOther; retried := 0;
     trace := recoveredTrace props m k;
     consumerEnabled := true;
     rejitterEnabled := if rejitter props then false else rejit |}.
Proof.
  intros Hk Hmap Hq Hfail Hok Hdel Hn.
  assert (E : run (CircuitBreakerSQSLambda.constructor props) w (4 * k + 6)
                (execution props w consumer rejit 3) =
              {| control := Succeeded; data := JOther; retried := 0;
                 trace := recoveredTrace props m k;
                 consumerEnabled := true;
                 rejitterEnabled := if rejitter props then false
                                    else rejit |}).
  { rewrite (first_probe_reached props w consumer rejit (m :: ms)
               (Hmap 0%nat) Hq).
    change (sqsReceive (m :: ms) 1) with [m].
    rewrite run_add.
    rewrite (retry_loop_upto props w _ m [] k);
      [ | exact Hk | reflexivity | reflexivity | reflexivity
        | simpl_config; intros j b Hj; apply Hfail;
          cbn [count filter isInvoke List.length] in Hj; lia ].
    simpl_config.
    erewrite recovery_tail;
      [ | reflexivity | reflexivity | reflexivity | | exact Hdel
        | exact Hmap ].
    - reflexivity.
    - simpl_config. rewrite count_app, count_failedProbes.
      cbn [count filter isInvoke List.length]. rewrite Nat.add_0_r.
      exact Hok. }
  unfold execution in E. rewrite <- run_add in E.
  exact (execution_from_run props w consumer rejit _ n _ E eq_refl Hn).
Qed.

Lemma count_rejitterPart props : count isInvoke (rejitterPart props) = 0%nat.
Proof. unfold rejitterPart. destruct (rejitter props); reflexivity. Qed.

Lemma count_recoveredTrace props m k :
  count isInvoke (recoveredTrace props m k) = S k.
Proof.
  unfold recoveredTrace.
  rewrite count_cons, count_app, count_rejitterPart, !count_cons, count_app,
    count_failedProbes.
  cbn [isInvoke count filter List.length]. lia.
Qed.

(** X4. When every call on the services succeeds and the worker fails
    [k] probes ([k <= 8]) before it succeeds, the execution succeeds
    with [k + 1] probes: the message deleted is the probe message (by its
    receipt handle), the rejitter stage runs if it is configured, and the
    consumer's mapping is enabled at the end. *)
Theorem recovery_restores props w consumer rejit m ms k n :
  (k <= 8)%nat ->
  (forall j, mappingCallOk w j = true) ->
  queueAt w 0 = Some (m :: ms) ->
  (forall j b, (j < k)%nat -> workerOk w j b = false) ->
  workerOk w k (Body m) = true ->
  (forall j, deleteOk w j = true) ->
  (3 + (4 * k + 6) <= n)%nat ->
  let c := execution props w consumer rejit n in
  control c = Succeeded /\
  trace c =
    EToggle sqsEventSource true true
    :: rejitterPart props
    ++ EDelete (ReceiptHandle m) true
    :: EInvoke (Body m) true
    :: failedProbes (Body m) k
    ++ [EReceive (Some [m]);
        EWait (CircuitBreakerSQSLambda.defaultTimeout props);
        EToggle sqsEventSource false true] /\
  count isInvoke (trace c) = S k /\
  consumerEnabled c = true /\
  rejitterEnabled c = (if rejitter props then false else rejit).
Proof.
  intros Hk Hmap Hq Hfail Hok Hdel Hn.
  rewrite (recovering_execution props w consumer rejit m ms k n)
    by assumption.
  cbv zeta. simpl_config. rewrite count_recoveredTrace. repeat split.
Qed.

Lemma recovery_restores_witness :
  control (execution (defaults true) recoversAtFourth true false 78)
    = Succeeded /\
  trace (execution (defaults true) recoversAtFourth true false 78) =
    EToggle sqsEventSource true true
    :: rejitterPart (defaults true)
    ++ EDelete "handle-1" true
    :: EInvoke "order-1" true
    :: failedProbes "order-1" 3
    ++ [EReceive (Some [probeMessage]); EWait 10;
        EToggle sqsEventSource false true] /\
  count isInvoke
    (trace (execution (defaults true) recoversAtFourth true false 78))
    = 4%nat /\
  consumerEnabled (execution (defaults true) recoversAtFourth true false 78)
    = true /\
  rejitterEnabled (execution (defaults true) recoversAtFourth true false 78)
    = false.
Proof.
  apply (recovery_restores (defaults true) recoversAtFourth true false
           probeMessage
           [{| Body := "order-2"; ReceiptHandle := "handle-2" |}] 3 78).
  - lia.
  - intro j. reflexivity.
  - reflexivity.
  - intros j b Hj. destruct j as [|[|[|j]]]; [reflexivity.. | lia].
  - reflexivity.
  - intro j. reflexivity.
  - lia.
Defined.

(** ** The example function behind the circuit breaker *)

Lemma example_worker envAt services j b :
  workerOk (protectingExample envAt services) j b
  = negb (ExampleHandler.shouldError (envAt j)).
Proof.
  unfold protectingExample, ExampleHandler.handler. cbn [workerOk].
  destruct (ExampleHandler.shouldError (envAt j)); reflexivity.
Qed.

Lemma shouldError_true env :
  env "SHOULD_ERROR"%string = Some "true"%string ->
  ExampleHandler.shouldError env = true.
Proof. unfold ExampleHandler.shouldError. intros ->. reflexivity. Qed.

Lemma shouldError_other env :
  env "SHOULD_ERROR"%string <> Some "true"%string ->
  ExampleHandler.shouldError env = false.
Proof.
  unfold ExampleHandler.shouldError. intro H.
  destruct (env "SHOULD_ERROR"%string) as [v|]; [|reflexivity].
  destruct (String.eqb_spec v "true"); [|reflexivity].
  subst. destruct (H eq_refl).
Qed.



(** X6. With the example function as the protected function: when
    [SHOULD_ERROR] is ["true"] for the first [k] invocations ([k <= 8])
    and is anything else, or unset, at the next one, and the services
    answer, the execution succeeds after [k + 1] probes and the
    consumer's mapping is enabled again. *)
Theorem example_function_recovery
    props envAt services consumer rejit m ms k n :
  (k <= 8)%nat ->
  (forall j, (j < k)%nat ->
             envAt j "SHOULD_ERROR"%string = Some "true"%string) ->
  envAt k "SHOULD_ERROR"%string <> Some "true"%string ->
  (forall j, mappingCallOk services j = true) ->
  queueAt services 0 = Some (m :: ms) ->
  (forall j, deleteOk services j = true) ->
  (3 + (4 * k + 6) <= n)%nat ->
  let c := execution props (protectingExample envAt services)
             consumer rejit n in
  control c = Succeeded /\
  count isInvoke (trace c) = S k /\
  In (EDelete (ReceiptHandle m) true) (history c) /\
  consumerEnabled c = true.
Proof.
  intros Hk Hon Hoff Hmap Hq Hdel Hn.
  rewrite (recovering_execution props (protectingExample envAt services)
             consumer rejit m ms k n);
    [ | exact Hk | exact Hmap | exact Hq | | | exact Hdel | exact Hn ].
  - cbv zeta. unfold history. simpl_config.
    rewrite count_recoveredTrace. repeat split.
    apply -> in_rev. unfold recoveredTrace.
    right. apply in_or_app. right. left. reflexivity.
  - intros j b Hj. rewrite example_worker, shouldError_true by auto.
    reflexivity.
  - rewrite example_worker, shouldError_other by exact Hoff. reflexivity.
Qed.

Lemma example_function_recovery_witness :
  control (execution (defaults true)
             (protectingExample (switchedOffAfter 3) allGood)
             true false 78) = Succeeded /\
  count isInvoke
    (trace (execution (defaults true)
              (protectingExample (switchedOffAfter 3) allGood)
              true false 78)) = 4%nat /\
  In (EDelete "handle-1" true)
     (history (execution (defaults true)
                 (protectingExample (switchedOffAfter 3) allGood)
                 true false 78)) /\
  consumerEnabled
    (execution (defaults true)
       (protectingExample (switchedOffAfter 3) allGood)
       true false 78) = true.
Proof.
  apply (example_function_recovery (defaults true) (switchedOffAfter 3)
           allGood true false probeMessage [] 3 78).
  - lia.
  - intros j Hj. destruct j as [|[|[|j]]]; [reflexivity.. | lia].
  - discriminate.
  - intro j. reflexivity.
  - reflexivity.
  - intro j. reflexivity.
  - lia.
Defined.

(** ** The order of the probe, the deletion and the fetch *)












(** ** Without the rejitter stage *)





(** ** The incident object and the time spent waiting *)

Lemma dataInv_step props w c :
  loopInv props c -> dataInv c ->
  dataInv (step (CircuitBreakerSQSLambda.constructor props) w c).
Proof.
  destruct c as [ctl d r tr ce re]; destruct ctl as [s| |];
    [|intros _ H; exact H|intros _ H; exact H].
  unfold loopInv, dataInv; simpl_config; intros [_ L] H.
  destruct s; unfold_step; break_step; simpl_config; simpl_trace;
    try exact I; try assumption;
    try (exists 0%nat; repeat split; lia).
  destruct H as (k & Hk & Ha & Ht). split_hyps.
  exists (S k). rewrite backoff_S. repeat split; lia.
Qed.

Lemma backoff_0 : backoff 0 = 10.
Proof. reflexivity. Qed.

Lemma timeInv_step props w c :
  loopInv props c -> timeInv props c ->
  timeInv props (step (CircuitBreakerSQSLambda.constructor props) w c).
Proof.
  destruct c as [ctl d r tr ce re]; destruct ctl as [s| |];
    [|intros _ H; exact H|intros _ H; exact H].
  unfold loopInv, timeInv, rejitterSeconds, totalSeconds; simpl_config;
    intros [_ L] H.
  destruct (rejitter props) eqn:Hp;
    destruct s; unfold_step; rewrite ?Hp; break_step; simpl_config;
    simpl_trace; cbn [waits fold_right] in *; split_hyps;
    try congruence;
    rewrite ?backoff_S;
    try match goal with
        | H : count _ _ = 0%nat |- _ => rewrite H in *; rewrite ?backoff_0
        end;
    try lia.
Qed.

Lemma extended_invariants props w consumer rejit n :
  let c := execution props w consumer rejit n in
  loopInv props c /\ dataInv c /\ timeInv props c.
Proof.
  unfold execution.
  apply (run_invariant _ w
           (fun c => loopInv props c /\ dataInv c /\ timeInv props c)).
  - intros c (L & D & T). split; [|split].
    + apply loopInv_step. exact L.
    + apply dataInv_step; assumption.
    + apply timeInv_step; assumption.
  - split; [apply loopInv_start|]. split; reflexivity.
Qed.

Lemma backoff_le n m : (n <= m)%nat -> backoff n <= backoff m.
Proof.
  intro H. unfold backoff.
  apply Z.mul_le_mono_nonneg_l; [lia|].
  apply Z.pow_le_mono_r; lia.
Qed.

Lemma backoff_8 : backoff 8 = 2560.
Proof. reflexivity. Qed.

Lemma backoff_9 : backoff 9 = 5120.
Proof. reflexivity. Qed.



Lemma waits_rev h : waits (rev h) = rev (waits h).
Proof.
  induction h as [|e h IH]; [reflexivity|].
  cbn [rev]. rewrite waits_app, IH.
  destruct e; cbn; rewrite ?app_nil_r; reflexivity.
Qed.

Lemma totalSeconds_app l1 l2 :
  totalSeconds (l1 ++ l2) = totalSeconds l1 + totalSeconds l2.
Proof.
  unfold totalSeconds. induction l1 as [|x l1 IH]; cbn; [reflexivity|].
  rewrite IH. lia.
Qed.

Lemma totalSeconds_rev l : totalSeconds (rev l) = totalSeconds l.
Proof.
  induction l as [|x l IH]; [reflexivity|].
  cbn [rev]. rewrite totalSeconds_app, IH. unfold totalSeconds. cbn. lia.
Qed.

Lemma expectedRetryWaits_total k :
  (k <= 5)%nat -> totalSeconds (expectedRetryWaits k) <= 310.
Proof.
  intro H.
  destruct k as [|[|[|[|[|[|k]]]]]]; try lia; vm_compute; discriminate.
Qed.

(* ================================================================== *)
(** * Further properties of the rejitter Lambda *)

(** X11. The numbers that [createRejitterLogic] writes into the
    environment of the rejitter Lambda with [toString] are read back
    unchanged by the handler's [Number], for all integers: the handler
    computes its delays from the construct's [rejitterInitialBackoffDelay]
    and [rejitterDelay] (or their defaults, 60 and 120) and sends to the
    construct's queue. *)
Theorem rejitter_environment_round_trip
    (queueUrl : string) (props : CircuitBreakerLambdaProps) :
  let env := rejitterEnvironment queueUrl props in
  RejitterLambda.Number (env "INITIAL_DELAY"%string)
    = Some (rejitterInitialBackoffDelay props ?? 60) /\
  RejitterLambda.Number (env "JITTER_DELAY"%string)
    = Some (rejitterDelay props ?? 120) /\
  env "QUEUE_URL"%string = Some queueUrl /\
  forall fl random k,
    RejitterLambda.delay fl env random k
    = Some ((rejitterInitialBackoffDelay props ?? 60)
            + Qfloor (fl (random k
                          * inject_Z ((rejitterDelay props ?? 120) - 1))%Q)).
Proof.
  intros env. unfold env, rejitterEnvironment.
  rewrite environment_INITIAL_DELAY, environment_JITTER_DELAY,
    environment_QUEUE_URL, !Number_toString.
  repeat split. intros fl random k. apply delay_environment.
Qed.

(** X12. When [INITIAL_DELAY] or [JITTER_DELAY] is missing from the
    environment, the handler still builds one request per record, with
    the record's body, and the delay of every request is [NaN]. *)
Theorem missing_delay_gives_nan
    (fl : Q -> Q) (env : string -> option string) (random : nat -> Q)
    (event : list RejitterLambda.SQSRecord) :
  env "INITIAL_DELAY"%string = None \/ env "JITTER_DELAY"%string = None ->
  RejitterLambda.handler fl env random event
  = map (fun r => {| RejitterLambda.QueueUrl := env "QUEUE_URL"%string;
                     RejitterLambda.MessageBody := RejitterLambda.body r;
                     RejitterLambda.DelaySeconds := None |}) event.
Proof.
  intro H. unfold RejitterLambda.handler. generalize 0%nat.
  induction event as [|r rest IH]; intro k; [reflexivity|].
  cbn [RejitterLambda.sendAll map]. rewrite IH. f_equal. f_equal.
  unfold RejitterLambda.delay.
  destruct H as [H|H]; rewrite H; cbn [RejitterLambda.Number];
    [reflexivity|].
  destruct (RejitterLambda.Number (env "INITIAL_DELAY"%string)); reflexivity.
Qed.

Lemma missing_delay_gives_nan_witness :
  RejitterLambda.handler exactProduct withoutInitialDelay drawHalf
    [ {| RejitterLambda.body := "order-7" |};
      {| RejitterLambda.body := "order-8" |} ]
  = [ {| RejitterLambda.QueueUrl := Some "https://sqs/queue"%string;
         RejitterLambda.MessageBody := "order-7"%string;
         RejitterLambda.DelaySeconds := None |};
      {| RejitterLambda.QueueUrl := Some "https://sqs/queue"%string;
         RejitterLambda.MessageBody := "order-8"%string;
         RejitterLambda.DelaySeconds := None |} ].
Proof.
  apply (missing_delay_gives_nan exactProduct withoutInitialDelay drawHalf).
  left. reflexivity.
Defined.

(** X13. With a jitter window of one second ([rejitterDelay = 1]) there
    is no jitter: every request is delayed by exactly the initial
    delay. *)
Theorem window_of_one_has_no_jitter
    (fl : Q -> Q) (random : nat -> Q) (queueUrl : string)
    (props : CircuitBreakerLambdaProps)
    (event : list RejitterLambda.SQSRecord) :
  (forall a b, a <= b -> fl a <= fl b)%Q ->
  (forall z : Z, Z.abs z <= 2 ^ 53 -> (fl (inject_Z z) == inject_Z z)%Q) ->
  (forall k, 0 <= random k /\ random k < 1)%Q ->
  rejitterDelay props ?? 120 = 1 ->
  map RejitterLambda.DelaySeconds
    (RejitterLambda.handler fl (rejitterEnvironment queueUrl props)
       random event)
  = map (fun _ => Some (rejitterInitialBackoffDelay props ?? 60)) event.
Proof.
  intros Hmono Hint Hrand HJ.
  unfold RejitterLambda.handler, rejitterEnvironment. generalize 0%nat.
  induction event as [|r rest IH]; intro k; [reflexivity|].
  cbn [RejitterLambda.sendAll map RejitterLambda.DelaySeconds].
  rewrite IH, delay_environment. f_equal. f_equal.
  destruct (Hrand k) as [H0 H1].
  pose proof (jitter_floor_range fl (random k)
                (CircuitBreakerSQSLambda.rejitterRange props)
                Hmono Hint H0 H1) as H.
  unfold CircuitBreakerSQSLambda.rejitterRange,
    CircuitBreakerSQSLambda.backoffDelay in *.
  rewrite HJ in *. specialize (H ltac:(lia)). lia.
Qed.

Lemma window_of_one_has_no_jitter_witness :
  map RejitterLambda.DelaySeconds
    (RejitterLambda.handler exactProduct
       (rejitterEnvironment "https://sqs/queue" windowOfOne) drawHigh
       [ {| RejitterLambda.body := "order-7" |};
         {| RejitterLambda.body := "order-8" |} ])
  = [Some 45; Some 45].
Proof.
  apply (window_of_one_has_no_jitter exactProduct drawHigh
           "https://sqs/queue" windowOfOne
           [ {| RejitterLambda.body := "order-7" |};
             {| RejitterLambda.body := "order-8" |} ]).
  - intros a b H; exact H.
  - intros z _; reflexivity.
  - intro k; split; [discriminate | reflexivity].
  - reflexivity.
Defined.

(* ================================================================== *)
(** * The rejitter stage that cannot be switched off *)

Lemma stuckInv_stepWith faults props w c :
  stuckInv c ->
  stuckInv (stepWith faults (CircuitBreakerSQSLambda.constructor props) w c).
Proof.
  destruct c as [ctl d r tr ce re]; destruct ctl as [s| |];
    [|intro H; exact H|intro H; exact H].
  unfold stuckInv; simpl_config; intros H.
  destruct s; unfold_step; break_step; simpl_config; split_hyps;
    rewrite ?count_cons; cbn [isRejitterOffFailed];
    try (right; split; congruence);
    try (left; assumption);
    repeat split; try assumption; try congruence.
Qed.




(* ================================================================== *)
(** * Executions in which the Lambda service raises exceptions *)

Lemma stepsLeftWith_decreases faults props w c :
  terminal c = false ->
  (stepsLeftWith
     (stepWith faults (CircuitBreakerSQSLambda.constructor props) w c)
   < stepsLeftWith c)%nat.
Proof.
  destruct c as [ctl d r tr ce re]; destruct ctl as [s| |];
    try discriminate; intros _.
  destruct s; unfold_step; break_step;
    cbv [stepsLeftWith attemptOf cyclesLeft]; simpl_config; lia.
Qed.

Lemma runWith_reaches_terminal faults props w n c :
  (stepsLeftWith c <= n)%nat ->
  terminal (runWith faults (CircuitBreakerSQSLambda.constructor props) w n c)
  = true.
Proof.
  revert c; induction n as [|n IH]; intros c Hc.
  - simpl. destruct c as [ctl d r tr ce re]; destruct ctl as [s| |];
      try reflexivity.
    destruct s; cbv [stepsLeftWith] in Hc; simpl_config; lia.
  - simpl. destruct (terminal c) eqn:Ht.
    + rewrite stepWith_terminal by exact Ht.
      rewrite runWith_terminal by exact Ht. exact Ht.
    + apply IH. pose proof (stepsLeftWith_decreases faults props w c Ht). lia.
Qed.

Lemma executionWith_ends faults props w consumer rejit n :
  (100 <= n)%nat ->
  terminal (executionWith faults props w consumer rejit n) = true.
Proof.
  intro Hn. apply runWith_reaches_terminal. exact Hn.
Qed.

Lemma executionWith_stable faults props w consumer rejit n :
  (100 <= n)%nat ->
  executionWith faults props w consumer rejit n
  = executionWith faults props w consumer rejit 100.
Proof.
  intro Hn. unfold executionWith.
  apply (runWith_stable faults _ w 100 n); [|exact Hn].
  apply runWith_reaches_terminal. apply le_n.
Qed.

(** ** The retry loop under exceptions of the Lambda service *)

Ltac simpl_probe :=
  rewrite ?count_cons in *;
  cbn [isInvoke isInvokeAttempt isToggle isReceive isDelete
       waits expectedLoopWaits waitBefore attemptOf retryTimeOf
       Attempt RetryTime Messages app] in *.

Ltac probe_facts :=
  simpl_probe;
  repeat split; try assumption; try lia; try congruence;
  try (rewrite backoff_S; lia);
  try (rewrite waitBefore_backoff by lia; congruence);
  try (left; congruence);
  try (right; split; congruence).

Ltac probe_cases :=
  first [ solve [exists 0%nat; probe_facts]
        | solve [exists 1%nat; probe_facts]
        | solve [exists 9%nat; probe_facts]
        | match goal with
          | k : nat |- _ =>
              first [ solve [exists k; probe_facts]
                    | solve [exists (S k); probe_facts] ]
          end ].

Lemma probeInv_stepWith faults props w c :
  probeInv props c ->
  probeInv props
    (stepWith faults (CircuitBreakerSQSLambda.constructor props) w c).
Proof.
  destruct c as [ctl d r tr ce re]; destruct ctl as [s| |];
    [|intro H; exact H|intro H; exact H].
  unfold probeInv; simpl_config; intros [k H].
  destruct s; unfold_step; break_step; simpl_config; split_hyps; subst;
    try probe_cases.
  - (* the ceiling is reached *)
    simpl_probe. assert (k = 9%nat) by lia. subst k. probe_cases.
  - (* the call that enables the consumer again fails *)
    destruct (rejitter props); probe_cases.
Qed.

Lemma probeInv_start props consumer rejit :
  probeInv props (start consumer rejit).
Proof. exists 0%nat. unfold start; cbn. auto. Qed.

Lemma probeInv_executionWith faults props w consumer rejit n :
  probeInv props (executionWith faults props w consumer rejit n).
Proof.
  unfold executionWith. apply runWith_invariant.
  - intros c; apply probeInv_stepWith.
  - apply probeInv_start.
Qed.

Lemma count_nil p : count p [] = 0%nat.
Proof. reflexivity. Qed.

(** When the fetch returns a message and the function never returns
    normally, only the [Fail] state ends the execution. *)
Lemma neverRecoversInv_stepWith faults props w j m ms c :
  mappingCallOk w 0 = true ->
  (j <= 5)%nat ->
  (forall i, (i < j)%nat -> queueAt w i = None) ->
  queueAt w j = Some (m :: ms) ->
  (forall k b, workerOk w k b = false) ->
  probeInv props c ->
  neverRecoversInv (CircuitBreakerSQSLambda.defaultTimeout props) j c ->
  neverRecoversInv (CircuitBreakerSQSLambda.defaultTimeout props) j
    (stepWith faults (CircuitBreakerSQSLambda.constructor props) w c).
Proof.
  intros Hd Hj Hnone Hq Hw.
  destruct c as [ctl d r tr ce re]; destruct ctl as [s| |];
    [|intros _ H; exact H|intros _ H; exact H].
  unfold probeInv, neverRecoversInv; simpl_config; intros [k P] H.
  destruct s; try contradiction; unfold_step;
    try (subst tr; rewrite count_nil, Hd);
    try (rewrite (proj1 H);
         destruct (Nat.eq_dec r j) as [->|Hne];
         [rewrite Hq | rewrite (Hnone r) by lia]);
    rewrite ?Hw;
    break_step; simpl_config; cbn [firstMessage] in *;
    simpl_probe; split_hyps;
    try congruence; try reflexivity; try assumption; try lia;
    try (repeat split; (assumption || lia)).
  cbv [sqsReceive]. cbn. discriminate.
Qed.

Lemma neverRecovers_executionWith faults props w consumer rejit n :
  mappingCallOk w 0 = true ->
  fetchReturnsMessage w ->
  (forall k b, workerOk w k b = false) ->
  let c := executionWith faults props w consumer rejit n in
  probeInv props c /\
  exists j,
    neverRecoversInv (CircuitBreakerSQSLambda.defaultTimeout props) j c.
Proof.
  intros Hd (j & m & ms & Hj & Hnone & Hq) Hw c.
  assert (H : probeInv props c /\
              neverRecoversInv
                (CircuitBreakerSQSLambda.defaultTimeout props) j c).
  { unfold c, executionWith.
    apply (runWith_invariant faults _ w
             (fun c => probeInv props c /\
                       neverRecoversInv
                         (CircuitBreakerSQSLambda.defaultTimeout props) j c)).
    - intros c' [P N]. split.
      + apply probeInv_stepWith. exact P.
      + apply (neverRecoversInv_stepWith faults props w j m ms);
          assumption.
    - split; [apply probeInv_start | reflexivity]. }
  destruct H as [P N]. split; [exact P | exists j; exact N].
Qed.

(** ** The two mappings under exceptions of the Lambda service *)

Lemma drainInv_stepWith faults props r0 w c :
  drainInv r0 c ->
  drainInv r0
    (stepWith faults (CircuitBreakerSQSLambda.constructor props) w c).
Proof.
  destruct c as [ctl d r tr ce re]; destruct ctl as [s| |];
    [|intro H; exact H|intro H; exact H].
  unfold drainInv; simpl_config; intros H.
  destruct s; unfold_step; break_step; simpl_config;
    repeat match goal with
           | H : _ \/ _ |- _ => destruct H
           end;
    split_hyps; subst; simpl_events;
    first [ solve [repeat split; try assumption; try lia; try congruence]
          | solve [left; repeat split; try assumption; try lia; try congruence]
          | solve [right; left; repeat split;
                   try assumption; try lia; try congruence]
          | solve [right; right; repeat split;
                   try assumption; try lia; try congruence]
          | solve [right; repeat split;
                   try assumption; try lia; try congruence] ].
Qed.

Lemma drainInv_executionWith faults props w consumer rejit n :
  drainInv rejit (executionWith faults props w consumer rejit n).
Proof.
  unfold executionWith. apply runWith_invariant.
  - intros c; apply drainInv_stepWith.
  - unfold drainInv, start; cbn. auto.
Qed.

Lemma gateInv_executionWith faults props w consumer rejit n :
  gateInv props consumer (executionWith faults props w consumer rejit n).
Proof.
  unfold executionWith. apply runWith_invariant.
  - intros c; apply gateInv_stepWith.
  - unfold gateInv, start; cbn. auto.
Qed.

Lemma firstInv_executionWith faults props w consumer rejit n :
  firstInv (executionWith faults props w consumer rejit n).
Proof.
  unfold executionWith. apply runWith_invariant.
  - intros c; apply firstInv_stepWith.
  - reflexivity.
Qed.

Lemma stuckInv_executionWith faults props w consumer rejit n :
  stuckInv (executionWith faults props w consumer rejit n).
Proof.
  unfold executionWith. apply runWith_invariant.
  - intros c; apply stuckInv_stepWith.
  - unfold stuckInv, start; cbn. auto.
Qed.

(** ** The waits of the retry loop *)

Lemma expectedLoopWaits_rev T n :
  rev (expectedLoopWaits T n) = map (waitBefore T) (seq 0 n).
Proof.
  induction n as [|n IH]; [reflexivity|].
  rewrite seq_S, map_app. cbn [expectedLoopWaits rev]. rewrite IH.
  reflexivity.
Qed.

Lemma lastWait_waits tr : lastWait tr = hd_error (waits tr).
Proof.
  induction tr as [|e tr IH]; [reflexivity|].
  destruct e; cbn [lastWait waits hd_error]; auto.
Qed.

Lemma backoff_attempt k a :
  a = Z.of_nat k + 1 -> backoff k = 10 * 2 ^ (a - 1).
Proof. intros ->. unfold backoff. f_equal. f_equal. lia. Qed.

Lemma probeInv_counts props c :
  probeInv props c ->
  (count isInvoke (trace c) <= 9)%nat /\
  (count isInvokeAttempt (trace c) <= 63)%nat.
Proof.
  unfold probeInv. intros [k H].
  destruct (control c) as [s| |]; [destruct s|..]; split_hyps; lia.
Qed.

Lemma probeInv_at_probe props c :
  probeInv props c -> control c = At triggerLambda ->
  exists k, (k <= 8)%nat /\ attemptOf (data c) = Z.of_nat k + 1 /\
            retryTimeOf (data c) = backoff k /\
            lastWait (trace c)
            = Some (waitBefore (CircuitBreakerSQSLambda.defaultTimeout props) k)
            /\ (retried c <= 6)%nat.
Proof.
  unfold probeInv. intros [k H] Hc. rewrite Hc in H. split_hyps.
  exists k. repeat split; try assumption.
  rewrite lastWait_waits, H2. reflexivity.
Qed.

Lemma probeInv_waits props c :
  probeInv props c ->
  exists k, (k <= 9)%nat /\
    (waits (history c)
     = map (waitBefore (CircuitBreakerSQSLambda.defaultTimeout props))
           (seq 0 k) \/
     rejitter props = true /\
     waits (history c)
     = map (waitBefore (CircuitBreakerSQSLambda.defaultTimeout props))
           (seq 0 k)
       ++ [CircuitBreakerSQSLambda.backoffDelay props]).
Proof.
  unfold probeInv, history. intros [k H]. rewrite waits_rev.
  assert (E : forall j l,
             waits (trace c) = l ++ expectedLoopWaits
                 (CircuitBreakerSQSLambda.defaultTimeout props) j ->
             rev (waits (trace c))
             = map (waitBefore (CircuitBreakerSQSLambda.defaultTimeout props))
                   (seq 0 j) ++ rev l).
  { intros j l ->. rewrite rev_app_distr, expectedLoopWaits_rev.
    reflexivity. }
  destruct (control c) as [s| |]; [destruct s|..]; split_hyps;
    try (exists 0%nat; split; [lia|left];
         rewrite (E 0%nat []), app_nil_r by assumption; reflexivity);
    try (exists k; split; [lia|left];
         rewrite (E k []), app_nil_r by assumption; reflexivity);
    try (exists (S k); split; [lia|left];
         rewrite (E (S k) []), app_nil_r by assumption; reflexivity).
  - exists 1%nat. split; [lia|left].
    rewrite (E 1%nat []), app_nil_r by assumption; reflexivity.
  - exists 9%nat. split; [lia|left].
    rewrite (E 9%nat []), app_nil_r by assumption; reflexivity.
  - exists (S k). split; [lia|right]. split; [assumption|].
    rewrite (E (S k) [CircuitBreakerSQSLambda.backoffDelay props])
      by assumption. reflexivity.
  - exists (S k). split; [lia|].
    destruct (rejitter props); [right; split; [reflexivity|] | left].
    + rewrite (E (S k) [CircuitBreakerSQSLambda.backoffDelay props])
        by assumption. reflexivity.
    + rewrite (E (S k) []), app_nil_r by assumption. reflexivity.
  - exists (S k). split; [lia|].
    destruct (rejitter props); [right; split; [reflexivity|] | left].
    + rewrite (E (S k) [CircuitBreakerSQSLambda.backoffDelay props])
        by assumption. reflexivity.
    + rewrite (E (S k) []), app_nil_r by assumption. reflexivity.
  - exists k. split; [lia|].
    destruct H0 as [H0|[Hr H0]]; [left | right; split; [assumption|]].
    + rewrite (E k []), app_nil_r by assumption. reflexivity.
    + rewrite (E k [CircuitBreakerSQSLambda.backoffDelay props])
        by assumption. reflexivity.
Qed.

(** What is left of an execution in which the fetch returns a message
    and the function never returns normally. *)
Lemma never_recovering_executionWith faults props w consumer rejit n :
  mappingCallOk w 0 = true ->
  fetchReturnsMessage w ->
  (forall k b, workerOk w k b = false) ->
  (100 <= n)%nat ->
  let c := executionWith faults props w consumer rejit n in
  control c = Failed /\ attemptOf (data c) = 10 /\
  waits (trace c)
  = expectedLoopWaits (CircuitBreakerSQSLambda.defaultTimeout props) 9 /\
  (9 <= count isInvokeAttempt (trace c))%nat.
Proof.
  intros Hd Hq Hw Hn c.
  destruct (neverRecovers_executionWith faults props w consumer rejit n
              Hd Hq Hw) as [_ [j N]].
  pose proof (executionWith_ends faults props w consumer rejit n Hn) as Ht.
  fold c in N, Ht. unfold neverRecoversInv in N. unfold terminal in Ht.
  destruct (control c) as [s| |]; [discriminate | destruct N |].
  destruct N as (Ha & Hw' & Hc). auto.
Qed.

(** Without exceptions of the Lambda service every call reaches the
    function. *)
Lemma count_attempts tr :
  count isInvokeAttempt tr
  = (count isInvoke tr + count isInvokeFault tr)%nat.
Proof.
  induction tr as [|e tr IH]; [reflexivity|].
  rewrite !count_cons, IH. destruct e; cbn; lia.
Qed.

Lemma no_fault_stepWith faults props w c :
  (forall k, faults k = false) ->
  count isInvokeFault (trace c) = 0%nat ->
  count isInvokeFault
    (trace (stepWith faults (CircuitBreakerSQSLambda.constructor props) w c))
  = 0%nat.
Proof.
  intros Hf.
  destruct c as [ctl d r tr ce re]; destruct ctl as [s| |];
    [|intro H; exact H|intro H; exact H].
  simpl_config; intros H.
  destruct s; unfold_step; rewrite ?Hf; break_step; simpl_config;
    rewrite ?count_cons; cbn [isInvokeFault]; assumption.
Qed.

Lemma no_fault_executionWith faults props w consumer rejit n :
  (forall k, faults k = false) ->
  let c := executionWith faults props w consumer rejit n in
  count isInvokeAttempt (trace c) = count isInvoke (trace c).
Proof.
  intros Hf c. rewrite count_attempts.
  assert (H : count isInvokeFault (trace c) = 0%nat).
  { unfold c, executionWith.
    apply (runWith_invariant faults _ w
             (fun c => count isInvokeFault (trace c) = 0%nat)).
    - intros c'. apply no_fault_stepWith. exact Hf.
    - reflexivity. }
  rewrite H. lia.
Qed.

(** ** The number of probes *)

Lemma roundInv_stepWith faults props w c :
  probeInv props c -> roundInv c ->
  roundInv (stepWith faults (CircuitBreakerSQSLambda.constructor props) w c).
Proof.
  destruct c as [ctl d r tr ce re]; destruct ctl as [s| |];
    [|intros _ H; exact H|intros _ H; exact H].
  unfold probeInv, roundInv; simpl_config; intros [k P] H.
  destruct s; unfold_step; break_step; simpl_config;
    rewrite ?count_cons;
    cbn [probes afterRetryWait isInvokeAttempt isInvoke andb negb
         attemptOf Attempt] in *;
    split_hyps;
    try match goal with
        | H : afterRetryWait tr = _ |- _ => rewrite H in *
        end;
    try (destruct r; cbn [Nat.eqb negb Nat.add] in * );
    split_hyps;
    repeat split; try lia; try (intros; lia).
Qed.

Lemma roundInv_executionWith faults props w consumer rejit n :
  roundInv (executionWith faults props w consumer rejit n).
Proof.
  assert (H : probeInv props (executionWith faults props w consumer rejit n)
              /\ roundInv (executionWith faults props w consumer rejit n)).
  { unfold executionWith.
    apply (runWith_invariant faults _ w
             (fun c => probeInv props c /\ roundInv c)).
    - intros c [P R]. split.
      + apply probeInv_stepWith. exact P.
      + apply (roundInv_stepWith faults props); assumption.
    - split; [apply probeInv_start|]. unfold roundInv, start. cbn.
      repeat split; lia. }
  exact (proj2 H).
Qed.

Lemma roundInv_counts props c :
  probeInv props c -> roundInv c ->
  (probes (trace c) <= 9)%nat /\
  (count isInvoke (trace c) <= probes (trace c))%nat /\
  (count isInvokeAttempt (trace c) <= 7 * probes (trace c))%nat.
Proof.
  unfold probeInv, roundInv. intros [k P] H.
  destruct (control c) as [s| |]; [destruct s|..]; split_hyps; try lia.
  destruct (afterRetryWait (trace c)); split_hyps; lia.
Qed.

(** ** The wait before each probe *)

Lemma waitsInv_stepWith faults props w c :
  probeInv props c -> roundInv c -> waitsInv props c ->
  waitsInv props
    (stepWith faults (CircuitBreakerSQSLambda.constructor props) w c).
Proof.
  destruct c as [ctl d r tr ce re]; destruct ctl as [s| |];
    [|intros _ _ H; exact H|intros _ _ H; exact H].
  unfold probeInv, roundInv, waitsInv; simpl_config; intros [k P] R H.
  destruct s; unfold_step; break_step; simpl_config;
    cbn [waitsBeforeProbes probes afterRetryWait isInvokeAttempt andb negb
         attemptOf Attempt] in *;
    try assumption;
    split_hyps;
    match goal with
    | H : afterRetryWait tr = _ |- _ => rewrite H in *
    end;
    (destruct r; cbn [Nat.eqb negb Nat.add andb] in *; [|assumption]);
    assert (Hk : probes tr = k) by lia;
    rewrite Hk in *; cbn [expectedWaits];
    rewrite lastWait_waits;
    match goal with
    | H : waits tr = _ |- _ => rewrite H
    end;
    cbn [expectedLoopWaits hd_error]; congruence.
Qed.

Lemma waitsInv_executionWith faults props w consumer rejit n :
  waitsInv props (executionWith faults props w consumer rejit n).
Proof.
  assert (H : (probeInv props (executionWith faults props w consumer rejit n)
               /\ roundInv (executionWith faults props w consumer rejit n))
              /\ waitsInv props
                   (executionWith faults props w consumer rejit n)).
  { unfold executionWith.
    apply (runWith_invariant faults _ w
             (fun c => (probeInv props c /\ roundInv c) /\ waitsInv props c)).
    - intros c [[P R] W]. split; [split|].
      + apply probeInv_stepWith. exact P.
      + apply (roundInv_stepWith faults props); assumption.
      + apply waitsInv_stepWith; assumption.
    - split; [split|].
      + apply probeInv_start.
      + unfold roundInv, start. cbn. repeat split; lia.
      + reflexivity. }
  exact (proj2 H).
Qed.

(** ** C1 *)

(** C1, amended.  With the initial delay at its default of 10 seconds, in
    every execution, whatever the services answer and however often the
    Lambda service makes a probe retry in place: the wait made in a
    [Wait] state before the [i]-th probe is [10 * 2^(i-1)] seconds, for
    each of the at most 9 probes made (the first probe is preceded by the
    fixed initial wait, the later ones by the waits of the retry loop);
    the waits made in [Wait] states are, in order, 10, 20, 40, ..., that
    is [10 * 2^j] for [j = 0, ..., k-1] with [k] at most 9, followed by
    nothing but the wait of the rejitter stage; whenever the execution
    stands at the probe, the counter is some [i] between 1 and 9, and
    the wait it has just made is [10 * 2^(i-1)] seconds, which is also
    the retry time it carries; the retry time doubles at each failed
    probe; and when the fetch returns a message (at once or after
    retries) and the function never returns normally, the waits made are
    10, 20, 40, ..., 2560 seconds, after which the execution is failed:
    no wait of 5120 seconds is made. *)
Theorem probe_waits_double faults props w consumer rejit n :
  CircuitBreakerSQSLambda.defaultTimeout props = 10 ->
  let c := executionWith faults props w consumer rejit n in
  rev (waitsBeforeProbes (trace c))
    = map (fun k => Some (10 * 2 ^ Z.of_nat k))
          (seq 0 (probes (trace c))) /\
  (probes (trace c) <= 9)%nat /\
  (exists k, (k <= 9)%nat /\
     (waits (history c) = map (fun j => 10 * 2 ^ Z.of_nat j) (seq 0 k) \/
      rejitter props = true /\
      waits (history c)
      = map (fun j => 10 * 2 ^ Z.of_nat j) (seq 0 k)
        ++ [rejitterInitialBackoffDelay props ?? 60])) /\
  (control c = At triggerLambda ->
   1 <= attemptOf (data c) <= 9 /\
   lastWait (trace c) = Some (10 * 2 ^ (attemptOf (data c) - 1)) /\
   retryTimeOf (data c) = 10 * 2 ^ (attemptOf (data c) - 1)) /\
  (forall i, RetryTime (CircuitBreakerSQSLambda.incrementParameters i)
             = 2 * RetryTime i) /\
  (mappingCallOk w 0 = true ->
   fetchReturnsMessage w ->
   (forall j b, workerOk w j b = false) ->
   (100 <= n)%nat ->
   control c = Failed /\
   waits (history c) = [10; 20; 40; 80; 160; 320; 640; 1280; 2560]).
Proof.
  intros HT c.
  pose proof (probeInv_executionWith faults props w consumer rejit n) as P.
  pose proof (roundInv_executionWith faults props w consumer rejit n) as R.
  pose proof (waitsInv_executionWith faults props w consumer rejit n) as W.
  fold c in P, R, W.
  assert (Hmap : forall k,
            map (waitBefore (CircuitBreakerSQSLambda.defaultTimeout props))
                (seq 0 k)
            = map (fun j => 10 * 2 ^ Z.of_nat j) (seq 0 k)).
  { intro k. rewrite HT. apply map_ext. intro j. apply waitBefore_default. }
  split; [|split; [|split; [|split; [|split]]]].
  - unfold waitsInv in W. rewrite W, expectedWaits_rev, HT.
    apply map_ext. intro k. rewrite waitBefore_default. reflexivity.
  - apply (roundInv_counts props c P R).
  - destruct (probeInv_waits props c P) as (k & Hk & H).
    exists k. split; [exact Hk|]. rewrite <- Hmap. exact H.
  - intro Hc.
    destruct (probeInv_at_probe props c P Hc) as (k & Hk & Ha & Ht & Hl & _).
    rewrite Hl, Ht, HT, waitBefore_default, (backoff_attempt k _ Ha).
    unfold backoff. repeat split; try lia.
    do 2 f_equal. rewrite Ha. f_equal. lia.
  - intro i. unfold CircuitBreakerSQSLambda.incrementParameters.
    simpl_config. lia.
  - intros Hd Hq Hw Hn.
    destruct (never_recovering_executionWith faults props w consumer rejit n
                Hd Hq Hw Hn) as (Hc & _ & Hwaits & _).
    fold c in Hc, Hwaits. split; [exact Hc|].
    unfold history. rewrite waits_rev, Hwaits, HT. reflexivity.
Qed.

Lemma probe_waits_double_witness :
  CircuitBreakerSQSLambda.defaultTimeout (defaults false) = 10 /\
  control (executionWith lambdaFaultyTwice (defaults false)
             lateFetchWorkerDown true false 100) = Failed /\
  waits (history (executionWith lambdaFaultyTwice (defaults false)
                    lateFetchWorkerDown true false 100))
    = [10; 20; 40; 80; 160; 320; 640; 1280; 2560].
Proof.
  split; [reflexivity|].
  apply (probe_waits_double lambdaFaultyTwice (defaults false)
           lateFetchWorkerDown true false 100 eq_refl).
  - reflexivity.
  - exists 2%nat, probeMessage, []. split; [lia|]. split; [|reflexivity].
    intros i Hi. destruct i as [|[|i]]; [reflexivity | reflexivity | lia].
  - intros j b. reflexivity.
  - lia.
Defined.

(** ** C2 *)

Lemma stepWith_choice faults props w c i :
  control c = At exceededRetryChoice ->
  data c = JIncident i ->
  control (stepWith faults (CircuitBreakerSQSLambda.constructor props) w c) =
  At (if Attempt i <? 10 then waitAndRetry else exceededRetryAttempts).
Proof.
  destruct c as [ctl d r tr ce re]; simpl_config. intros -> ->.
  unfold_step. reflexivity.
Qed.

(** C2, amended.  The choice of the retry loop routes to the [Fail] state
    if and only if the incremented counter is not below 10 (and back to
    the wait and the probe otherwise); consequently the probe is never
    entered with a counter above 9: an execution makes at most 9 probes.
    A probe calls the function once, and again after each exception of
    the Lambda service that the probe's own retrier takes, 6 at most: the
    function answers at most once for each probe and is called at most 7
    times for each probe, so that no execution has the function answer
    more than 9 times, nor calls it more than 63 times.  An execution
    whose fetch returns a message (at once or after retries) and whose
    function never returns normally is failed after exactly 9 probes, the
    counter standing at 10, never after a tenth; it has then called the
    function between 9 and 63 times, and exactly 9 times when the Lambda
    service raised no exception. *)
Theorem retry_ceiling faults props w consumer rejit n :
  let def := CircuitBreakerSQSLambda.constructor props in
  let c := executionWith faults props w consumer rejit n in
  (forall c' i,
      control c' = At exceededRetryChoice -> data c' = JIncident i ->
      (control (stepWith faults def w c') = At exceededRetryAttempts
       <-> 10 <= Attempt i)
      /\ (control (stepWith faults def w c') = At waitAndRetry
          <-> Attempt i < 10)) /\
  def exceededRetryAttempts = Some Fail /\
  (control c = At triggerLambda ->
   1 <= attemptOf (data c) <= 9 /\ (retried c <= 6)%nat) /\
  (probes (trace c) <= 9)%nat /\
  (count isInvoke (trace c) <= probes (trace c))%nat /\
  (count isInvokeAttempt (trace c) <= 7 * probes (trace c))%nat /\
  (count isInvoke (trace c) <= 9)%nat /\
  (count isInvokeAttempt (trace c) <= 63)%nat /\
  (mappingCallOk w 0 = true ->
   fetchReturnsMessage w ->
   (forall j b, workerOk w j b = false) ->
   (100 <= n)%nat ->
   control c = Failed /\ attemptOf (data c) = 10 /\
   probes (trace c) = 9%nat /\
   (9 <= count isInvokeAttempt (trace c) <= 63)%nat /\
   ((forall k, faults k = false) ->
    count isInvoke (trace c) = 9%nat /\
    count isInvokeAttempt (trace c) = 9%nat)).
Proof.
  intros def c.
  pose proof (probeInv_executionWith faults props w consumer rejit n) as P.
  pose proof (roundInv_executionWith faults props w consumer rejit n) as R.
  fold c in P, R. destruct (probeInv_counts props c P) as [Hr Ha].
  destruct (roundInv_counts props c P R) as (Hp & Hrp & Hap).
  split; [|split; [|split; [|split; [|split; [|split; [|split; [|split]]]]]]];
    try assumption.
  - intros c' i Hc Hd. unfold def.
    rewrite (stepWith_choice faults props w c' i Hc Hd).
    destruct (Z.ltb_spec (Attempt i) 10); split; split;
      intro H'; try reflexivity; try lia; discriminate.
  - reflexivity.
  - intro Hc.
    destruct (probeInv_at_probe props c P Hc) as (k & Hk & Hat & _ & _ & Hre).
    split; [lia | exact Hre].
  - intros Hd Hq Hw Hn.
    destruct (never_recovering_executionWith faults props w consumer rejit n
                Hd Hq Hw Hn) as (Hc & Hat & _ & Hlow).
    fold c in Hc, Hat, Hlow.
    split; [exact Hc|]. split; [exact Hat|]. split.
    { unfold roundInv in R. rewrite Hc in R. destruct R as (_ & R & _).
      exact (R Hat). }
    split; [lia|].
    intro Hf.
    pose proof (no_fault_executionWith faults props w consumer rejit n Hf)
      as He.
    cbv zeta in He. fold c in He. split; lia.
Qed.

Lemma retry_ceiling_witness :
  control (executionWith noLambdaFault (defaults false)
             (workerAlwaysFails [probeMessage]) true false 100) = Failed /\
  attemptOf (data (executionWith noLambdaFault (defaults false)
                     (workerAlwaysFails [probeMessage]) true false 100))
  = 10 /\
  probes (trace (executionWith noLambdaFault (defaults false)
                   (workerAlwaysFails [probeMessage]) true false 100))
  = 9%nat /\
  count isInvoke
    (trace (executionWith noLambdaFault (defaults false)
              (workerAlwaysFails [probeMessage]) true false 100)) = 9%nat /\
  count isInvokeAttempt
    (trace (executionWith noLambdaFault (defaults false)
              (workerAlwaysFails [probeMessage]) true false 100)) = 9%nat.
Proof.
  assert (Hq : fetchReturnsMessage (workerAlwaysFails [probeMessage])).
  { exists 0%nat, probeMessage, []. split; [lia|]. split; [|reflexivity].
    intros i Hi. lia. }
  destruct (proj2 (proj2 (proj2 (proj2 (proj2 (proj2 (proj2 (proj2
              (retry_ceiling noLambdaFault (defaults false)
                 (workerAlwaysFails [probeMessage]) true false 100))))))))
              eq_refl Hq (fun _ _ => eq_refl) (le_n 100))
    as (Hc & Ha & Hp & _ & Hn).
  destruct (Hn (fun _ => eq_refl)) as [H9 H9'].
  repeat split; assumption.
Defined.

(** The two bounds are reached: when the Lambda service raises an
    exception at every call, the nine probes call the function 63 times,
    it never answers, and the execution is failed; the probe's retrier
    waits 2, 4, ..., 64 seconds within each probe. *)
Example lambda_down_history :
  let c := executionWith lambdaDown (defaults false) allGood true false 100 in
  control c = Failed /\
  probes (trace c) = 9%nat /\
  count isInvokeAttempt (trace c) = 63%nat /\
  count isInvoke (trace c) = 0%nat /\
  waits (history c) = [10; 20; 40; 80; 160; 320; 640; 1280; 2560] /\
  firstn 6 (retryWaits (history c)) = [2; 4; 8; 16; 32; 64] /\
  List.length (retryWaits (history c)) = 54%nat.
Proof. vm_compute. repeat split. Qed.

(** ** Termination *)

(** X1. Whatever the services answer and whenever the Lambda service
    raises exceptions, an execution has reached [Succeeded] or [Failed]
    after 100 steps and stays as it is from then on. *)
Theorem every_execution_ends faults props w consumer rejit n :
  (100 <= n)%nat ->
  let c := executionWith faults props w consumer rejit n in
  (control c = Succeeded \/ control c = Failed) /\
  c = executionWith faults props w consumer rejit 100.
Proof.
  intros Hn c. split.
  - pose proof (executionWith_ends faults props w consumer rejit n Hn) as H.
    fold c in H. unfold terminal in H.
    destruct (control c); [discriminate | left | right]; reflexivity.
  - apply executionWith_stable. exact Hn.
Qed.

Lemma every_execution_ends_witness :
  (control (executionWith lambdaFaultyTwice (defaults true) flakyFetch
              true false 120) = Succeeded \/
   control (executionWith lambdaFaultyTwice (defaults true) flakyFetch
              true false 120) = Failed) /\
  executionWith lambdaFaultyTwice (defaults true) flakyFetch true false 120
    = executionWith lambdaFaultyTwice (defaults true) flakyFetch
        true false 100.
Proof.
  apply (every_execution_ends lambdaFaultyTwice (defaults true) flakyFetch
           true false 120).
  lia.
Defined.

(** The bound is reached: the fetch is retried five times, the Lambda
    service takes the probe's retrier to its end in every probe but lets
    the function answer, and succeed, at the last call of the ninth. *)
Example longest_execution :
  let c k := executionWith (fun j => negb (j =? 62)%nat) (defaults true)
               {| mappingCallOk := fun _ => true;
                  queueAt := fun j => if (j <? 5)%nat then None
                                      else Some [probeMessage];
                  workerOk := fun _ _ => true;
                  deleteOk := fun _ => true |} true false k in
  control (c 99%nat) = At enabledMapping /\ control (c 100%nat) = Succeeded.
Proof. vm_compute. split; reflexivity. Qed.

(** ** C5 *)

Lemma count_disable_calls tr :
  count isDisableCall tr
  = (count isDisableOk tr + count isDisableFailed tr)%nat.
Proof.
  induction tr as [|e tr IH]; [reflexivity|].
  rewrite !count_cons, IH.
  destruct e as [[|] [|] [|]| | | | | |]; cbn; lia.
Qed.

(** C5, as stated, fails.  When the call that disables the consumer's
    mapping fails, the execution is failed with the mapping still
    enabled: the gate is not disabled from the start to the terminal
    state.  When the call that enables the mapping fails, the execution
    is failed after performing the enable step: a path that ends failed
    does issue that call. *)
Lemma gate_open_or_enable_issued_on_failed_paths :
  control (execution (defaults false) disableFails true false 78) = Failed /\
  consumerEnabled (execution (defaults false) disableFails true false 78)
  = true /\
  control (execution (defaults false) enableFails true false 78) = Failed /\
  In (EToggle sqsEventSource true false)
     (history (execution (defaults false) enableFails true false 78)) /\
  control (executionWith lambdaFaultyTwice (defaults false) disableFails
             true false 100) = Failed /\
  consumerEnabled (executionWith lambdaFaultyTwice (defaults false)
                     disableFails true false 100) = true.
Proof.
  vm_compute. repeat split. do 5 right. left. reflexivity.
Qed.

(** C5, amended.  In every execution, whatever the services answer and
    whenever the Lambda service raises exceptions: the first thing done is
    the call that disables the consumer's mapping; when that call fails
    the execution is failed at once, nothing else is done and the mapping
    is left as it was found; once that call has succeeded the mapping is
    disabled at every later point, up to the terminal state, unless the
    execution has succeeded; the mapping is enabled again (the enabling
    call succeeds) if and only if the execution succeeds, so that no
    failed execution has enabled it; the enabling call, whether it
    succeeds or fails, is the last step of the workflow, made after the
    probe message is deleted and after the rejitter stage, when there is
    one, has been switched off; and every execution has reached a
    terminal state after 100 steps. *)
Theorem gate_closed_until_restored faults props w consumer rejit n :
  let c := executionWith faults props w consumer rejit n in
  (forall e h, history c = e :: h ->
               exists ok, e = EToggle sqsEventSource false ok) /\
  (In (EToggle sqsEventSource false false) (history c) ->
   control c = Failed /\ consumerEnabled c = consumer /\
   history c = [EToggle sqsEventSource false false]) /\
  (forall s, control c = At s -> s <> disableMapping ->
             consumerEnabled c = false) /\
  (In (EToggle sqsEventSource false true) (history c) ->
   (consumerEnabled c = true <-> control c = Succeeded)) /\
  (In (EToggle sqsEventSource true true) (history c)
   <-> control c = Succeeded) /\
  (control c = Failed ->
   ~ In (EToggle sqsEventSource true true) (history c)) /\
  (forall ok, In (EToggle sqsEventSource true ok) (history c) ->
     (exists tr', trace c = EToggle sqsEventSource true ok :: tr') /\
     terminal c = true /\
     count isDelete (trace c) = 1%nat /\
     (rejitter props = true ->
      In (EToggle rejitterSqsEventSource false true) (history c))) /\
  ((100 <= n)%nat -> terminal c = true).
Proof.
  intros c.
  pose proof (gateInv_executionWith faults props w consumer rejit n) as G.
  pose proof (firstInv_executionWith faults props w consumer rejit n) as F.
  fold c in G, F. unfold gateInv in G.
  split; [|split; [|split; [|split; [|split; [|split; [|split]]]]]].
  - intros e h. apply history_first. exact F.
  - rewrite In_history. intro Hin.
    assert (Hf : (1 <= count isDisableFailed (trace c))%nat)
      by (apply (count_In _ _ _ Hin); reflexivity).
    pose proof (count_disable_calls (trace c)) as Hc.
    destruct (control c) as [s| |]; [destruct s|..]; split_hyps;
      try (rewrite H in Hf; cbn in Hf); try lia.
    assert (Hz : count isDisableOk (trace c) = 0%nat) by lia.
    destruct (H2 Hz) as [Ht Hg].
    unfold history. rewrite Ht. repeat split. exact Hg.
  - intros s Hs Hne. rewrite Hs in G. destruct s; split_hyps; congruence.
  - rewrite In_history, isDisableOk_iff. intro Hd.
    destruct (control c) as [s| |]; [destruct s|..]; split_hyps;
      try (rewrite H in Hd; cbn in Hd; lia);
      split; intro; try congruence.
    assert (consumerEnabled c = false) by (apply H3; lia). congruence.
  - rewrite In_history, isEnableOk_iff.
    destruct (control c) as [s| |]; [destruct s|..]; split_hyps;
      try (rewrite H in *; cbn);
      split; intro; try congruence; try discriminate; try lia.
  - intro Hc. rewrite In_history, isEnableOk_iff. rewrite Hc in G.
    split_hyps. lia.
  - intros ok. rewrite In_history. intro Hin.
    pose proof (isEnableCall_In _ _ Hin) as Hcall.
    assert (Hr : forall k, k = rejitterDone props ->
                 count isRejitterOff (trace c) = k ->
                 rejitter props = true ->
                 In (EToggle rejitterSqsEventSource false true) (history c)).
    { intros k -> Hk Hp. rewrite In_history, isRejitterOff_iff.
      unfold rejitterDone in Hk. rewrite Hp in Hk. lia. }
    unfold terminal.
    destruct (control c) as [s| |]; [destruct s|..]; split_hyps;
      try (rewrite H in *; cbn in Hcall); try lia.
    + (* succeeded *)
      rewrite H6 in Hin, H1.
      rewrite (enable_call_is_newest _ _ _ H1 Hin).
      repeat split; eauto.
    + (* failed *)
      destruct H4 as [H4|(H4 & H5 & H6 & tr' & H7)]; [lia|].
      rewrite H7 in Hin, H4.
      rewrite (enable_call_is_newest _ _ _ H4 Hin).
      repeat split; eauto.
  - apply executionWith_ends.
Qed.

Lemma gate_closed_until_restored_witness :
  In (EToggle sqsEventSource false true)
     (history (executionWith lambdaFaultyTwice (defaults false)
                 (workerAlwaysFails [probeMessage]) true false 100)) /\
  (consumerEnabled (executionWith lambdaFaultyTwice (defaults false)
                      (workerAlwaysFails [probeMessage]) true false 100)
   = true
   <-> control (executionWith lambdaFaultyTwice (defaults false)
                  (workerAlwaysFails [probeMessage]) true false 100)
       = Succeeded).
Proof.
  assert (H : In (EToggle sqsEventSource false true)
                (history (executionWith lambdaFaultyTwice (defaults false)
                            (workerAlwaysFails [probeMessage])
                            true false 100)))
    by (vm_compute; left; reflexivity).
  split; [exact H|].
  exact (proj1 (proj2 (proj2 (proj2
           (gate_closed_until_restored lambdaFaultyTwice (defaults false)
              (workerAlwaysFails [probeMessage]) true false 100)))) H).
Defined.

(** ** C10 *)

Ltac tickWith := rewrite runWith_S; unfold_step; simpl_config.

(** The rejitter stage: once the call that enables the rejitter mapping
    has succeeded, the wait and the call that disables the mapping follow,
    whatever the state data and whatever the Lambda service does. *)
Lemma rejitter_stageWith faults props w c :
  rejitter props = true ->
  control c = At enableRejitter ->
  mappingCallOk w (count isToggle (trace c)) = true ->
  let ok := mappingCallOk w (S (count isToggle (trace c))) in
  runWith faults (CircuitBreakerSQSLambda.constructor props) w 3 c =
  {| control := if ok then At enabledMapping else Failed;
     data := JOther; retried := 0;
     trace := EToggle rejitterSqsEventSource false ok
              :: EWait (CircuitBreakerSQSLambda.backoffDelay props)
              :: EToggle rejitterSqsEventSource true true :: trace c;
     consumerEnabled := consumerEnabled c;
     rejitterEnabled := negb ok |}.
Proof.
  destruct c as [ctl d r tr ce re]. intros Hp Hc Hw ok.
  simpl_config. subst ctl. subst ok. simpl_config.
  tickWith. rewrite Hp. simpl_config. rewrite Hw.
  tickWith. tickWith.
  rewrite !count_cons. cbn [isToggle].
  destruct (mappingCallOk w (S (count isToggle tr))); reflexivity.
Qed.

Lemma isRejitterOffFailed_In tr :
  In (EToggle rejitterSqsEventSource false false) tr ->
  (1 <= count isRejitterOffFailed tr)%nat.
Proof. intro H. apply (count_In _ _ _ H). reflexivity. Qed.

(** C10, as stated, fails.  When the call that disables the rejitter
    mapping fails, the execution is failed with the mapping enabled: the
    drain is on after the disable step.  The execution that follows finds
    the mapping enabled: there the drain is on before any enable step is
    made, and stays on to the end when the function does not recover. *)
Lemma drain_on_outside_its_window :
  control (execution (defaults true) rejitterOffFails true false 78)
  = Failed /\
  In (EToggle rejitterSqsEventSource false false)
     (history (execution (defaults true) rejitterOffFails true false 78)) /\
  rejitterEnabled (execution (defaults true) rejitterOffFails true false 78)
  = true /\
  rejitterEnabled (execution (defaults true) allGood true true 3) = true /\
  count isRejitterOn
    (trace (execution (defaults true) allGood true true 3)) = 0%nat /\
  control (execution (defaults true) (workerAlwaysFails [probeMessage])
             true true 78) = Failed /\
  rejitterEnabled (execution (defaults true)
                     (workerAlwaysFails [probeMessage]) true true 78)
  = true /\
  count isRejitterOn
    (trace (execution (defaults true) (workerAlwaysFails [probeMessage])
              true true 78)) = 0%nat.
Proof.
  vm_compute. repeat split. do 7 right. left. reflexivity.
Qed.

(** C10, amended.  The rejitter mapping is created disabled.  In every
    execution, whatever the services answer and whenever the Lambda
    service raises exceptions: if the execution finds the mapping
    disabled, the mapping is enabled only at points where the call
    enabling it has succeeded and the call disabling it has not, never
    before the first; if it finds the mapping enabled, the mapping stays
    enabled until the call disabling it succeeds; in both cases the
    mapping is disabled once the call disabling it has succeeded, and
    when that call fails the execution is failed with the mapping left
    enabled.  When the enabling call succeeds, the next two steps are,
    whatever the state data, a wait of [rejitterInitialBackoffDelay]
    seconds (60 by default) and the disabling call, after which the
    mapping is disabled if and only if the call succeeded. *)
Theorem rejitter_drain_window faults props w consumer rejit n :
  let def := CircuitBreakerSQSLambda.constructor props in
  let c := executionWith faults props w consumer rejit n in
  CircuitBreakerSQSLambda.rejitterSqsEventSourceCreatedEnabled = false /\
  (rejit = false -> rejitterEnabled c = true ->
   In (EToggle rejitterSqsEventSource true true) (history c) /\
   ~ In (EToggle rejitterSqsEventSource false true) (history c)) /\
  (rejit = false ->
   ~ In (EToggle rejitterSqsEventSource true true) (history c) ->
   rejitterEnabled c = false) /\
  (rejit = true ->
   ~ In (EToggle rejitterSqsEventSource false true) (history c) ->
   rejitterEnabled c = true) /\
  (In (EToggle rejitterSqsEventSource false true) (history c) ->
   rejitterEnabled c = false) /\
  (In (EToggle rejitterSqsEventSource false false) (history c) ->
   control c = Failed /\ rejitterEnabled c = true) /\
  (forall c0,
     rejitter props = true ->
     control c0 = At enableRejitter ->
     mappingCallOk w (count isToggle (trace c0)) = true ->
     exists ok,
       trace (runWith faults def w 3 c0)
         = EToggle rejitterSqsEventSource false ok
           :: EWait (rejitterInitialBackoffDelay props ?? 60)
           :: EToggle rejitterSqsEventSource true true :: trace c0 /\
       rejitterEnabled (runWith faults def w 3 c0) = negb ok).
Proof.
  intros def c.
  pose proof (drainInv_executionWith faults props w consumer rejit n) as R.
  pose proof (stuckInv_executionWith faults props w consumer rejit n) as S.
  fold c in R, S. unfold drainInv in R.
  assert (Hcases :
    (rejitterEnabled c = true /\ count isRejitterOn (trace c) = 1%nat /\
     count isRejitterOff (trace c) = 0%nat) \/
    (rejitterEnabled c = false /\ count isRejitterOn (trace c) = 1%nat /\
     count isRejitterOff (trace c) = 1%nat) \/
    (rejitterEnabled c = rejit /\ count isRejitterOn (trace c) = 0%nat /\
     count isRejitterOff (trace c) = 0%nat)).
  { destruct (control c) as [s| |]; [destruct s|..]; tauto. }
  clear R.
  split; [reflexivity|].
  rewrite !In_history, isRejitterOn_iff, isRejitterOff_iff.
  split; [|split; [|split; [|split; [|split]]]].
  - intros -> He. destruct Hcases as [H|[H|H]]; split_hyps;
      try congruence; lia.
  - intros -> Hn. destruct Hcases as [H|[H|H]]; split_hyps;
      try assumption; lia.
  - intros -> Hn. destruct Hcases as [H|[H|H]]; split_hyps;
      try assumption; lia.
  - intro Hin. destruct Hcases as [H|[H|H]]; split_hyps;
      try assumption; lia.
  - intro Hin. apply isRejitterOffFailed_In in Hin. unfold stuckInv in S.
    destruct (control c) as [s| |]; [destruct s|..]; split_hyps; try lia.
    destruct S as [S|[_ S]]; [lia|]. split; [reflexivity | exact S].
  - intros c0 Hp Hc Hw. unfold def.
    rewrite (rejitter_stageWith faults props w c0 Hp Hc Hw). simpl_config.
    eexists. split; reflexivity.
Qed.

Lemma rejitter_drain_window_witness :
  (exists ok,
    trace (runWith lambdaFaultyTwice
             (CircuitBreakerSQSLambda.constructor (defaults true))
             allGood 3 beforeRejitter)
      = EToggle rejitterSqsEventSource false ok
        :: EWait 60
        :: EToggle rejitterSqsEventSource true true :: trace beforeRejitter /\
    rejitterEnabled (runWith lambdaFaultyTwice
                       (CircuitBreakerSQSLambda.constructor (defaults true))
                       allGood 3 beforeRejitter) = negb ok) /\
  rejitterEnabled (executionWith lambdaFaultyTwice (defaults true)
                     (workerAlwaysFails [probeMessage]) true true 100)
  = true.
Proof.
  split.
  - exact (proj2 (proj2 (proj2 (proj2 (proj2 (proj2
             (rejitter_drain_window lambdaFaultyTwice (defaults true)
                allGood true false 0))))))
           beforeRejitter eq_refl eq_refl eq_refl).
  - assert (H : ~ In (EToggle rejitterSqsEventSource false true)
                    (history (executionWith lambdaFaultyTwice (defaults true)
                                (workerAlwaysFails [probeMessage])
                                true true 100))).
    { vm_compute. intro H.
      repeat (destruct H as [H|H]; [discriminate H|]). exact H. }
    exact (proj1 (proj2 (proj2 (proj2
             (rejitter_drain_window lambdaFaultyTwice (defaults true)
                (workerAlwaysFails [probeMessage]) true true 100))))
           eq_refl H).
Defined.

(** ** The time spent waiting *)

Lemma pow2_S r : 2 ^ Z.of_nat (S r) = 2 * 2 ^ Z.of_nat r.
Proof. rewrite Nat2Z.inj_succ, Z.pow_succ_r by lia. reflexivity. Qed.

Lemma pow2_le r m : (r <= m)%nat -> 0 < 2 ^ Z.of_nat r <= 2 ^ Z.of_nat m.
Proof.
  intro H. split; [apply Z.pow_pos_nonneg; lia|].
  apply Z.pow_le_mono_r; lia.
Qed.

Lemma retryTimeInv_stepWith faults props w c :
  probeInv props c -> retryTimeInv c ->
  retryTimeInv
    (stepWith faults (CircuitBreakerSQSLambda.constructor props) w c).
Proof.
  destruct c as [ctl d r tr ce re]; destruct ctl as [s| |];
    [|intros _ H; exact H|intros _ H; exact H].
  unfold probeInv, retryTimeInv, totalSeconds; simpl_config;
    intros [k P] H.
  pose proof (pow2_le r 5) as H5. pose proof (pow2_le r 6) as H6.
  change (2 ^ Z.of_nat 5) with 32 in H5.
  change (2 ^ Z.of_nat 6) with 64 in H6.
  destruct s; unfold_step; break_step; simpl_config;
    cbv [retryInterval]; simpl_config;
    cbn [retryWaits fold_right attemptOf Attempt] in *;
    rewrite ?pow2_S; change (2 ^ Z.of_nat 0) with 1;
    split_hyps; try lia.
Qed.

Lemma retryTimeInv_executionWith faults props w consumer rejit n :
  retryTimeInv (executionWith faults props w consumer rejit n).
Proof.
  assert (H : probeInv props (executionWith faults props w consumer rejit n)
              /\ retryTimeInv
                   (executionWith faults props w consumer rejit n)).
  { unfold executionWith.
    apply (runWith_invariant faults _ w
             (fun c => probeInv props c /\ retryTimeInv c)).
    - intros c [P R]. split.
      + apply probeInv_stepWith. exact P.
      + apply (retryTimeInv_stepWith faults props); assumption.
    - split; [apply probeInv_start | reflexivity]. }
  exact (proj2 H).
Qed.

Lemma retryTimeInv_bound props c :
  probeInv props c -> retryTimeInv c ->
  totalSeconds (retryWaits (trace c)) <= 310 + 126 * 9.
Proof.
  unfold probeInv, retryTimeInv. intros [k P] H.
  pose proof (pow2_le (retried c) 5) as H5.
  pose proof (pow2_le (retried c) 6) as H6.
  change (2 ^ Z.of_nat 5) with 32 in H5.
  change (2 ^ Z.of_nat 6) with 64 in H6.
  destruct (control c) as [s| |]; [destruct s|..]; split_hyps; lia.
Qed.

Lemma expectedLoopWaits_total T k :
  totalSeconds (expectedLoopWaits T (S k)) = T + backoff (S k) - 20.
Proof.
  induction k as [|k IH]; [unfold totalSeconds; cbn; lia|].
  change (expectedLoopWaits T (S (S k)))
    with (backoff (S k) :: expectedLoopWaits T (S k)).
  unfold totalSeconds in *. cbn [fold_right]. rewrite IH.
  rewrite (backoff_S (S k)). lia.
Qed.

Lemma expectedLoopWaits_bound T k :
  0 <= T -> (k <= 9)%nat ->
  totalSeconds (expectedLoopWaits T k) <= T + 5100.
Proof.
  intros HT Hk. destruct k as [|k]; [unfold totalSeconds; cbn; lia|].
  rewrite expectedLoopWaits_total.
  pose proof (backoff_le (S k) 9 Hk) as H. rewrite backoff_9 in H. lia.
Qed.

Lemma loopTimeInv_stepWith faults props w c :
  probeInv props c -> roundInv c -> loopTimeInv props c ->
  loopTimeInv props
    (stepWith faults (CircuitBreakerSQSLambda.constructor props) w c).
Proof.
  destruct c as [ctl d r tr ce re]; destruct ctl as [s| |];
    [|intros _ _ H; exact H|intros _ _ H; exact H].
  unfold probeInv, roundInv, loopTimeInv, rejitterSeconds; simpl_config;
    intros [k P] R H.
  destruct (rejitter props) eqn:Hp;
    destruct s; unfold_step; rewrite ?Hp; break_step; simpl_config;
    cbn [probes afterRetryWait isInvokeAttempt andb negb waits
         attemptOf Attempt Nat.add] in *;
    try exact I; split_hyps;
    try (unfold totalSeconds in *; cbn [fold_right] in *;
         repeat split; (congruence || lia)).
  all: match goal with
       | H : afterRetryWait _ = _ |- _ => rewrite H in *
       end;
    match goal with
    | H : waits _ = _ |- _ => rewrite H
    end;
    rewrite expectedLoopWaits_total;
    destruct r; cbn [Nat.eqb negb Nat.add andb] in *; split_hyps;
    match goal with
    | |- context [probes ?t] =>
        first [ assert (E : probes t = k) by lia
              | assert (E : probes t = S k) by lia ];
        rewrite E
    end; reflexivity.
Qed.

Lemma loopTimeInv_executionWith faults props w consumer rejit n :
  loopTimeInv props (executionWith faults props w consumer rejit n).
Proof.
  assert (H : (probeInv props (executionWith faults props w consumer rejit n)
               /\ roundInv (executionWith faults props w consumer rejit n))
              /\ loopTimeInv props
                   (executionWith faults props w consumer rejit n)).
  { unfold executionWith.
    apply (runWith_invariant faults _ w
             (fun c => (probeInv props c /\ roundInv c)
                       /\ loopTimeInv props c)).
    - intros c [[P R] W]. split; [split|].
      + apply probeInv_stepWith. exact P.
      + apply (roundInv_stepWith faults props); assumption.
      + apply loopTimeInv_stepWith; assumption.
    - split; [split|].
      + apply probeInv_start.
      + unfold roundInv, start. cbn. repeat split; lia.
      + exact I. }
  exact (proj2 H).
Qed.

(** X10. With a non-negative initial delay and rejitter delay, an
    execution spends at most [initialBackoffDelay + 5100] seconds in
    [Wait] states, plus the rejitter delay when the stage is configured,
    and at most 1444 seconds in the waits of its retriers: 310 for the
    fetch and 126 for each of the 9 probes, when the Lambda service
    raises exceptions.  An execution that succeeds after [p] probes has
    waited exactly [initialBackoffDelay + 10 * 2^p - 20] seconds in
    [Wait] states, plus the rejitter delay.  When the Lambda service
    raises no exception, the retriers' waits sum up to at most 310
    seconds and [p] is the number of invocations. *)
Theorem waiting_time_bounded faults props w consumer rejit n :
  0 <= CircuitBreakerSQSLambda.defaultTimeout props ->
  0 <= CircuitBreakerSQSLambda.backoffDelay props ->
  let c := executionWith faults props w consumer rejit n in
  let c0 := execution props w consumer rejit n in
  let T := initialBackoffDelay props ?? 10 in
  let R := if rejitter props then rejitterInitialBackoffDelay props ?? 60
           else 0 in
  totalSeconds (waits (history c)) <= T + 5100 + R /\
  totalSeconds (retryWaits (history c)) <= 1444 /\
  (control c = Succeeded ->
   totalSeconds (waits (history c))
   = T + 10 * 2 ^ Z.of_nat (probes (trace c)) - 20 + R) /\
  totalSeconds (retryWaits (history c0)) <= 310 /\
  (control c0 = Succeeded ->
   totalSeconds (waits (history c0))
   = T + 10 * 2 ^ Z.of_nat (count isInvoke (trace c0)) - 20 + R).
Proof.
  intros HT HD c c0 T R.
  assert (HR : 0 <= R) by (unfold R; destruct (rejitter props); [exact HD|lia]).
  split; [|split; [|split; [|split]]].
  - pose proof (probeInv_executionWith faults props w consumer rejit n) as P.
    fold c in P. unfold history. rewrite waits_rev, totalSeconds_rev.
    unfold probeInv in P. destruct P as [k P].
    assert (B : forall j, (j <= 9)%nat ->
              totalSeconds (expectedLoopWaits T j) <= T + 5100)
      by (intro j; apply expectedLoopWaits_bound; exact HT).
    assert (B' : forall j, (j <= 9)%nat ->
              totalSeconds (CircuitBreakerSQSLambda.backoffDelay props
                            :: expectedLoopWaits T j)
              <= T + 5100 + CircuitBreakerSQSLambda.backoffDelay props).
    { intros j Hj. specialize (B j Hj). unfold totalSeconds in *.
      cbn [fold_right]. lia. }
    unfold CircuitBreakerSQSLambda.defaultTimeout,
      CircuitBreakerSQSLambda.backoffDelay in *.
    fold T in P.
    destruct (control c) as [s| |]; [destruct s|..]; split_hyps;
      try match goal with
          | H : waits (trace c) = _ |- _ => rewrite H
          end;
      try (unfold totalSeconds; cbn; lia);
      try (specialize (B k ltac:(lia)); lia);
      try (specialize (B (S k) ltac:(lia)); lia).
    + specialize (B 9%nat ltac:(lia)). lia.
    + subst R. rewrite H0. specialize (B' (S k) ltac:(lia)). lia.
    + subst R. destruct (rejitter props); cbn [app].
      * specialize (B' (S k) ltac:(lia)). lia.
      * specialize (B (S k) ltac:(lia)). lia.
    + subst R. destruct (rejitter props); cbn [app].
      * specialize (B' (S k) ltac:(lia)). lia.
      * specialize (B (S k) ltac:(lia)). lia.
    + destruct H0 as [H0|[Hr H0]]; rewrite H0.
      * specialize (B k ltac:(lia)). lia.
      * subst R. rewrite Hr. specialize (B' k ltac:(lia)). lia.
  - unfold history. rewrite retryWaits_rev, totalSeconds_rev.
    apply (retryTimeInv_bound props).
    + apply probeInv_executionWith.
    + apply retryTimeInv_executionWith.
  - intro Hc.
    pose proof (loopTimeInv_executionWith faults props w consumer rejit n)
      as L.
    fold c in L. unfold history. rewrite waits_rev, totalSeconds_rev.
    unfold loopTimeInv, rejitterSeconds in L. rewrite Hc in L. exact L.
  - pose proof (transportInv_execution props w consumer rejit n) as Tr.
    fold c0 in Tr. unfold history. rewrite retryWaits_rev, totalSeconds_rev.
    destruct (transportInv_retries c0 Tr) as (k & Hk & Hw & _).
    rewrite Hw. apply expectedRetryWaits_total. exact Hk.
  - intro Hc.
    destruct (extended_invariants props w consumer rejit n) as (_ & _ & W).
    fold c0 in W. unfold history. rewrite waits_rev, totalSeconds_rev.
    unfold timeInv, rejitterSeconds in W. rewrite Hc in W.
    destruct W as [_ W]. exact W.
Qed.

Lemma waiting_time_bounded_witness :
  totalSeconds
    (waits (history (executionWith lambdaDown (defaults false) allGood
                       true false 100))) = 10 + 5100 + 0 /\
  totalSeconds
    (retryWaits (history (executionWith lambdaDown (defaults false) allGood
                            true false 100))) = 1134 /\
  totalSeconds
    (waits (history (executionWith lambdaDown (defaults false) allGood
                       true false 100))) <= 10 + 5100 + 0.
Proof.
  split; [vm_compute; reflexivity|].
  split; [vm_compute; reflexivity|].
  apply (waiting_time_bounded lambdaDown (defaults false) allGood
           true false 100).
  - cbn. lia.
  - cbn. lia.
Defined.

(* ================================================================== *)
(** * The rejitter Lambda under rounding to nearest *)

(** ** The last second of the jitter window *)

Lemma Qabs_le_0 z : (Qabs z <= 0)%Q -> (z == 0)%Q.
Proof.
  intro H. apply Qabs_Qle_condition in H. destruct H as [H1 H2].
  apply Qle_antisym; lra.
Qed.

(** A rounding that is monotone and takes [y] for the nearest number to
    [x] at least as willingly as itself stays below [m] when [x] is
    nearer to [y] than to [m]. *)
Lemma rounds_below (fl : Q -> Q) (x y m : Q) :
  (forall a b, a <= b -> fl a <= fl b)%Q ->
  (fl y == y)%Q ->
  (Qabs (fl x - x) <= Qabs (y - x))%Q ->
  (y < m)%Q -> (2 * x < y + m)%Q ->
  (fl x < m)%Q.
Proof.
  intros Hmono Hy Hn Hym Hx.
  destruct (Qlt_le_dec y x) as [Hlt|Hle].
  - rewrite (Qabs_neg (y - x)) in Hn by lra.
    apply Qabs_Qle_condition in Hn. lra.
  - pose proof (Hmono x y Hle). lra.
Qed.

(** The scale at which the integer [m] has a binary64 neighbour below it
    that is near enough. *)
Lemma scale_below m :
  1 <= m <= 2 ^ 53 ->
  exists s : nat,
    (s <= 53)%nat /\
    m * 2 ^ Z.of_nat s <= 2 ^ 53 /\ 2 ^ 53 < 2 * (m * 2 ^ Z.of_nat s).
Proof.
  intros [H1 H53].
  destruct (Z.eq_dec m 1) as [->|Hne].
  - exists 53%nat. split; [lia|]. vm_compute. split; [discriminate|reflexivity].
  - assert (Hm : 1 < m) by lia.
    pose proof (Z.log2_up_spec m Hm) as [Hlo Hhi].
    pose proof (Z.log2_up_nonneg m) as H0.
    assert (Hle : Z.log2_up m <= 53).
    { apply Z.log2_up_le_pow2; lia. }
    assert (Hpos : 0 < Z.log2_up m) by (apply Z.log2_up_pos; lia).
    exists (Z.to_nat (53 - Z.log2_up m)).
    rewrite Z2Nat.id by lia.
    assert (E : 2 ^ 53 = 2 ^ Z.log2_up m * 2 ^ (53 - Z.log2_up m)).
    { rewrite <- Z.pow_add_r by lia. f_equal. lia. }
    assert (E' : 2 ^ Z.log2_up m = 2 * 2 ^ Z.pred (Z.log2_up m)).
    { rewrite <- Z.pow_succ_r by lia. f_equal. lia. }
    assert (Hp : 0 < 2 ^ (53 - Z.log2_up m))
      by (apply Z.pow_pos_nonneg; lia).
    split; [lia|]. rewrite E. split.
    + apply Z.mul_le_mono_nonneg_r; lia.
    + rewrite E'. nia.
Qed.

Lemma nearest_fixes (fl : Q -> Q) (y : Q) :
  (Qabs (fl y - y) <= Qabs (y - y))%Q -> (fl y == y)%Q.
Proof.
  intro H.
  assert (E : (Qabs (y - y) == 0)%Q).
  { setoid_replace (y - y)%Q with 0%Q by ring. reflexivity. }
  rewrite E in H. apply Qabs_le_0 in H. lra.
Qed.

(** With a rounding to nearest, the floor of the rounded product stays
    below [j - 1]: the draw is at most the largest double below 1. *)
Lemma jitter_floor_nearest (fl : Q -> Q) (r : Q) (j : Z) :
  (forall a b, a <= b -> fl a <= fl b)%Q ->
  (forall (x : Q) (M : Z) (s : nat),
      (0 <= x <= inject_Z (2 ^ 53))%Q ->
      Z.abs M <= 2 ^ 53 -> (s <= 1074)%nat ->
      (Qabs (fl x - x)
       <= Qabs (inject_Z M / inject_Z (2 ^ Z.of_nat s) - x))%Q) ->
  (0 <= r)%Q ->
  (r * inject_Z (2 ^ 53) <= inject_Z (2 ^ 53 - 1))%Q ->
  2 <= j <= 2 ^ 53 + 1 ->
  0 <= Qfloor (fl (r * inject_Z (j - 1))%Q) <= j - 2.
Proof.
  intros Hmono Hnear Hr0 Hr1 Hj.
  set (m := j - 1) in *.
  assert (Hm : 1 <= m <= 2 ^ 53) by (unfold m; lia).
  destruct (scale_below m Hm) as (s & Hs & Hlo & Hhi).
  set (t := 2 ^ Z.of_nat s) in *.
  assert (Ht : 1 <= t).
  { unfold t. pose proof (Z.pow_pos_nonneg 2 (Z.of_nat s)). lia. }
  set (x := (r * inject_Z m)%Q).
  set (y := (inject_Z (m * t - 1) / inject_Z t)%Q).
  set (P := inject_Z (2 ^ 53)) in *.
  assert (HP : (P == 9007199254740992)%Q) by reflexivity.
  assert (HP1 : (inject_Z (2 ^ 53 - 1) == P - 1)%Q)
    by (unfold P; vm_compute; reflexivity).
  assert (HT : (1 <= inject_Z t)%Q)
    by (change 1%Q with (inject_Z 1); rewrite <- Zle_Qle; exact Ht).
  assert (HM1 : (1 <= inject_Z m)%Q)
    by (change 1%Q with (inject_Z 1); rewrite <- Zle_Qle; lia).
  assert (HMP : (inject_Z m <= P)%Q)
    by (unfold P; rewrite <- Zle_Qle; lia).
  assert (Hlo' : (inject_Z m * inject_Z t <= P)%Q).
  { unfold P. rewrite <- inject_Z_mult, <- Zle_Qle. exact Hlo. }
  assert (Hhi' : (P < 2 * (inject_Z m * inject_Z t))%Q).
  { unfold P. change 2%Q with (inject_Z 2).
    rewrite <- !inject_Z_mult, <- Zlt_Qlt. exact Hhi. }
  assert (Ey : (y == inject_Z m - 1 / inject_Z t)%Q).
  { unfold y. unfold Z.sub. rewrite inject_Z_plus, inject_Z_mult.
    change (inject_Z (- (1))) with (- (1))%Q. field. lra. }
  assert (Hb : (0 < 1 / inject_Z t)%Q).
  { apply Qlt_shift_div_l; lra. }
  assert (Hb1 : (1 / inject_Z t <= 1)%Q).
  { apply Qle_shift_div_r; lra. }
  assert (Hab : (1 / inject_Z t < 2 * (inject_Z m / P))%Q).
  { apply Qlt_shift_div_r; [lra|].
    setoid_replace (2 * (inject_Z m / P) * inject_Z t)%Q
      with (2 * (inject_Z m * inject_Z t) / P)%Q by (field; lra).
    apply Qlt_shift_div_l; lra. }
  assert (Hrle : (r <= 1 - 1 / P)%Q).
  { setoid_replace (1 - 1 / P)%Q with ((P - 1) / P)%Q by (field; lra).
    apply Qle_shift_div_l; lra. }
  assert (Hx : (x <= inject_Z m - inject_Z m / P)%Q).
  { unfold x.
    setoid_replace (inject_Z m - inject_Z m / P)%Q
      with ((1 - 1 / P) * inject_Z m)%Q by (field; lra).
    apply Qmult_le_compat_r; lra. }
  assert (Hx0 : (0 <= x)%Q).
  { unfold x. apply Qmult_le_0_compat; lra. }
  assert (Hxm : (x <= inject_Z m)%Q).
  { assert (0 <= inject_Z m / P)%Q by (apply Qle_shift_div_l; lra). lra. }
  assert (HM : Z.abs (m * t - 1) <= 2 ^ 53) by lia.
  assert (Hs' : (s <= 1074)%nat) by lia.
  assert (Hy0 : (0 <= y <= P)%Q) by lra.
  assert (Fy : (fl y == y)%Q).
  { apply nearest_fixes. apply (Hnear y (m * t - 1) s Hy0 HM Hs'). }
  assert (Fx : (fl x < inject_Z m)%Q).
  { apply (rounds_below fl x y (inject_Z m) Hmono Fy).
    - apply (Hnear x (m * t - 1) s); [lra | exact HM | exact Hs'].
    - lra.
    - lra. }
  assert (F0 : (0 <= fl x)%Q).
  { assert (E0 : (fl 0 == 0)%Q).
    { apply nearest_fixes.
      assert (Hz : (inject_Z 0 / inject_Z (2 ^ Z.of_nat 0) == 0)%Q)
        by reflexivity.
      rewrite <- Hz at 3.
      apply (Hnear 0%Q 0 0%nat); [lra | vm_compute; discriminate | lia]. }
    pose proof (Hmono 0%Q x Hx0). lra. }
  split.
  - apply Qfloor_resp_le in F0. exact F0.
  - pose proof (Qfloor_le (fl x)) as Hf.
    assert (Hlt : (inject_Z (Qfloor (fl x)) < inject_Z m)%Q) by lra.
    rewrite <- Zlt_Qlt in Hlt. unfold m in Hlt. lia.
Qed.

(** X14. The last second of the window is never drawn.  [Math.random]
    returns a double below 1, which is at most [1 - 2^-53]; the product
    [Math.random() * (JITTER_DELAY - 1)] is rounded to a double.  For
    every rounding that is monotone and to nearest (on the range in use,
    the result is at least as near to the exact product as any number
    [M / 2^s] with [|M| <= 2^53] and [s <= 1074], all of which are
    binary64 numbers), and every window between 2 and [2^53], every
    delay lies between the initial delay and the initial delay plus the
    window minus two: [initial + window - 1] is never sent. *)
Theorem last_second_of_window_never_drawn
    (fl : Q -> Q) (random : nat -> Q) (queueUrl : string)
    (props : CircuitBreakerLambdaProps)
    (event : list RejitterLambda.SQSRecord) :
  (forall a b, a <= b -> fl a <= fl b)%Q ->
  (forall (x : Q) (M : Z) (s : nat),
      (0 <= x <= inject_Z (2 ^ 53))%Q ->
      Z.abs M <= 2 ^ 53 -> (s <= 1074)%nat ->
      (Qabs (fl x - x)
       <= Qabs (inject_Z M / inject_Z (2 ^ Z.of_nat s) - x))%Q) ->
  (forall k, 0 <= random k /\
             random k * inject_Z (2 ^ 53) <= inject_Z (2 ^ 53 - 1))%Q ->
  2 <= rejitterDelay props ?? 120 <= 2 ^ 53 ->
  forall d,
    In (Some d)
       (map RejitterLambda.DelaySeconds
          (RejitterLambda.handler fl
             (rejitterEnvironment queueUrl props) random event)) ->
    rejitterInitialBackoffDelay props ?? 60 <= d
    <= (rejitterInitialBackoffDelay props ?? 60)
       + (rejitterDelay props ?? 120) - 2.
Proof.
  intros Hmono Hnear Hrand HJ d.
  unfold RejitterLambda.handler, rejitterEnvironment. generalize 0%nat.
  induction event as [|r rest IH]; intros k Hin; [destruct Hin|].
  cbn [RejitterLambda.sendAll map RejitterLambda.DelaySeconds In] in Hin.
  destruct Hin as [Hd|Hin]; [|exact (IH _ Hin)].
  rewrite delay_environment in Hd. cbv beta in Hd.
  destruct (Hrand k) as [H0 H1].
  assert (HJ' : 2 <= CircuitBreakerSQSLambda.rejitterRange props
                <= 2 ^ 53 + 1)
    by (unfold CircuitBreakerSQSLambda.rejitterRange; lia).
  pose proof (jitter_floor_nearest fl (random k)
                (CircuitBreakerSQSLambda.rejitterRange props)
                Hmono Hnear H0 H1 HJ') as H.
  unfold CircuitBreakerSQSLambda.rejitterRange,
    CircuitBreakerSQSLambda.backoffDelay in *.
  remember (Qfloor (fl (random k * inject_Z (rejitterDelay props ?? 120 - 1)))%Q)
    as q.
  injection Hd as <-. lia.
Qed.

Lemma last_second_of_window_never_drawn_witness :
  60 <= 178 <= 60 + 120 - 2 /\
  map RejitterLambda.DelaySeconds
    (RejitterLambda.handler (fun x => x)
       (rejitterEnvironment "https://sqs/queue" (defaults true)) drawHigh
       [ {| RejitterLambda.body := "order-7" |} ])
  = [Some 178].
Proof.
  split; [|vm_compute; reflexivity].
  apply (last_second_of_window_never_drawn (fun x => x) drawHigh
           "https://sqs/queue"
           (defaults true) [ {| RejitterLambda.body := "order-7" |} ]).
  - intros a b H. exact H.
  - intros x M s _ _ _.
    setoid_replace (x - x)%Q with 0%Q by ring. apply Qabs_nonneg.
  - intro k. split; vm_compute; discriminate.
  - vm_compute. split; discriminate.
  - vm_compute. left. reflexivity.
Defined.
